(** * curl_cffi.requests.session: a shallow embedding and its properties

    The development follows [src/curl_cffi/requests/session.py]:
    the URL parameter merger [_update_url_params], the header line editor
    [_update_header_line], and [Session.request], which configures the
    transport handle option by option, runs it and rebuilds a response.

    Conventions of the model.
    - A Python [str] is a Rocq [string]; the model is exact on 7-bit ASCII
      text (case mapping, JSON escaping and percent-decoding of bytes above
      0x7F are outside it).  [bytes] is [string] as well, and [str.encode]
      is the identity.
    - A Python [dict] is an association list in insertion order whose keys
      are kept unique by [Dict.set].
    - The transport handle is the list of calls made on it, oldest first;
      an exception leaves the calls already made in place. *)

From Stdlib Require Import ZArith List String Ascii Bool Lia Floats DecimalString.
Import ListNotations.
Local Open Scope list_scope.
Local Open Scope string_scope.
#[local] Arguments Ascii.eqb : simpl never.

(** ** Python strings *)

Module PyStr.

Definition bytes := string.

Definition code (c : ascii) : nat := nat_of_ascii c.

Definition between (lo hi : nat) (c : ascii) : bool :=
  Nat.leb lo (code c) && Nat.leb (code c) hi.

Definition is_upper := between 65 90.
Definition is_lower := between 97 122.
Definition is_digit := between 48 57.
Definition is_alpha (c : ascii) : bool := is_upper c || is_lower c.
Definition is_alnum (c : ascii) : bool := is_alpha c || is_digit c.

Definition lower_char (c : ascii) : ascii :=
  if is_upper c then ascii_of_nat (code c + 32) else c.

Definition upper_char (c : ascii) : ascii :=
  if is_lower c then ascii_of_nat (code c - 32) else c.

Fixpoint map_chars (f : ascii -> ascii) (s : string) : string :=
  match s with
  | EmptyString => EmptyString
  | String c r => String (f c) (map_chars f r)
  end.

(** [str.lower] and [str.upper]. *)
Definition lower : string -> string := map_chars lower_char.
Definition upper : string -> string := map_chars upper_char.

(** [s.startswith(p)]. *)
Fixpoint startswith (s p : string) {struct p} : bool :=
  match p, s with
  | EmptyString, _ => true
  | String _ _, EmptyString => false
  | String a p', String b s' => Ascii.eqb a b && startswith s' p'
  end.

(** [c in s]. *)
Fixpoint contains (c : ascii) (s : string) : bool :=
  match s with
  | EmptyString => false
  | String d r => Ascii.eqb c d || contains c r
  end.

Fixpoint forallb_chars (p : ascii -> bool) (s : string) : bool :=
  match s with
  | EmptyString => true
  | String c r => p c && forallb_chars p r
  end.

(** [any(p(c) for c in s)]. *)
Fixpoint exists_char (p : ascii -> bool) (s : string) : bool :=
  match s with
  | EmptyString => false
  | String c r => p c || exists_char p r
  end.

(** Truth value of a string: [bool(s)]. *)
Definition nonempty (s : string) : bool :=
  match s with EmptyString => false | String _ _ => true end.

(** [s.split(c, 1)]: [None] when [c] does not occur, else the text
    before and after its first occurrence. *)
Fixpoint split_once (c : ascii) (s : string) : option (string * string) :=
  match s with
  | EmptyString => None
  | String d r =>
      if Ascii.eqb c d then Some (EmptyString, r)
      else match split_once c r with
           | Some (a, b) => Some (String d a, b)
           | None => None
           end
  end.

(** [s.split(c)]: always at least one field. *)
Fixpoint split (c : ascii) (s : string) : list string :=
  match s with
  | EmptyString => [EmptyString]
  | String d r =>
      if Ascii.eqb c d then EmptyString :: split c r
      else match split c r with
           | f :: fs => String d f :: fs
           | [] => [String d EmptyString]
           end
  end.

(** [sep.join(l)]. *)
Fixpoint join (sep : string) (l : list string) : string :=
  match l with
  | [] => EmptyString
  | [x] => x
  | x :: r => x ++ sep ++ join sep r
  end.

(** [s.replace(a, b)] for single characters. *)
Definition replace_char (a b : ascii) : string -> string :=
  map_chars (fun c => if Ascii.eqb c a then b else c).

(** [s.replace(a, "")] for a single character. *)
Fixpoint remove_char (a : ascii) (s : string) : string :=
  match s with
  | EmptyString => EmptyString
  | String c r => if Ascii.eqb c a then remove_char a r else String c (remove_char a r)
  end.

Fixpoint rev_onto (s acc : string) : string :=
  match s with
  | EmptyString => acc
  | String c r => rev_onto r (String c acc)
  end.

Definition rev (s : string) : string := rev_onto s EmptyString.

(** ASCII whitespace, as [bytes.strip] with no argument removes it:
    space, tab, line feed, carriage return, vertical tab, form feed. *)
Definition is_space (c : ascii) : bool :=
  Nat.eqb (code c) 32 || between 9 13 c.

Fixpoint lstrip_by (p : ascii -> bool) (s : string) : string :=
  match s with
  | EmptyString => EmptyString
  | String c r => if p c then lstrip_by p r else s
  end.

Definition strip (s : bytes) : bytes :=
  rev (lstrip_by is_space (rev (lstrip_by is_space s))).

(** [bytes.splitlines()]: lines end at LF, CR or CRLF; the terminators
    are dropped and a trailing terminator opens no empty last line. *)
Fixpoint splitlines_from (cur : string) (s : bytes) : list bytes :=
  match s with
  | EmptyString => if nonempty cur then [rev cur] else []
  | String c r =>
      if Ascii.eqb c "010" then rev cur :: splitlines_from EmptyString r
      else if Ascii.eqb c "013" then
        match r with
        | String "010" r' => rev cur :: splitlines_from EmptyString r'
        | _ => rev cur :: splitlines_from EmptyString r
        end
      else splitlines_from (String c cur) r
  end.

Definition splitlines : bytes -> list bytes := splitlines_from EmptyString.

Definition crlf : string := String "013" (String "010" EmptyString).

(** A line of text: no line feed and no carriage return in it. *)
Definition is_line (l : bytes) : bool := negb (contains "010" l) && negb (contains "013" l).

(** [s in l] for a list of strings. *)
Definition mem (s : string) (l : list string) : bool := existsb (String.eqb s) l.

(** [str(n)] for an [int]. *)
Definition str_of_int (z : Z) : string := NilZero.string_of_int (Z.to_int z).

End PyStr.
Import PyStr.
#[local] Arguments startswith : simpl nomatch.

(** ** Python dictionaries, in insertion order *)

Module Dict.
Section WithValue.
Context {V : Type}.

Definition t := list (string * V).

(** [d.get(k)]. *)
Fixpoint get (d : t) (k : string) : option V :=
  match d with
  | [] => None
  | (k', v) :: r => if String.eqb k' k then Some v else get r k
  end.

(** [d[k] = v]: an existing key keeps its place, a new one goes last. *)
Fixpoint set (d : t) (k : string) (v : V) : t :=
  match d with
  | [] => [(k, v)]
  | (k', v') :: r => if String.eqb k' k then (k', v) :: r else (k', v') :: set r k v
  end.

(** [d.update(items)]. *)
Definition update (d : t) (items : list (string * V)) : t :=
  fold_left (fun acc kv => set acc (fst kv) (snd kv)) items d.

(** [dict(items)]. *)
Definition of_items (items : list (string * V)) : t := update [] items.

Definition keys (d : t) : list string := map fst d.

(** Truth value of a dictionary. *)
Definition nonempty (d : t) : bool :=
  match d with [] => false | _ :: _ => true end.

End WithValue.
Arguments t : clear implicits.
End Dict.

(** ** json.dumps *)

Module Json.

#[local] Set Warnings "-register-all".

Inductive json : Type :=
| JNull
| JBool (b : bool)
| JInt (z : Z)
| JStr (s : string)
| JList (l : list json)
| JObj (items : list (string * json)).

Definition dquote : ascii := "034"%char.

Definition hex_lower (n : nat) : ascii :=
  if Nat.ltb n 10 then ascii_of_nat (48 + n) else ascii_of_nat (87 + n).

(** One character of a string literal, as the ASCII-only encoder of
    [json] writes it: printable characters themselves, the quote and the
    backslash behind a backslash, the usual short escapes, and [\u00xx]
    for what is left. *)
Definition escape_char (c : ascii) : string :=
  let n := code c in
  if Nat.eqb n 34 then String "\" (String dquote EmptyString)
  else if Nat.eqb n 92 then "\\"
  else if Nat.eqb n 8 then "\b"
  else if Nat.eqb n 12 then "\f"
  else if Nat.eqb n 10 then "\n"
  else if Nat.eqb n 13 then "\r"
  else if Nat.eqb n 9 then "\t"
  else if between 32 126 c then String c EmptyString
  else "\u00" ++ String (hex_lower (n / 16)) (String (hex_lower (n mod 16)) EmptyString).

Fixpoint escape (s : string) : string :=
  match s with
  | EmptyString => EmptyString
  | String c r => escape_char c ++ escape r
  end.

Definition json_string (s : string) : string :=
  String dquote (escape s ++ String dquote EmptyString).

(** [json.dumps(j)] with the default separators [", "] and [": "]. *)
Fixpoint dumps (j : json) : string :=
  match j with
  | JNull => "null"
  | JBool true => "true"
  | JBool false => "false"
  | JInt z => str_of_int z
  | JStr s => json_string s
  | JList l => "[" ++ join ", " (map dumps l) ++ "]"
  | JObj items =>
      "{" ++ join ", " (map (fun kv => json_string (fst kv) ++ ": " ++ dumps (snd kv)) items) ++ "}"
  end.

(** Truth value of a JSON-serialisable object. *)
Definition truthy (j : json) : bool :=
  match j with
  | JNull => false
  | JBool b => b
  | JInt z => negb (Z.eqb z 0)
  | JStr s => nonempty s
  | JList l => match l with [] => false | _ => true end
  | JObj items => match items with [] => false | _ => true end
  end.

End Json.
Import Json.

(** ** Values of a query or form mapping *)

Inductive atom : Type :=
| AStr (s : string)
| AInt (z : Z)
| ABool (b : bool)
| ANone.

(** A parameter value: a scalar, a sequence of scalars, or a mapping. *)
Inductive value : Type :=
| VAtom (a : atom)
| VSeq (l : list atom)
| VDict (items : list (string * json)).

(** [str(a)]. *)
Definition str_of_atom (a : atom) : string :=
  match a with
  | AStr s => s
  | AInt z => str_of_int z
  | ABool true => "True"
  | ABool false => "False"
  | ANone => "None"
  end.

(** ** urllib.parse

    The functions [session.py] imports from [urllib.parse], after
    CPython 3.11: [quote_plus] behind [urlencode], [unquote], [parse_qsl]
    with its default arguments (separator [&], blank values dropped),
    [urlparse] and [ParseResult.geturl].  A network location is checked
    for balanced brackets only. *)

Module UrlLib.

Definition hex_upper (n : nat) : ascii :=
  if Nat.ltb n 10 then ascii_of_nat (48 + n) else ascii_of_nat (55 + n).

Definition hex_value (c : ascii) : option nat :=
  if is_digit c then Some (code c - 48)
  else if between 65 70 c then Some (code c - 55)
  else if between 97 102 c then Some (code c - 87)
  else None.

(** Characters [quote] never escapes: letters, digits and [_.-~]. *)
Definition always_safe (c : ascii) : bool :=
  is_alnum c || contains c "_.-~".

Definition quote_plus_char (c : ascii) : string :=
  if always_safe c then String c EmptyString
  else if Ascii.eqb c " " then "+"
  else String "%" (String (hex_upper (code c / 16)) (String (hex_upper (code c mod 16)) EmptyString)).

(** [quote_plus(s)]. *)
Fixpoint quote_plus (s : string) : string :=
  match s with
  | EmptyString => EmptyString
  | String c r => quote_plus_char c ++ quote_plus r
  end.

(** [unquote(s)]: every [%XX] with two hexadecimal digits becomes the
    byte it names; a [%] followed by anything else stays. *)
Fixpoint unquote (s : string) : string :=
  match s with
  | EmptyString => EmptyString
  | String c r =>
      if Ascii.eqb c "%" then
        match r with
        | String a (String b r') =>
            match hex_value a, hex_value b with
            | Some x, Some y => String (ascii_of_nat (16 * x + y)) (unquote r')
            | _, _ => String c (unquote r)
            end
        | _ => String c (unquote r)
        end
      else String c (unquote r)
  end.

(** The field [quote_plus(k) + '=' + quote_plus(v)]. *)
Definition field (k v : string) : string := quote_plus k ++ "=" ++ quote_plus v.

(** [urlencode(items)], one [key=value] per item. *)
Definition urlencode (items : list (string * atom)) : string :=
  join "&" (map (fun kv => field (fst kv) (str_of_atom (snd kv))) items).

(** The [key=value] fields [urlencode(..., doseq=True)] writes for one
    item: one field for a scalar, one per element for a sequence; a
    mapping is iterated like any other sized object, over its keys. *)
Definition doseq_fields (kv : string * value) : list string :=
  match snd kv with
  | VAtom a => [field (fst kv) (str_of_atom a)]
  | VSeq l => map (fun e => field (fst kv) (str_of_atom e)) l
  | VDict items => map (fun e => field (fst kv) (fst e)) items
  end.

(** [urlencode(d, doseq=True)]. *)
Definition urlencode_doseq (d : Dict.t value) : string :=
  join "&" (flat_map doseq_fields d).

Definition plus_to_space : string -> string := replace_char "+" " ".

(** One [&]-separated field of a query string, as [parse_qsl] reads it. *)
Definition parse_field (name_value : string) : list (string * string) :=
  if nonempty name_value then
    match split_once "=" name_value with
    | None => []
    | Some (n, v) =>
        if nonempty v then [(unquote (plus_to_space n), unquote (plus_to_space v))] else []
    end
  else [].

(** [parse_qsl(qs)]. *)
Definition parse_qsl (qs : string) : list (string * string) :=
  flat_map parse_field (split "&" qs).

Record ParseResult : Type := mkParseResult {
  scheme : string;
  netloc : string;
  path : string;
  params : string;
  query : string;
  fragment : string
}.

Definition scheme_char (c : ascii) : bool := is_alnum c || contains c "+-.".

Definition uses_params : list string :=
  [""; "ftp"; "hdl"; "prospero"; "http"; "imap"; "https"; "shttp"; "rtsp";
   "rtspu"; "sip"; "sips"; "mms"; "sftp"; "tel"].

Definition uses_netloc : list string :=
  [""; "ftp"; "http"; "gopher"; "nntp"; "telnet"; "imap"; "wais"; "file";
   "mms"; "https"; "shttp"; "snews"; "prospero"; "rtsp"; "rtspu"; "rsync";
   "svn"; "svn+ssh"; "sftp"; "nfs"; "git"; "git+ssh"; "ws"; "wss"].

(** The longest prefix with no character in [p], and the rest. *)
Fixpoint span_until (p : ascii -> bool) (s : string) : string * string :=
  match s with
  | EmptyString => (EmptyString, EmptyString)
  | String c r =>
      if p c then (EmptyString, s)
      else let '(a, b) := span_until p r in (String c a, b)
  end.

(** The text around the last occurrence of [c]. *)
Fixpoint rsplit_once (c : ascii) (s : string) : option (string * string) :=
  match s with
  | EmptyString => None
  | String d r =>
      match rsplit_once c r with
      | Some (a, b) => Some (String d a, b)
      | None => if Ascii.eqb c d then Some (EmptyString, r) else None
      end
  end.

Definition netloc_end (c : ascii) : bool := contains c "/?#".

(** Leading C0 controls and spaces are stripped, then tab, CR and LF are
    removed everywhere. *)
Definition sanitize (url : string) : string :=
  remove_char "010" (remove_char "013" (remove_char "009"
    (lstrip_by (fun c => Nat.leb (code c) 32) url))).

(** The scheme, when the text before the first colon starts with a
    letter and holds scheme characters only. *)
Definition split_scheme (url : string) : string * string :=
  match split_once ":" url with
  | Some (String c s, rest) =>
      if is_alpha c && forallb_chars scheme_char s then (lower (String c s), rest)
      else (EmptyString, url)
  | _ => (EmptyString, url)
  end.

Definition bad_brackets (netloc : string) : bool :=
  (contains "[" netloc && negb (contains "]" netloc))
  || (contains "]" netloc && negb (contains "[" netloc)).

(** [_splitparams(url)]: the parameters of the last path segment. *)
Definition splitparams (url : string) : string * string :=
  match rsplit_once "/" url with
  | Some (dir, last) =>
      match split_once ";" last with
      | Some (l, p) => (dir ++ "/" ++ l, p)
      | None => (url, EmptyString)
      end
  | None =>
      match split_once ";" url with
      | Some (l, p) => (l, p)
      | None => (url, EmptyString)
      end
  end.

(** [urlparse(url)]; [None] is the [ValueError] of an unbalanced IPv6
    bracket in the network location. *)
Definition urlparse (url0 : string) : option ParseResult :=
  let url := sanitize url0 in
  let '(sch, url) := split_scheme url in
  let '(net, url) :=
    if startswith url "//" then
      span_until netloc_end (match url with String _ (String _ r) => r | _ => url end)
    else (EmptyString, url) in
  if bad_brackets net then None
  else
    let '(url, frag) :=
      match split_once "#" url with Some (u, f) => (u, f) | None => (url, EmptyString) end in
    let '(url, qry) :=
      match split_once "?" url with Some (u, q) => (u, q) | None => (url, EmptyString) end in
    let '(url, prm) :=
      if mem sch uses_params && contains ";" url then splitparams url else (url, EmptyString) in
    Some (mkParseResult sch net url prm qry frag).

(** [ParseResult.geturl()], that is [urlunparse]. *)
Definition geturl (r : ParseResult) : string :=
  let url := if nonempty (params r) then path r ++ ";" ++ params r else path r in
  let url :=
    if nonempty (netloc r)
       || (nonempty (scheme r) && mem (scheme r) uses_netloc && negb (startswith url "//"))
    then "//" ++ netloc r
         ++ (if nonempty url && negb (startswith url "/") then "/" ++ url else url)
    else url in
  let url := if nonempty (scheme r) then scheme r ++ ":" ++ url else url in
  let url := if nonempty (query r) then url ++ "?" ++ query r else url in
  if nonempty (fragment r) then url ++ "#" ++ fragment r else url.

End UrlLib.
Import UrlLib.

(** ** session.py: the two helpers *)

(** [class BrowserType(str, Enum)]. *)
Inductive BrowserType : Type :=
| edge99 | edge101 | chrome99 | chrome100 | chrome101 | chrome104
| chrome99_android | safari15_3 | safari15_5.

Definition BrowserType_value (b : BrowserType) : string :=
  match b with
  | edge99 => "edge99"
  | edge101 => "edge101"
  | chrome99 => "chrome99"
  | chrome100 => "chrome100"
  | chrome101 => "chrome101"
  | chrome104 => "chrome104"
  | chrome99_android => "chrome99_android"
  | safari15_3 => "safari15_3"
  | safari15_5 => "safari15_5"
  end.

(** The keys of [BrowserType.__members__]; each member is named as its
    value. *)
Definition BrowserType_members : list string :=
  map BrowserType_value
    [edge99; edge101; chrome99; chrome100; chrome101; chrome104;
     chrome99_android; safari15_3; safari15_5].

(** [BrowserType.has(item)]. *)
Definition BrowserType_has (item : string) : bool := mem item BrowserType_members.

(** [dumps(v)] when [isinstance(v, (bool, dict))]. *)
Definition json_text (v : value) : option string :=
  match v with
  | VAtom (ABool b) => Some (dumps (JBool b))
  | VDict items => Some (dumps (JObj items))
  | _ => None
  end.

(** The items [{k: dumps(v) for k, v in d.items() if isinstance(v, (bool, dict))}]. *)
Definition json_friendly (d : Dict.t value) : list (string * value) :=
  flat_map (fun kv =>
    match json_text (snd kv) with
    | Some s => [(fst kv, VAtom (AStr s))]
    | None => []
    end) d.

(** The argument of a query string as a value: a [str]. *)
Definition as_value (kt : string * string) : string * value :=
  (fst kt, VAtom (AStr (snd kt))).

(** A value as the merger encodes it: booleans and mappings by their
    JSON text, anything else as it is. *)
Definition json_friendly_value (v : value) : value :=
  match json_text v with Some s => VAtom (AStr s) | None => v end.

(** The merged arguments: those of the query string, then [params] over
    them, then booleans and mappings replaced by their JSON text. *)
Definition merged_get_args (get_args : string) (params : Dict.t value) : Dict.t value :=
  let parsed_get_args := Dict.of_items (map as_value (parse_qsl get_args)) in
  let parsed_get_args := Dict.update parsed_get_args params in
  Dict.update parsed_get_args (json_friendly parsed_get_args).

(** The texts [urlencode(..., doseq=True)] encodes for a value. *)
Definition texts (v : value) : list string :=
  match v with
  | VAtom a => [str_of_atom a]
  | VSeq l => map str_of_atom l
  | VDict items => map fst items
  end.

(** *** URLs and mappings written without escapes

    The class of inputs on which merging is a clean rewrite of the
    query: a URL [scheme://netloc/path?query#fragment] of printable
    ASCII with no percent sign, and a mapping whose keys and encoded
    values hold none of [% # & +] (nor [=] in a key) and are not empty. *)

Definition plain_char (c : ascii) : bool :=
  between 32 126 c && negb (Ascii.eqb c "%").

Definition plain_scheme_char (c : ascii) : bool :=
  is_lower c || is_digit c || contains c "+-.".

Definition plain_netloc_char (c : ascii) : bool :=
  plain_char c && negb (contains c "/?#[]").

Definition plain_path_char (c : ascii) : bool :=
  plain_char c && negb (contains c "?#;").

Definition plain_query_char (c : ascii) : bool :=
  plain_char c && negb (Ascii.eqb c "#").

Definition plain_key_char (c : ascii) : bool :=
  plain_char c && negb (contains c "#&+=").

Definition plain_text_char (c : ascii) : bool :=
  plain_char c && negb (contains c "#&+").

Definition plain_scheme (s : string) : bool :=
  match s with
  | String c r => is_lower c && forallb_chars plain_scheme_char r
  | EmptyString => false
  end.

Definition plain_url (r : ParseResult) : bool :=
  plain_scheme (scheme r)
  && nonempty (netloc r) && forallb_chars plain_netloc_char (netloc r)
  && (negb (nonempty (path r)) || startswith (path r) "/")
  && forallb_chars plain_path_char (path r)
  && negb (nonempty (UrlLib.params r))
  && forallb_chars plain_query_char (query r)
  && forallb_chars plain_char (fragment r).

Definition plain_text (t : string) : bool :=
  nonempty t && forallb_chars plain_text_char t.

(** A value whose encoded texts are all plain, and that has one at least. *)
Definition plain_value (v : value) : bool :=
  match texts (json_friendly_value v) with
  | [] => false
  | ts => forallb plain_text ts
  end.

Definition plain_params (params : Dict.t value) : bool :=
  forallb (fun kv => forallb_chars plain_key_char (fst kv) && plain_value (snd kv)) params.

(** The parse result with another query string. *)
Definition with_query (r : ParseResult) (q : string) : ParseResult :=
  mkParseResult (scheme r) (netloc r) (path r) (UrlLib.params r) q (fragment r).

(** ** Plain URLs *)

Definition printable (c : ascii) : bool := between 32 126 c.

(** What may stand in a query string for [urlparse] to read it back. *)
Definition query_ok (c : ascii) : bool := printable c && negb (Ascii.eqb c "#").

Definition query_part (q : string) : string :=
  if nonempty q then "?" ++ q else "".

Definition fragment_part (f : string) : string :=
  if nonempty f then "#" ++ f else "".

(** A plain URL as [geturl] writes it. *)
Definition rendered (r : ParseResult) (q : string) : string :=
  scheme r ++ ":" ++ "//" ++ netloc r ++ path r ++ query_part q ++ fragment_part (fragment r).

Record plain_parts (r : ParseResult) : Prop := {
  plain_scheme_ok : plain_scheme (scheme r) = true;
  plain_netloc_nonempty : nonempty (netloc r) = true;
  plain_netloc_ok : forallb_chars plain_netloc_char (netloc r) = true;
  plain_path_rooted : negb (nonempty (path r)) || startswith (path r) "/" = true;
  plain_path_ok : forallb_chars plain_path_char (path r) = true;
  plain_no_params : UrlLib.params r = "";
  plain_query_ok : forallb_chars plain_query_char (query r) = true;
  plain_fragment_ok : forallb_chars plain_char (fragment r) = true
}.

(** The (key, text) pairs a dictionary is encoded as. *)
Definition pairs (d : Dict.t value) : list (string * string) :=
  flat_map (fun kv => map (fun t => (fst kv, t)) (texts (snd kv))) d.

(** ** Query strings written by [urlencode] *)


Definition encoded (p : list (string * string)) : string :=
  join "&" (map (fun kt => field (fst kt) (snd kt)) p).

Definition despace : string -> string := replace_char " " "+".

Definition despace_char (c : ascii) : ascii := if Ascii.eqb c " " then "+"%char else c.

Definition respace_char (c : ascii) : ascii := if Ascii.eqb c "+" then " "%char else c.

(** The same query string after [unquote]: only the plus signs written
    for spaces remain. *)
Definition decoded_field (kt : string * string) : string :=
  despace (fst kt) ++ "=" ++ despace (snd kt).

Definition decoded (p : list (string * string)) : string :=
  join "&" (map decoded_field p).

(** A key and a text that are plain, as the pairs of a merged query are. *)
Definition plain_pair (kt : string * string) : bool :=
  forallb_chars plain_key_char (fst kt) && plain_text (snd kt).


(** [_update_url_params(url, params)]; [None] is the [ValueError] that
    [urlparse] raises. *)
Definition _update_url_params (url : string) (params : Dict.t value) : option string :=
  let url := unquote url in
  match urlparse url with
  | None => None
  | Some parsed_url =>
      let get_args := query parsed_url in
      let encoded_get_args := urlencode_doseq (merged_get_args get_args params) in
      Some (geturl (mkParseResult (scheme parsed_url) (netloc parsed_url) (path parsed_url)
                      (UrlLib.params parsed_url) encoded_get_args (fragment parsed_url)))
  end.

(** The line [f"{key}: {value}"]. *)
Definition header_line (key value : string) : string := key ++ ": " ++ value.

(** [_update_header_line(header_lines, key, value)]; the list the
    caller passed is returned in its new state. *)
Fixpoint _update_header_line (header_lines : list string) (key value : string) : list string :=
  match header_lines with
  | [] => [header_line key value]
  | line :: rest =>
      if startswith (lower line) (key ++ ":") then header_line key value :: rest
      else line :: _update_header_line rest key value
  end.

(** [header_line.startswith(b"HTTP/")]. *)
Definition is_status_line (l : bytes) : bool := startswith l "HTTP/".

(** The loop of [Session.request] over the captured header lines:
    blank lines are skipped, a status line records its reason phrase and
    empties the list, any other line is appended. *)
Fixpoint read_header_lines (get_reason_phrase : bytes -> bytes)
    (reason : option string) (header_list : list bytes) (header_lines : list bytes)
    : option string * list bytes :=
  match header_lines with
  | [] => (reason, header_list)
  | header_line :: rest =>
      if negb (nonempty (strip header_line)) then
        read_header_lines get_reason_phrase reason header_list rest
      else if is_status_line header_line then
        read_header_lines get_reason_phrase (Some (get_reason_phrase header_line)) [] rest
      else
        read_header_lines get_reason_phrase reason (header_list ++ [header_line])%list rest
  end.

(** The bytes the header sink holds once the transport has written these
    lines, each ended by CRLF. *)
Definition header_stream (lines : list bytes) : bytes :=
  fold_right (fun l r => l ++ crlf ++ r) EmptyString lines.

(** The ASCII characters [[\w-]] matches: letters, digits, the
    underscore and the hyphen. *)
Definition word_char (c : ascii) : bool := is_alnum c || contains c "_-".

(** [c.isascii()]. *)
Definition is_ascii (c : ascii) : bool := (code c <? 128)%nat.

(** The longest run [[\w-]+] matches at the start of [s].  The pattern
    is a [str] pattern, so its [\w] also takes the letters and digits
    that Unicode has above 0x7F.  Which those are is the table of the
    [re] module, no part of this package; [wide] stands for it: at a
    byte above 0x7F, [wide s] is the number of bytes of the character
    [s] starts with when that character is such a letter or digit, and
    0 when it is not.  [inside] counts the bytes still to take of a
    character already accepted. *)
Fixpoint take_word (wide : string -> nat) (inside : nat) (s : string) : string :=
  match s with
  | EmptyString => EmptyString
  | String c r =>
      match inside with
      | S n => String c (take_word wide n r)
      | O =>
          if word_char c then String c (take_word wide 0 r)
          else if is_ascii c then EmptyString
          else
            match wide s with
            | S n => String c (take_word wide n r)
            | O => EmptyString
            end
      end
  end.

Fixpoint drop (n : nat) (s : string) : string :=
  match n, s with
  | O, _ => s
  | S n', String _ r => drop n' r
  | S _, EmptyString => EmptyString
  end.

(** [re.search(r"charset=([\w-]+)", s)]: the group of the leftmost match. *)
Fixpoint search_charset (wide : string -> nat) (s : string) : option string :=
  match s with
  | EmptyString => None
  | String _ r =>
      let g := take_word wide 0 (drop 8 s) in
      if startswith s "charset=" && nonempty g then Some g else search_charset wide r
  end.

(** ** Numbers of a timeout *)

Inductive number : Type :=
| PyInt (z : Z)
| PyFloat (f : float).

(** [Union[float, Tuple[float, float]]]. *)
Inductive timeout_t : Type :=
| TScalar (t : number)
| TPair (connect_timeout read_timeout : number).

(** ** Exceptions and the transport handle *)

Definition CurlError := string.

Inductive exception : Type :=
| TypeError (msg : string)
| ValueError (msg : string)
| OverflowError (msg : string)
| KeyError (key : string)
| NotImplementedError (msg : string)
| RequestsError (msg : string)
| RequestsErrorFrom (e : CurlError).

(** The two [RequestsError]s raised while configuring, under the names
    the specification gives their kinds. *)
Definition ProxyBadScheme : exception :=
  RequestsError "You are using http proxy WRONG, the prefix should be 'http://' not 'https://', see: https://github.com/yifeikong/curl_cffi/issues/6".

Definition UnsupportedImpersonation (impersonate : string) : exception :=
  RequestsError ("impersonate " ++ impersonate ++ " is not supported").

Inductive CurlOpt : Type :=
| CUSTOMREQUEST | URL | POSTFIELDS | POSTFIELDSIZE | HTTPHEADER
| USERNAME | PASSWORD | CONNECTTIMEOUT_MS | TIMEOUT_MS | FOLLOWLOCATION
| MAXREDIRS | PROXY | HTTPPROXYTUNNEL | SSL_VERIFYPEER | SSL_VERIFYHOST
| REFERER | ACCEPT_ENCODING | WRITEFUNCTION | HEADERFUNCTION.

Inductive sink : Type := buffer | header_buffer.

Inductive optval : Type :=
| VBytes (b : bytes)
| VInt (z : Z)
| VLines (l : list bytes)
| VWrite (s : sink).

(** One call that acts on the handle: [c.setopt], [c.impersonate],
    [c.perform].  The calls that only read it after the transfer,
    [c.getinfo] and [c.get_reason_phrase], leave no entry: what they
    return is in [Transfer] and in [get_reason_phrase]. *)
Inductive curl_call : Type :=
| Setopt (o : CurlOpt) (v : optval)
| Impersonate (target : string)
| Perform.

Definition Curl := list curl_call.

Inductive outcome (A : Type) : Type :=
| Return (a : A)
| Raise (e : exception).
Arguments Return {A} a.
Arguments Raise {A} e.

(** A computation on the handle: given the calls made so far, the
    calls it makes and how it ends.  The handle afterwards is the one
    before followed by the new calls, also when it raises. *)
Definition M (A : Type) : Type := Curl -> list curl_call * outcome A.

Definition ret {A} (a : A) : M A := fun _ => ([], Return a).

Definition raise {A} (e : exception) : M A := fun _ => ([], Raise e).

Definition lift {A} (o : outcome A) : M A := fun _ => ([], o).

Definition bind {A B} (m : M A) (k : A -> M B) : M B :=
  fun c =>
    match m c with
    | (l1, Return a) => let '(l2, o) := k a (c ++ l1)%list in ((l1 ++ l2)%list, o)
    | (l1, Raise e) => (l1, Raise e)
    end.

Definition call (x : curl_call) : M unit := fun _ => ([x], Return tt).

Definition setopt (o : CurlOpt) (v : optval) : M unit := call (Setopt o v).

Definition when (b : bool) (m : M unit) : M unit := if b then m else ret tt.

Declare Scope py_scope.
Delimit Scope py_scope with py.
Notation "x <- m ;; k" := (bind m (fun x => k))
  (at level 61, m at next level, right associativity) : py_scope.
Notation "m ;; k" := (bind m (fun _ => k))
  (at level 61, right associativity) : py_scope.

Definition float_of_Z (z : Z) : float := SF2Prim (binary_normalize prec emax z 0 false).

Definition is_finite (f : float) : bool :=
  match Prim2SF f with S754_zero _ | S754_finite _ _ _ => true | _ => false end.

(** [float(n)]. *)
Definition to_float (n : number) : outcome float :=
  match n with
  | PyFloat f => Return f
  | PyInt z =>
      if is_finite (float_of_Z z) then Return (float_of_Z z)
      else Raise (OverflowError "int too large to convert to float")
  end.

(** [a + b]. *)
Definition num_add (a b : number) : outcome number :=
  match a, b with
  | PyInt x, PyInt y => Return (PyInt (x + y))
  | _, _ =>
      match to_float a, to_float b with
      | Return x, Return y => Return (PyFloat (PrimFloat.add x y))
      | Raise e, _ => Raise e
      | _, Raise e => Raise e
      end
  end.

(** [a * 1000]. *)
Definition times_1000 (a : number) : number :=
  match a with
  | PyInt x => PyInt (x * 1000)
  | PyFloat f => PyFloat (PrimFloat.mul f (float_of_Z 1000))
  end.

(** [int(a)]: truncation toward zero. *)
Definition int (a : number) : outcome Z :=
  match a with
  | PyInt x => Return x
  | PyFloat f =>
      match Prim2SF f with
      | S754_zero _ => Return 0%Z
      | S754_finite s m e =>
          let a := if (0 <=? e)%Z then Z.shiftl (Zpos m) e else Z.shiftr (Zpos m) (- e) in
          Return (if s then (- a)%Z else a)
      | S754_infinity _ => Raise (OverflowError "cannot convert float infinity to integer")
      | S754_nan => Raise (ValueError "cannot convert float NaN to integer")
      end
  end.

Definition number_truthy (n : number) : bool :=
  match n with
  | PyInt z => negb (Z.eqb z 0)
  | PyFloat f => negb (PrimFloat.eqb f PrimFloat.zero)
  end.

Definition timeout_truthy (t : timeout_t) : bool :=
  match t with
  | TScalar n => number_truthy n
  | TPair _ _ => true
  end.

(** [x or default] for an optional argument. *)
Definition or_default {A} (truthy : A -> bool) (x : option A) (default : A) : A :=
  match x with
  | Some a => if truthy a then a else default
  | None => default
  end.

(** [x or y] where both may be [None]. *)
Definition or_else {A} (truthy : A -> bool) (x y : option A) : option A :=
  match x with
  | Some a => if truthy a then x else y
  | None => y
  end.

Definition is_truthy {A} (truthy : A -> bool) (x : option A) : bool :=
  match x with Some a => truthy a | None => false end.

(** Whether a computation ended by returning. *)
Definition returned {A} (o : outcome A) : bool :=
  match o with Return _ => true | Raise _ => false end.

(** ** Requests, responses and the collaborators of a session *)

Module Request.
Record t (H : Type) : Type := mk { url : string; headers : H; method : string }.
Arguments mk {H}.
Arguments url {H}.
Arguments headers {H}.
Arguments method {H}.
End Request.

Module Response.
Record t (H : Type) : Type := mk {
  request : Request.t H;
  url : string;
  content : bytes;
  status_code : Z;
  ok : bool;
  reason : option string;
  headers : H;
  charset : string;
  encoding : string;
  elapsed : float;
  redirect_count : Z;
  redirect_url : string
}.
Arguments mk {H}.
Arguments request {H}.
Arguments url {H}.
Arguments content {H}.
Arguments status_code {H}.
Arguments ok {H}.
Arguments reason {H}.
Arguments headers {H}.
Arguments charset {H}.
Arguments encoding {H}.
Arguments elapsed {H}.
Arguments redirect_count {H}.
Arguments redirect_url {H}.
End Response.

(** What [c.perform()] leaves behind: the bytes written to the two
    sinks and the values [c.getinfo] reports. *)
Record Transfer : Type := mkTransfer {
  body_bytes : bytes;
  header_bytes : bytes;
  EFFECTIVE_URL : bytes;
  RESPONSE_CODE : Z;
  TOTAL_TIME : float;
  REDIRECT_COUNT : Z;
  REDIRECT_URL : bytes
}.

(** The parts of the package [session.py] imports: the header container
    and the cookie jar of [.headers] and [.cookies], and of the [Curl]
    handle what [setopt] does not cover.  With them, of the standard
    library, the table of letters and digits above 0x7F that [re] reads
    (see [take_word]). *)
Class Collaborators : Type := {
  Headers : Type;
  HeaderTypes : Type;
  Cookies : Type;
  CookieTypes : Type;
  (** [h = Headers(base); h.update(headers)] *)
  headers_update : Headers -> option HeaderTypes -> Headers;
  (** [h.multi_items()] *)
  multi_items : Headers -> list (string * string);
  (** [Headers(header_list)] *)
  headers_of_lines : list bytes -> Headers;
  (** [h.get(name, default=default)] *)
  headers_get : Headers -> string -> string -> string;
  (** [co = Cookies(base); co.update(cookies)] *)
  cookies_update : Cookies -> option CookieTypes -> Cookies;
  (** [co.set_cookie_header(req)]: the headers of [req] afterwards *)
  set_cookie_header : Cookies -> Request.t Headers -> Headers;
  (** [jar.extract_cookies(rsp)]: the jar afterwards *)
  extract_cookies : Cookies -> Response.t Headers -> Cookies;
  (** [c.perform()] on a handle configured by the given calls *)
  perform : Curl -> CurlError + Transfer;
  (** [c.get_reason_phrase(status_line)] *)
  get_reason_phrase : bytes -> bytes;
  (** the bytes of the letter or digit above 0x7F a text starts with, for
      the [\w] of [re]; 0 when it starts with none *)
  unicode_word : string -> nat
}.

Inductive data_t : Type :=
| DataDict (d : Dict.t atom)
| DataBytesIO (buf : bytes) (pos : nat)
| DataBytes (b : bytes)
| DataOther.

Module Session.
Record t `{Collaborators} : Type := mk {
  headers : Headers;
  cookies : Cookies;
  auth : option (string * string);
  proxies : option (Dict.t string);
  params : option (Dict.t value);
  verify : bool;
  timeout : timeout_t;
  trust_env : bool;
  max_redirects : Z;
  impersonate : option string
}.
End Session.

(** The arguments of one call of [Session.request]. *)
Module Call.
Record t `{Collaborators} : Type := mk {
  method : string;
  url : string;
  params : option (Dict.t value);
  data : option data_t;
  json : option Json.json;
  headers : option HeaderTypes;
  cookies : option CookieTypes;
  files : option (Dict.t bytes);
  auth : option (string * string);
  timeout : option timeout_t;
  allow_redirects : bool;
  max_redirects : option Z;
  proxies : option (Dict.t string);
  verify : option bool;
  referer : option string;
  accept_encoding : option string;
  impersonate : option string
}.

(** [request(method, url)] with every keyword argument at its default. *)
Definition defaults `{Collaborators} (method url : string) : t :=
  mk _ method url None None None None None None None None true None None None None
     (Some "gzip, deflate, br") None.

Definition with_method `{Collaborators} (method : string) (a : t) : t :=
  mk _ method (url a) (params a) (data a) (json a) (headers a) (cookies a) (files a)
     (auth a) (timeout a) (allow_redirects a) (max_redirects a) (proxies a) (verify a)
     (referer a) (accept_encoding a) (impersonate a).

Definition with_timeout `{Collaborators} (timeout : option timeout_t) (a : t) : t :=
  mk _ (method a) (url a) (params a) (data a) (json a) (headers a) (cookies a) (files a)
     (auth a) timeout (allow_redirects a) (max_redirects a) (proxies a) (verify a)
     (referer a) (accept_encoding a) (impersonate a).

End Call.

(** ** Session.request *)

Section Request.
Context `{Collaborators}.

(** [if params: url = _update_url_params(url, params)]. *)
Definition merge_params (url : string) (params : option (Dict.t value)) : outcome string :=
  if is_truthy Dict.nonempty params then
    match _update_url_params url (or_default Dict.nonempty params []) with
    | Some u => Return u
    | None => Raise (ValueError "Invalid IPv6 URL")
    end
  else Return url.

(** The target URL: the session's parameters merged first, the call's
    after them. *)
Definition resolve_url (self : Session.t) (a : Call.t) : outcome string :=
  match merge_params (Call.url a) (Session.params self) with
  | Return url => merge_params url (Call.params a)
  | Raise e => Raise e
  end.

Definition is_dict (data : option data_t) : bool :=
  match data with Some (DataDict _) => true | _ => false end.

(** The body: from [data] by its type, then replaced by the JSON text
    when [json] is truthy. *)
Definition resolve_body (data : option data_t) (json : option Json.json) : outcome bytes :=
  match
    match data with
    | Some (DataDict d) => Return (urlencode d)
    | Some (DataBytesIO buf pos) => Return (drop pos buf)
    | Some (DataBytes b) => Return b
    | None => Return EmptyString
    | Some DataOther => Raise (TypeError "data must be dict, BytesIO or bytes")
    end
  with
  | Return body =>
      Return (match json with
              | Some j => if Json.truthy j then dumps j else body
              | None => body
              end)
  | Raise e => Raise e
  end.

(** The header lines handed to the transport. *)
Definition serialize_headers (h : Headers) : list string :=
  map (fun kv => header_line (fst kv) (snd kv)) (multi_items h).

Definition header_lines_for (h : Headers) (data : option data_t) (json : option Json.json)
    : list string :=
  let header_lines := serialize_headers h in
  let header_lines :=
    if is_truthy Json.truthy json
    then _update_header_line header_lines "Content-Type" "application/json"
    else header_lines in
  if is_dict data
  then _update_header_line header_lines "Content-Type" "application/x-www-form-urlencoded"
  else header_lines.

(** The merged headers of the call, with the cookie header of the merged
    jar; [h] and [req.headers] are one object. *)
Definition request_headers (self : Session.t) (a : Call.t) (url : string) : Headers :=
  let h := headers_update (Session.headers self) (Call.headers a) in
  let co := cookies_update (Session.cookies self) (Call.cookies a) in
  set_cookie_header co (Request.mk url h (Call.method a)).

Definition set_auth (self_auth auth : option (string * string)) : M unit :=
  match or_else (fun _ => true) auth self_auth with
  | Some (username, password) =>
      (setopt USERNAME (VBytes username) ;; setopt PASSWORD (VBytes password))%py
  | None => ret tt
  end.

Definition set_timeout (timeout : timeout_t) : M unit :=
  match timeout with
  | TPair connect_timeout read_timeout =>
      (all_timeout <- lift (num_add connect_timeout read_timeout) ;;
       ms <- lift (int (times_1000 connect_timeout)) ;;
       setopt CONNECTTIMEOUT_MS (VInt ms) ;;
       ms <- lift (int (times_1000 all_timeout)) ;;
       setopt TIMEOUT_MS (VInt ms))%py
  | TScalar t =>
      (ms <- lift (int (times_1000 t)) ;; setopt TIMEOUT_MS (VInt ms))%py
  end.

(** [d[k]]. *)
Definition getitem (d : Dict.t string) (k : string) : outcome string :=
  match Dict.get d k with
  | Some v => Return v
  | None => Raise (KeyError k)
  end.

(** [{**self.proxies, **(proxies or {})}] when the session has proxies,
    else the argument as it came. *)
Definition effective_proxies (self_proxies proxies : option (Dict.t string))
    : option (Dict.t string) :=
  if is_truthy Dict.nonempty self_proxies then
    Some (Dict.update (Dict.of_items (or_default Dict.nonempty self_proxies []))
            (or_default Dict.nonempty proxies []))
  else proxies.

Definition set_proxies (proxies : option (Dict.t string)) (url : string) : M unit :=
  if is_truthy Dict.nonempty proxies then
    let proxies := or_default Dict.nonempty proxies [] in
    if startswith url "http://" then
      (p <- lift (getitem proxies "http") ;; setopt PROXY (VBytes p))%py
    else if startswith url "https://" then
      (p <- lift (getitem proxies "https") ;;
       if startswith p "https://" then raise ProxyBadScheme
       else
         (setopt PROXY (VBytes p) ;;
          when (negb (startswith p "socks")) (setopt HTTPPROXYTUNNEL (VInt 1))))%py
    else ret tt
  else ret tt.

Definition set_verify (self_verify : bool) (verify : option bool) : M unit :=
  when (match verify with
        | Some false => true
        | Some true => false
        | None => negb self_verify
        end)
    (setopt SSL_VERIFYPEER (VInt 0) ;; setopt SSL_VERIFYHOST (VInt 0))%py.

Definition set_impersonate (impersonate : option string) : M unit :=
  match impersonate with
  | Some tag =>
      if nonempty tag then
        if negb (BrowserType_has tag) then raise (UnsupportedImpersonation tag)
        else call (Impersonate tag)
      else ret tt
  | None => ret tt
  end.

(** [c.perform()], a [CurlError] re-raised as a [RequestsError]. *)
Definition do_perform : M Transfer :=
  fun c =>
    ([Perform],
     match perform c with
     | inr t => Return t
     | inl e => Raise (RequestsErrorFrom e)
     end).

(** The response rebuilt from a finished transfer, and the session's
    jar after [extract_cookies].  The jar reads the response before its
    charset and timing fields are set; they are empty then. *)
Definition read_response (self : Session.t) (req : Request.t Headers) (t : Transfer)
    : Response.t Headers * Cookies :=
  let status_code := RESPONSE_CODE t in
  let ok := ((200 <=? status_code) && (status_code <? 400))%Z in
  let header_lines := splitlines (header_bytes t) in
  let '(reason, header_list) := read_header_lines get_reason_phrase None [] header_lines in
  let headers := headers_of_lines header_list in
  let partial :=
    Response.mk req (EFFECTIVE_URL t) (body_bytes t) status_code ok reason headers
      EmptyString EmptyString PrimFloat.zero 0%Z EmptyString in
  let jar := extract_cookies (Session.cookies self) partial in
  let content_type := headers_get headers "Content-Type" EmptyString in
  let charset :=
    match search_charset unicode_word content_type with
    | Some g => g
    | None => "utf-8"
    end in
  (Response.mk req (EFFECTIVE_URL t) (body_bytes t) status_code ok reason headers
     charset charset (TOTAL_TIME t) (REDIRECT_COUNT t) (REDIRECT_URL t),
   jar).

(** [Session.request]: the response and the session's cookie jar after
    the call. *)
Definition request (self : Session.t) (a : Call.t) : M (Response.t Headers * Cookies) :=
  (let method := Call.method a in
   (* method *)
   setopt CUSTOMREQUEST (VBytes method) ;;
   (* url *)
   url <- lift (resolve_url self a) ;;
   setopt URL (VBytes url) ;;
   (* data/body/json *)
   body <- lift (resolve_body (Call.data a) (Call.json a)) ;;
   when (nonempty body)
     (setopt POSTFIELDS (VBytes body) ;;
      setopt POSTFIELDSIZE (VInt (Z.of_nat (String.length body)))) ;;
   (* headers, cookies *)
   let h := request_headers self a url in
   let req := Request.mk url h method in
   setopt HTTPHEADER (VLines (header_lines_for h (Call.data a) (Call.json a))) ;;
   (* files *)
   when (is_truthy Dict.nonempty (Call.files a))
     (raise (NotImplementedError "Files has not been implemented.")) ;;
   (* auth *)
   set_auth (Session.auth self) (Call.auth a) ;;
   (* timeout *)
   set_timeout (or_default timeout_truthy (Call.timeout a) (Session.timeout self)) ;;
   (* allow_redirects *)
   setopt FOLLOWLOCATION (VInt (if Call.allow_redirects a then 1 else 0)) ;;
   (* max_redirects *)
   setopt MAXREDIRS
     (VInt (or_default (fun z => negb (Z.eqb z 0)) (Call.max_redirects a)
              (Session.max_redirects self))) ;;
   (* proxies *)
   set_proxies (effective_proxies (Session.proxies self) (Call.proxies a)) url ;;
   (* verify *)
   set_verify (Session.verify self) (Call.verify a) ;;
   (* referer *)
   when (is_truthy nonempty (Call.referer a))
     (setopt REFERER (VBytes (or_default nonempty (Call.referer a) EmptyString))) ;;
   (* accept_encoding *)
   match Call.accept_encoding a with
   | Some e => setopt ACCEPT_ENCODING (VBytes e)
   | None => ret tt
   end ;;
   (* impersonate *)
   set_impersonate (or_else nonempty (Call.impersonate a) (Session.impersonate self)) ;;
   setopt WRITEFUNCTION (VWrite buffer) ;;
   setopt HEADERFUNCTION (VWrite header_buffer) ;;
   t <- do_perform ;;
   ret (read_response self req t))%py.

End Request.

(** The shorthands of [Session]: [partialmethod(request, VERB)], that
    is [request] with the method pinned. *)
Module Shorthand.
Section Verbs.
Context `{Collaborators}.

Definition head (self : Session.t) (a : Call.t) := request self (Call.with_method "HEAD" a).
Definition get (self : Session.t) (a : Call.t) := request self (Call.with_method "GET" a).
Definition post (self : Session.t) (a : Call.t) := request self (Call.with_method "POST" a).
Definition put (self : Session.t) (a : Call.t) := request self (Call.with_method "PUT" a).
Definition patch (self : Session.t) (a : Call.t) := request self (Call.with_method "PATCH" a).
Definition delete (self : Session.t) (a : Call.t) :=
  request self (Call.with_method "DELETE" a).

End Verbs.
End Shorthand.

Definition CurlOpt_eqb (a b : CurlOpt) : bool :=
  match a, b with
  | CUSTOMREQUEST, CUSTOMREQUEST | URL, URL | POSTFIELDS, POSTFIELDS
  | POSTFIELDSIZE, POSTFIELDSIZE | HTTPHEADER, HTTPHEADER | USERNAME, USERNAME
  | PASSWORD, PASSWORD | CONNECTTIMEOUT_MS, CONNECTTIMEOUT_MS | TIMEOUT_MS, TIMEOUT_MS
  | FOLLOWLOCATION, FOLLOWLOCATION | MAXREDIRS, MAXREDIRS | PROXY, PROXY
  | HTTPPROXYTUNNEL, HTTPPROXYTUNNEL | SSL_VERIFYPEER, SSL_VERIFYPEER
  | SSL_VERIFYHOST, SSL_VERIFYHOST | REFERER, REFERER | ACCEPT_ENCODING, ACCEPT_ENCODING
  | WRITEFUNCTION, WRITEFUNCTION | HEADERFUNCTION, HEADERFUNCTION => true
  | _, _ => false
  end.

(** The values a run of calls gives one option, oldest first. *)
Fixpoint settings (o : CurlOpt) (calls : list curl_call) : list optval :=
  match calls with
  | [] => []
  | Setopt o' v :: r => if CurlOpt_eqb o o' then v :: settings o r else settings o r
  | _ :: r => settings o r
  end.

Definition is_setopt (o : CurlOpt) (x : curl_call) : bool :=
  match x with Setopt o' _ => CurlOpt_eqb o o' | _ => false end.

Definition is_perform (x : curl_call) : bool :=
  match x with Perform => true | _ => false end.

Definition is_impersonate (x : curl_call) : bool :=
  match x with Impersonate _ => true | _ => false end.

(** Whether the handle was run, and the profiles it was given. *)
Definition performed (calls : list curl_call) : bool := existsb is_perform calls.

Fixpoint impersonations (calls : list curl_call) : list string :=
  match calls with
  | [] => []
  | Impersonate t :: r => t :: impersonations r
  | _ :: r => impersonations r
  end.

(** A computation that makes no call of the kind [P], however it ends. *)
Definition never (P : curl_call -> bool) {A} (m : M A) : Prop :=
  forall c, existsb P (fst (m c)) = false.

(** ** A session to run the model on

    A small instance of the collaborators, for evaluating [request] on
    concrete calls: headers are an ordered list of name/value pairs, the
    jar holds no cookie, and the transport answers every request with
    status 200, the body [ok] and one plain-text header block.  Its
    texts are ASCII, and its table of letters above 0x7F is empty. *)

Module Stub.

Definition overlay (base extra : list (string * string)) : list (string * string) :=
  (filter (fun kv => negb (existsb (fun e => String.eqb (lower (fst e)) (lower (fst kv))) extra))
     base ++ extra)%list.

Definition header_of_line (line : bytes) : string * string :=
  match split_once ":" line with
  | Some (k, v) => (k, lstrip_by is_space v)
  | None => (line, EmptyString)
  end.

Fixpoint lookup (h : list (string * string)) (name default : string) : string :=
  match h with
  | [] => default
  | (k, v) :: r => if String.eqb (lower k) (lower name) then v else lookup r name default
  end.

(** The reason phrase of a status line: what follows its second space. *)
Definition reason_phrase (status_line : bytes) : bytes :=
  match split_once " " status_line with
  | Some (_, r) => match split_once " " r with Some (_, p) => p | None => EmptyString end
  | None => EmptyString
  end.

Definition transfer (url : bytes) : Transfer :=
  mkTransfer "ok" ("HTTP/1.1 200 OK" ++ crlf ++ "Content-Type: text/plain" ++ crlf ++ crlf)
    url 200%Z PrimFloat.zero 0%Z EmptyString.

(** The URL the handle was last given. *)
Definition last_url (c : Curl) : bytes :=
  match List.rev (settings URL c) with
  | VBytes u :: _ => u
  | _ => EmptyString
  end.

#[export] Instance collaborators : Collaborators := {|
  Headers := list (string * string);
  HeaderTypes := list (string * string);
  Cookies := unit;
  CookieTypes := unit;
  headers_update := fun base extra =>
    match extra with Some e => overlay base e | None => base end;
  multi_items := fun h => h;
  headers_of_lines := map header_of_line;
  headers_get := lookup;
  cookies_update := fun jar _ => jar;
  set_cookie_header := fun _ req => Request.headers req;
  extract_cookies := fun jar _ => jar;
  perform := fun c => inr (transfer (last_url c));
  get_reason_phrase := reason_phrase;
  unicode_word := fun _ => 0%nat
|}.

(** [Session()] with every argument at its default. *)
Definition session : Session.t :=
  Session.mk _ [] tt None None None true (TScalar (PyInt 30)) true (-1)%Z None.

(** The header lines of a redirect followed by its target. *)
Definition redirected : list bytes :=
  ["HTTP/1.1 302 Found"; "Location: /next"; "Set-Cookie: a=1"; "";
   "HTTP/1.1 200 OK"; "Content-Type: text/plain"; ""].

(** The calls a request makes on a fresh handle, and how it ends. *)
Definition run (self : Session.t) (a : Call.t) := request self a [].

(** [request(method, url, data=data, json=json)]. *)
Definition call_with_body (method url : string) (data : option data_t)
    (json : option Json.json) : Call.t :=
  Call.mk _ method url None data json None None None None None true None None None None
    (Some "gzip, deflate, br") None.

(** [request("GET", url, files=files, proxies=proxies, impersonate=impersonate)]. *)
Definition call_with_options (url : string) (files : option (Dict.t bytes))
    (proxies : option (Dict.t string)) (impersonate : option string) : Call.t :=
  Call.mk _ "GET" url None None None None None files None None true None proxies None None
    (Some "gzip, deflate, br") impersonate.

End Stub.

(** * Properties *)

(** ** Strings *)

Lemma append_empty_r (s : string) : s ++ "" = s.
Proof. induction s; simpl; congruence. Qed.

Lemma append_assoc (a b c : string) : (a ++ b) ++ c = a ++ b ++ c.
Proof. induction a; simpl; congruence. Qed.

Lemma rev_onto_append (s acc : string) : rev_onto s acc = rev s ++ acc.
Proof.
  unfold rev. revert acc.
  induction s as [|c s IH]; intros acc; simpl; [reflexivity|].
  rewrite IH, (IH (String c "")), append_assoc. reflexivity.
Qed.

Lemma rev_cons (c : ascii) (s : string) : rev (String c s) = rev s ++ String c "".
Proof. unfold rev at 1. simpl. apply rev_onto_append. Qed.

Lemma exists_char_append p (a b : string) :
  exists_char p (a ++ b) = exists_char p a || exists_char p b.
Proof. induction a; simpl; [reflexivity|]. rewrite IHa, orb_assoc. reflexivity. Qed.

Lemma exists_char_rev p (s : string) : exists_char p (rev s) = exists_char p s.
Proof.
  induction s as [|c s IH]; [reflexivity|].
  rewrite rev_cons, exists_char_append, IH. simpl.
  rewrite orb_false_r. apply orb_comm.
Qed.

Lemma lstrip_by_nonempty p (s : string) :
  nonempty (lstrip_by p s) = exists_char (fun c => negb (p c)) s.
Proof.
  induction s as [|c s IH]; [reflexivity|]. simpl.
  destruct (p c); simpl; [exact IH | reflexivity].
Qed.

Lemma lstrip_by_exists p (s : string) :
  exists_char (fun c => negb (p c)) (lstrip_by p s) = exists_char (fun c => negb (p c)) s.
Proof.
  induction s as [|c s IH]; [reflexivity|]. simpl.
  destruct (p c) eqn:E; simpl; [exact IH | rewrite E; reflexivity].
Qed.

Lemma nonempty_rev (s : string) : nonempty (rev s) = nonempty s.
Proof.
  destruct s as [|c s]; [reflexivity|]. rewrite rev_cons.
  destruct (rev s); reflexivity.
Qed.

(** A line survives [strip] exactly when it holds a character that is
    not whitespace. *)
Lemma strip_nonempty (s : bytes) :
  nonempty (strip s) = exists_char (fun c => negb (is_space c)) s.
Proof.
  unfold strip.
  rewrite nonempty_rev, lstrip_by_nonempty, exists_char_rev.
  apply lstrip_by_exists.
Qed.

Lemma startswith_append (s p : string) : startswith (p ++ s) p = true.
Proof. induction p; simpl; [destruct s; reflexivity|]. rewrite Ascii.eqb_refl. exact IHp. Qed.

Lemma lower_char_not_upper (c : ascii) : is_upper (lower_char c) = false.
Proof. destruct c as [[] [] [] [] [] [] [] []]; reflexivity. Qed.

Lemma lower_no_upper (s : string) : exists_char is_upper (lower s) = false.
Proof.
  induction s as [|c s IH]; [reflexivity|]. simpl.
  rewrite lower_char_not_upper. exact IH.
Qed.

Lemma startswith_exists p (s q : string) :
  startswith s q = true -> exists_char p q = true -> exists_char p s = true.
Proof.
  revert s. induction q as [|a q IH]; intros s Hs Hq; [discriminate|].
  destruct s as [|b s]; [discriminate|]. simpl in *.
  apply andb_prop in Hs. destruct Hs as [Hab Hs].
  apply Ascii.eqb_eq in Hab. subst b.
  destruct (p a); [reflexivity|]. simpl in *. eauto.
Qed.

(** ** Dictionaries *)

Section DictFacts.
Context {V : Type}.
Implicit Types (d : Dict.t V) (k : string) (v : V).

Lemma mem_In k (l : list string) : mem k l = true <-> In k l.
Proof.
  unfold mem. rewrite existsb_exists. split.
  - intros [x [Hx E]]. apply String.eqb_eq in E. subst x. exact Hx.
  - intros Hk. exists k. split; [exact Hk|apply String.eqb_refl].
Qed.

Lemma mem_false k (l : list string) : mem k l = false <-> ~ In k l.
Proof.
  rewrite <- mem_In. destruct (mem k l); split; intros; congruence.
Qed.

Lemma get_set d k v k' :
  Dict.get (Dict.set d k v) k' = if String.eqb k k' then Some v else Dict.get d k'.
Proof.
  induction d as [|[k0 v0] d IH]; simpl.
  - reflexivity.
  - destruct (String.eqb k0 k) eqn:E0; simpl.
    + apply String.eqb_eq in E0. subst k0.
      destruct (String.eqb k k'); reflexivity.
    + destruct (String.eqb k0 k') eqn:E1; [|exact IH].
      apply String.eqb_eq in E1. subst k0.
      rewrite String.eqb_sym, E0. reflexivity.
Qed.

Lemma keys_set d k v :
  Dict.keys (Dict.set d k v)
  = if mem k (Dict.keys d) then Dict.keys d else (Dict.keys d ++ [k])%list.
Proof.
  induction d as [|[k0 v0] d IH]; simpl; [reflexivity|].
  rewrite (String.eqb_sym k k0).
  destruct (String.eqb k0 k); simpl; [reflexivity|].
  unfold Dict.keys in *. rewrite IH.
  destruct (mem k (map fst d)); reflexivity.
Qed.

Lemma get_None d k : Dict.get d k = None <-> ~ In k (Dict.keys d).
Proof.
  induction d as [|[k0 v0] d IH]; simpl; [tauto|].
  destruct (String.eqb k0 k) eqn:E.
  - apply String.eqb_eq in E. split; [discriminate|tauto].
  - apply String.eqb_neq in E. rewrite IH. tauto.
Qed.

Lemma get_In d k v : Dict.get d k = Some v -> In (k, v) d.
Proof.
  induction d as [|[k0 v0] d IH]; simpl; [discriminate|].
  destruct (String.eqb k0 k) eqn:E.
  - apply String.eqb_eq in E. intros [= ->]. left. congruence.
  - intros Hg. right. exact (IH Hg).
Qed.

Lemma In_get d k v : NoDup (Dict.keys d) -> In (k, v) d -> Dict.get d k = Some v.
Proof.
  induction d as [|[k0 v0] d IH]; simpl; intros Hnd Hin; [contradiction|].
  inversion Hnd as [|? ? Hk0 Hd]; subst.
  destruct Hin as [[= -> ->]|Hin].
  - rewrite String.eqb_refl. reflexivity.
  - destruct (String.eqb k0 k) eqn:E; [|exact (IH Hd Hin)].
    apply String.eqb_eq in E. subst k0. exfalso. apply Hk0.
    exact (in_map fst _ _ Hin).
Qed.

Lemma NoDup_keys_set d k v : NoDup (Dict.keys d) -> NoDup (Dict.keys (Dict.set d k v)).
Proof.
  intros Hnd. rewrite keys_set. destruct (mem k (Dict.keys d)) eqn:E; [exact Hnd|].
  apply mem_false in E. apply NoDup_app; [exact Hnd|repeat constructor; intros []|].
  intros x Hx [<-|[]]. exact (E Hx).
Qed.

Lemma NoDup_keys_update d (items : list (string * V)) :
  NoDup (Dict.keys d) -> NoDup (Dict.keys (Dict.update d items)).
Proof.
  unfold Dict.update. revert d.
  induction items as [|[k v] items IH]; intros d Hnd; simpl; [exact Hnd|].
  apply IH, NoDup_keys_set, Hnd.
Qed.

Lemma NoDup_keys_of_items (items : list (string * V)) :
  NoDup (Dict.keys (Dict.of_items items)).
Proof. apply NoDup_keys_update. constructor. Qed.

(** After [d.update(items)] a key holds what the items gave it, or what
    it held before when the items do not name it. *)
Lemma get_update d (items : list (string * V)) k :
  NoDup (Dict.keys items) ->
  Dict.get (Dict.update d items) k
  = match Dict.get items k with Some v => Some v | None => Dict.get d k end.
Proof.
  unfold Dict.update. revert d.
  induction items as [|[k0 v0] items IH]; intros d Hnd; simpl; [reflexivity|].
  inversion Hnd as [|? ? Hk0 Hitems]; subst.
  rewrite (IH _ Hitems), get_set.
  destruct (String.eqb k0 k) eqn:E; [|reflexivity].
  apply String.eqb_eq in E. subst k0.
  apply get_None in Hk0. rewrite Hk0. reflexivity.
Qed.

Lemma keys_update_known d (items : list (string * V)) :
  (forall k, In k (Dict.keys items) -> In k (Dict.keys d)) ->
  Dict.keys (Dict.update d items) = Dict.keys d.
Proof.
  unfold Dict.update. revert d.
  induction items as [|[k0 v0] items IH]; intros d Hsub; simpl; [reflexivity|].
  assert (Hk : Dict.keys (Dict.set d k0 v0) = Dict.keys d).
  { rewrite keys_set. replace (mem k0 (Dict.keys d)) with true; [reflexivity|].
    symmetry. apply mem_In, Hsub. left. reflexivity. }
  rewrite IH; [exact Hk|]. intros k Hin. rewrite Hk. apply Hsub. right. exact Hin.
Qed.

(** Two dictionaries with the same keys in the same order and the same
    value under every key are equal. *)
Lemma dict_ext d d' :
  Dict.keys d = Dict.keys d' -> NoDup (Dict.keys d) ->
  (forall k, Dict.get d k = Dict.get d' k) -> d = d'.
Proof.
  revert d'. induction d as [|[k v] d IH]; intros [|[k' v'] d'] Hk Hnd Hg;
    try discriminate; [reflexivity|].
  simpl in Hk. injection Hk as -> Hk.
  inversion Hnd as [|? ? Hk' Hd]; subst.
  pose proof (Hg k') as Hv. simpl in Hv. rewrite String.eqb_refl in Hv.
  injection Hv as ->. f_equal. apply IH; [exact Hk|exact Hd|].
  intros k. pose proof (Hg k) as Hgk. simpl in Hgk.
  destruct (String.eqb k' k) eqn:E; [|exact Hgk].
  apply String.eqb_eq in E. subst k'.
  transitivity (@None V); [|symmetry]; apply get_None; [exact Hk'|].
  unfold Dict.keys in *. rewrite <- Hk. exact Hk'.
Qed.

End DictFacts.


(** ** The URL parameter merger *)

Lemma keys_json_friendly (d : Dict.t value) k :
  In k (Dict.keys (json_friendly d)) -> In k (Dict.keys d).
Proof.
  unfold Dict.keys, json_friendly. rewrite !in_map_iff.
  intros [[k' v'] [<- Hin]]. apply in_flat_map in Hin.
  destruct Hin as [[k0 v0] [Hd Hin]]. simpl in Hin.
  destruct (json_text v0); [|contradiction].
  destruct Hin as [[= <- <-]|[]]. exists (k0, v0). split; [reflexivity|exact Hd].
Qed.

Lemma get_json_friendly (d : Dict.t value) k :
  NoDup (Dict.keys d) ->
  Dict.get (json_friendly d) k
  = match Dict.get d k with
    | Some v => option_map (fun s => VAtom (AStr s)) (json_text v)
    | None => None
    end.
Proof.
  induction d as [|[k0 v0] d IH]; intros Hnd; [reflexivity|].
  inversion Hnd as [|? ? Hk0 Hd]; subst.
  change (json_friendly ((k0, v0) :: d))
    with ((match json_text v0 with
           | Some s => [(k0, VAtom (AStr s))]
           | None => []
           end ++ json_friendly d)%list).
  simpl Dict.get at 2.
  destruct (String.eqb k0 k) eqn:E.
  - apply String.eqb_eq in E. subst k0.
    destruct (json_text v0) as [s|]; simpl.
    + rewrite String.eqb_refl. reflexivity.
    + apply get_None. intros Hin. apply Hk0, keys_json_friendly, Hin.
  - destruct (json_text v0) as [s|]; simpl; [rewrite E|]; exact (IH Hd).
Qed.

Lemma NoDup_keys_json_friendly (d : Dict.t value) :
  NoDup (Dict.keys d) -> NoDup (Dict.keys (json_friendly d)).
Proof.
  induction d as [|[k0 v0] d IH]; intros Hnd; [constructor|].
  inversion Hnd as [|? ? Hk0 Hd]; subst.
  change (json_friendly ((k0, v0) :: d))
    with ((match json_text v0 with
           | Some s => [(k0, VAtom (AStr s))]
           | None => []
           end ++ json_friendly d)%list).
  destruct (json_text v0) as [s|]; simpl; [|exact (IH Hd)].
  constructor; [|exact (IH Hd)].
  intros Hin. apply Hk0, keys_json_friendly, Hin.
Qed.

(** The second [update] of the merger, key by key. *)
Lemma get_update_json_friendly (d : Dict.t value) k :
  NoDup (Dict.keys d) ->
  Dict.get (Dict.update d (json_friendly d)) k
  = option_map json_friendly_value (Dict.get d k).
Proof.
  intros Hnd.
  rewrite get_update by (apply NoDup_keys_json_friendly, Hnd).
  rewrite get_json_friendly by exact Hnd.
  unfold json_friendly_value.
  destruct (Dict.get d k) as [v|]; [|reflexivity].
  simpl. destruct (json_text v); reflexivity.
Qed.

(** The merged arguments, key by key: the parameter when there is one,
    else the value of the query string. *)
Lemma get_merged_get_args (get_args : string) (params : Dict.t value) k :
  NoDup (Dict.keys params) ->
  Dict.get (merged_get_args get_args params) k
  = option_map json_friendly_value
      (match Dict.get params k with
       | Some v => Some v
       | None =>
           Dict.get
             (Dict.of_items
                (map (fun kv => (fst kv, VAtom (AStr (snd kv)))) (parse_qsl get_args))) k
       end).
Proof.
  intros Hnd. unfold merged_get_args.
  rewrite get_update_json_friendly
    by (apply NoDup_keys_update, NoDup_keys_of_items).
  rewrite get_update by exact Hnd. reflexivity.
Qed.

Lemma In_doseq_fields (d : Dict.t value) k v f :
  Dict.get d k = Some v -> In f (doseq_fields (k, v)) -> In f (flat_map doseq_fields d).
Proof.
  intros Hg Hf. apply in_flat_map. exists (k, v). split; [apply get_In, Hg|exact Hf].
Qed.

(** C7.  In the query string the merger writes, a parameter whose value
    is a boolean stands as [key=true] or [key=false], one whose value
    is a mapping stands as [key=] followed by its (percent-encoded) JSON
    text, and one whose value is a sequence stands as one [key=element]
    field per element, in order and next to each other. *)
Theorem json_text_and_repeated_fields
    (url : string) (params : Dict.t value) (parsed_url : ParseResult) :
  NoDup (Dict.keys params) ->
  urlparse (unquote url) = Some parsed_url ->
  exists fields,
    _update_url_params url params
    = Some (geturl (mkParseResult (scheme parsed_url) (netloc parsed_url) (path parsed_url)
                      (UrlLib.params parsed_url) (join "&" fields) (fragment parsed_url)))
    /\ (forall k b,
          Dict.get params k = Some (VAtom (ABool b)) ->
          In (quote_plus k ++ "=" ++ (if b then "true" else "false")) fields)
    /\ (forall k items,
          Dict.get params k = Some (VDict items) ->
          In (field k (dumps (JObj items))) fields)
    /\ (forall k l,
          Dict.get params k = Some (VSeq l) ->
          exists before after,
            fields = (before ++ map (fun e => field k (str_of_atom e)) l ++ after)%list).
Proof.
  intros Hnd Hparse.
  exists (flat_map doseq_fields (merged_get_args (query parsed_url) params)).
  split; [unfold _update_url_params; rewrite Hparse; reflexivity|].
  split; [|split].
  - intros k b Hk.
    apply (In_doseq_fields _ k (VAtom (AStr (dumps (JBool b))))).
    + rewrite get_merged_get_args, Hk by exact Hnd. reflexivity.
    + left. destruct b; reflexivity.
  - intros k items Hk.
    apply (In_doseq_fields _ k (VAtom (AStr (dumps (JObj items))))).
    + rewrite get_merged_get_args, Hk by exact Hnd. reflexivity.
    + left. reflexivity.
  - intros k l Hk.
    assert (Hin : In (k, VSeq l) (merged_get_args (query parsed_url) params)).
    { apply get_In. rewrite get_merged_get_args, Hk by exact Hnd. reflexivity. }
    apply in_split in Hin. destruct Hin as [d1 [d2 ->]].
    exists (flat_map doseq_fields d1), (flat_map doseq_fields d2).
    rewrite flat_map_app. reflexivity.
Qed.


(** ** Splitting and escaping *)

Lemma forallb_chars_append p (a b : string) :
  forallb_chars p (a ++ b) = forallb_chars p a && forallb_chars p b.
Proof. induction a; simpl; [reflexivity|]. rewrite IHa, andb_assoc. reflexivity. Qed.

Lemma forallb_chars_impl (p q : ascii -> bool) (s : string) :
  (forall c, p c = true -> q c = true) ->
  forallb_chars p s = true -> forallb_chars q s = true.
Proof.
  intros Hpq. induction s as [|c s IH]; simpl; [reflexivity|].
  intros H. apply andb_prop in H. destruct H as [Hc Hs].
  rewrite (Hpq c Hc), (IH Hs). reflexivity.
Qed.

Lemma contains_append c (a b : string) :
  contains c (a ++ b) = contains c a || contains c b.
Proof. induction a; simpl; [reflexivity|]. rewrite IHa, orb_assoc. reflexivity. Qed.

Lemma forallb_chars_excludes p (s : string) c :
  forallb_chars p s = true -> p c = false -> contains c s = false.
Proof.
  intros Hs Hc. induction s as [|d s IH]; simpl; [reflexivity|].
  simpl in Hs. apply andb_prop in Hs. destruct Hs as [Hd Hs].
  rewrite (IH Hs), orb_false_r.
  destruct (Ascii.eqb c d) eqn:E; [|reflexivity].
  apply Ascii.eqb_eq in E. subst d. congruence.
Qed.

Lemma split_once_absent c (s : string) : contains c s = false -> split_once c s = None.
Proof.
  induction s as [|d s IH]; simpl; [reflexivity|]. intros H.
  apply orb_false_iff in H. destruct H as [Hd Hs].
  rewrite Hd, (IH Hs). reflexivity.
Qed.

Lemma split_once_first c (a b : string) :
  contains c a = false -> split_once c (a ++ String c b) = Some (a, b).
Proof.
  induction a as [|d a IH]; simpl; intros H.
  - rewrite Ascii.eqb_refl. reflexivity.
  - apply orb_false_iff in H. destruct H as [Hd Ha].
    rewrite Hd, (IH Ha). reflexivity.
Qed.

Lemma split_absent c (s : string) : contains c s = false -> split c s = [s].
Proof.
  induction s as [|d s IH]; simpl; [reflexivity|]. intros H.
  apply orb_false_iff in H. destruct H as [Hd Hs].
  rewrite Hd, (IH Hs). reflexivity.
Qed.

Lemma split_first c (a b : string) :
  contains c a = false -> split c (a ++ String c b) = a :: split c b.
Proof.
  induction a as [|d a IH]; simpl; intros H.
  - rewrite Ascii.eqb_refl. reflexivity.
  - apply orb_false_iff in H. destruct H as [Hd Ha].
    rewrite Hd, (IH Ha). reflexivity.
Qed.

Lemma join_cons sep x y (l : list string) :
  join sep (x :: y :: l) = x ++ sep ++ join sep (y :: l).
Proof. reflexivity. Qed.

Lemma split_join (fs : list string) :
  fs <> [] -> (forall f, In f fs -> contains "&" f = false) ->
  split "&" (join "&" fs) = fs.
Proof.
  induction fs as [|x fs IH]; intros Hne Hfs; [congruence|].
  destruct fs as [|y fs].
  - simpl. apply split_absent, Hfs. left. reflexivity.
  - rewrite join_cons. change ("&" ++ join "&" (y :: fs)) with (String "&" (join "&" (y :: fs))).
    rewrite split_first by (apply Hfs; left; reflexivity).
    f_equal. apply IH; [discriminate|]. intros f Hf. apply Hfs. right. exact Hf.
Qed.

Lemma span_until_stop p (a b : string) :
  forallb_chars (fun c => negb (p c)) a = true ->
  match b with EmptyString => true | String c _ => p c end = true ->
  span_until p (a ++ b) = (a, b).
Proof.
  intros Ha Hb. induction a as [|d a IH]; simpl.
  - destruct b as [|c b]; [reflexivity|]. simpl. rewrite Hb. reflexivity.
  - simpl in Ha. apply andb_prop in Ha. destruct Ha as [Hd Ha].
    apply negb_true_iff in Hd. rewrite Hd, (IH Ha). reflexivity.
Qed.

Lemma unquote_skip (a b : string) :
  contains "%" a = false -> unquote (a ++ b) = a ++ unquote b.
Proof.
  induction a as [|d a IH]; intros H; [reflexivity|].
  simpl in H. apply orb_false_iff in H. destruct H as [Hd Ha].
  change (String d a ++ b) with (String d (a ++ b)).
  cbn [unquote]. rewrite Ascii.eqb_sym, Hd, (IH Ha). reflexivity.
Qed.

Lemma unquote_plain (s : string) : contains "%" s = false -> unquote s = s.
Proof.
  intros H. rewrite <- (append_empty_r s) at 1.
  rewrite unquote_skip by exact H. apply append_empty_r.
Qed.

Lemma remove_char_absent c (s : string) : contains c s = false -> remove_char c s = s.
Proof.
  induction s as [|d s IH]; simpl; [reflexivity|]. intros H.
  apply orb_false_iff in H. destruct H as [Hd Hs].
  rewrite Ascii.eqb_sym, Hd, (IH Hs). reflexivity.
Qed.

Lemma map_chars_id f (s : string) :
  forallb_chars (fun c => Ascii.eqb (f c) c) s = true -> map_chars f s = s.
Proof.
  induction s as [|c s IH]; simpl; [reflexivity|]. intros H.
  apply andb_prop in H. destruct H as [Hc Hs].
  apply Ascii.eqb_eq in Hc. rewrite Hc, (IH Hs). reflexivity.
Qed.

(** [quote_plus] of one character, undone by [unquote] up to the plus
    sign that stands for a space. *)
Lemma unquote_quote_plus_char (c : ascii) (t : string) :
  unquote (quote_plus_char c ++ t)
  = String (if Ascii.eqb c " " then "+"%char else c) (unquote t).
Proof. destruct c as [[] [] [] [] [] [] [] []]; reflexivity. Qed.

Lemma unquote_quote_plus (s t : string) :
  unquote (quote_plus s ++ t) = despace s ++ unquote t.
Proof.
  induction s as [|c s IH]; [reflexivity|].
  simpl quote_plus. rewrite append_assoc, unquote_quote_plus_char, IH. reflexivity.
Qed.

Lemma plain_url_parts (r : ParseResult) : plain_url r = true -> plain_parts r.
Proof.
  unfold plain_url. intros H.
  repeat (apply andb_prop in H; destruct H as [H ?]).
  constructor; try assumption.
  destruct (UrlLib.params r); [reflexivity|discriminate].
Qed.

Lemma geturl_rendered (r : ParseResult) (q : string) :
  plain_parts r -> geturl (with_query r q) = rendered r q.
Proof.
  intros [Hs Hn _ Hp _ Hpar _ _]. unfold geturl, rendered, with_query. simpl.
  rewrite Hpar, Hn. simpl.
  assert (Hpath : nonempty (path r) && negb (startswith (path r) "/") = false).
  { destruct (nonempty (path r)); simpl in *; [rewrite Hp|]; reflexivity. }
  rewrite Hpath.
  assert (Hsch : nonempty (scheme r) = true) by (destruct (scheme r); [discriminate|reflexivity]).
  rewrite Hsch. unfold query_part, fragment_part.
  destruct (nonempty q); destruct (nonempty (fragment r));
    rewrite ?append_assoc, ?append_empty_r; simpl; rewrite ?append_assoc; reflexivity.
Qed.

Lemma with_query_same (r : ParseResult) : with_query r (query r) = r.
Proof. destruct r; reflexivity. Qed.

(** Facts on character classes, checked on every character. *)
Ltac by_chars c :=
  destruct c as [[] [] [] [] [] [] [] []]; vm_compute; intros; congruence.

Lemma plain_char_printable c : plain_char c = true -> printable c = true.
Proof. by_chars c. Qed.

Lemma plain_scheme_char_printable c : plain_scheme_char c = true -> printable c = true.
Proof. by_chars c. Qed.

Lemma plain_scheme_char_scheme c : plain_scheme_char c = true -> scheme_char c = true.
Proof. by_chars c. Qed.

Lemma plain_scheme_char_lower c :
  plain_scheme_char c = true -> Ascii.eqb (lower_char c) c = true.
Proof. by_chars c. Qed.

Lemma is_lower_plain_scheme_char c : is_lower c = true -> plain_scheme_char c = true.
Proof. by_chars c. Qed.

Lemma is_lower_alpha c : is_lower c = true -> is_alpha c = true.
Proof. by_chars c. Qed.

Lemma is_lower_not_blank c : is_lower c = true -> Nat.leb (code c) 32 = false.
Proof. by_chars c. Qed.

Lemma plain_netloc_char_plain c : plain_netloc_char c = true -> plain_char c = true.
Proof. by_chars c. Qed.

Lemma plain_netloc_char_inside c : plain_netloc_char c = true -> negb (netloc_end c) = true.
Proof. by_chars c. Qed.

Lemma plain_path_char_plain c : plain_path_char c = true -> plain_char c = true.
Proof. by_chars c. Qed.

Lemma plain_query_char_plain c : plain_query_char c = true -> plain_char c = true.
Proof. by_chars c. Qed.

Lemma plain_query_char_ok c : plain_query_char c = true -> query_ok c = true.
Proof. by_chars c. Qed.

Lemma query_ok_printable c : query_ok c = true -> printable c = true.
Proof. by_chars c. Qed.

Lemma plain_scheme_chars (s : string) :
  plain_scheme s = true -> forallb_chars plain_scheme_char s = true.
Proof.
  destruct s as [|c s]; [discriminate|]. simpl. intros H.
  apply andb_prop in H. destruct H as [Hc Hs].
  rewrite (is_lower_plain_scheme_char c Hc), Hs. reflexivity.
Qed.

Lemma printable_query_part (q : string) :
  forallb_chars printable q = true -> forallb_chars printable (query_part q) = true.
Proof. unfold query_part. destruct (nonempty q); simpl; auto. Qed.

Lemma printable_fragment_part (f : string) :
  forallb_chars printable f = true -> forallb_chars printable (fragment_part f) = true.
Proof. unfold fragment_part. destruct (nonempty f); simpl; auto. Qed.

Lemma printable_rendered (r : ParseResult) (q : string) :
  plain_parts r -> forallb_chars query_ok q = true ->
  forallb_chars printable (rendered r q) = true.
Proof.
  intros [Hs _ Hn _ Hp _ _ Hf] Hq. unfold rendered.
  rewrite !forallb_chars_append.
  rewrite (forallb_chars_impl _ _ _ plain_scheme_char_printable (plain_scheme_chars _ Hs)).
  rewrite (forallb_chars_impl _ printable _
             (fun c H => plain_char_printable c (plain_netloc_char_plain c H)) Hn).
  rewrite (forallb_chars_impl _ printable _
             (fun c H => plain_char_printable c (plain_path_char_plain c H)) Hp).
  rewrite (printable_query_part q (forallb_chars_impl _ _ _ query_ok_printable Hq)).
  rewrite (printable_fragment_part _ (forallb_chars_impl _ _ _ plain_char_printable Hf)).
  reflexivity.
Qed.

Lemma sanitize_printable (c : ascii) (s : string) :
  is_lower c = true -> forallb_chars printable (String c s) = true ->
  sanitize (String c s) = String c s.
Proof.
  intros Hc Hs. unfold sanitize.
  cbn [lstrip_by]. rewrite (is_lower_not_blank c Hc).
  rewrite (remove_char_absent "009"), (remove_char_absent "013"), (remove_char_absent "010");
    try reflexivity;
    apply (forallb_chars_excludes _ _ _ Hs); reflexivity.
Qed.

Lemma split_scheme_plain (sch rest : string) :
  plain_scheme sch = true -> split_scheme (sch ++ String ":" rest) = (sch, rest).
Proof.
  intros Hs. unfold split_scheme.
  rewrite split_once_first
    by (apply (forallb_chars_excludes _ _ _ (plain_scheme_chars _ Hs)); reflexivity).
  destruct sch as [|c s]; [discriminate|].
  simpl in Hs. apply andb_prop in Hs. destruct Hs as [Hc Hs].
  rewrite (is_lower_alpha c Hc).
  rewrite (forallb_chars_impl _ _ _ plain_scheme_char_scheme Hs). simpl.
  unfold lower. simpl.
  rewrite (proj1 (Ascii.eqb_eq _ _)
             (plain_scheme_char_lower c (is_lower_plain_scheme_char c Hc))).
  rewrite (map_chars_id lower_char s); [reflexivity|].
  apply (forallb_chars_impl _ _ _ plain_scheme_char_lower Hs).
Qed.

Lemma netloc_stops (r : ParseResult) (q : string) :
  plain_parts r ->
  match path r ++ query_part q ++ fragment_part (fragment r) with
  | EmptyString => true
  | String c _ => netloc_end c
  end = true.
Proof.
  intros [_ _ _ Hp _ _ _ _].
  destruct (path r) as [|c p]; simpl in *.
  - unfold query_part, fragment_part.
    destruct (nonempty q); [reflexivity|].
    destruct (nonempty (fragment r)); reflexivity.
  - destruct (Ascii.eqb "/" c) eqn:E; [|discriminate].
    apply Ascii.eqb_eq in E. subst c. reflexivity.
Qed.

(** [urlparse] reads a plain URL back into its parts. *)
Lemma urlparse_rendered (r : ParseResult) (q : string) :
  plain_parts r -> forallb_chars query_ok q = true ->
  urlparse (rendered r q) = Some (with_query r q).
Proof.
  intros Hr Hq. pose proof Hr as [Hs Hne Hn Hroot Hp Hpar _ Hf].
  unfold urlparse.
  assert (Hsan : sanitize (rendered r q) = rendered r q).
  { pose proof (printable_rendered r q Hr Hq) as Hpr. unfold rendered in *.
    destruct (scheme r) as [|c s]; [discriminate|].
    simpl in Hs. apply andb_prop in Hs. destruct Hs as [Hc _].
    apply (sanitize_printable c _ Hc Hpr). }
  rewrite Hsan. unfold rendered at 1.
  change (scheme r ++ ":" ++ "//" ++ netloc r ++ path r ++ query_part q
          ++ fragment_part (fragment r))
    with (scheme r ++ String ":" ("//" ++ netloc r ++ path r ++ query_part q
          ++ fragment_part (fragment r))).
  rewrite (split_scheme_plain _ _ Hs). cbv beta iota zeta.
  set (tail := path r ++ query_part q ++ fragment_part (fragment r)).
  change ("//" ++ netloc r ++ tail) with (String "/" (String "/" (netloc r ++ tail))).
  cbn [startswith]. rewrite Ascii.eqb_refl. cbn [andb].
  rewrite (span_until_stop netloc_end (netloc r) tail
             (forallb_chars_impl _ _ _ plain_netloc_char_inside Hn) (netloc_stops r q Hr)).
  assert (Hbr : bad_brackets (netloc r) = false).
  { unfold bad_brackets.
    rewrite (forallb_chars_excludes _ _ "[" Hn), (forallb_chars_excludes _ _ "]" Hn);
      reflexivity. }
  rewrite Hbr.
  assert (Hbody : contains "#" (path r ++ query_part q) = false).
  { rewrite contains_append, (forallb_chars_excludes _ _ "#" Hp) by reflexivity.
    unfold query_part. destruct (nonempty q); [|reflexivity]. simpl.
    apply (forallb_chars_excludes _ _ "#" Hq). reflexivity. }
  assert (Hfrag : match split_once "#" tail with
                  | Some (u, f) => (u, f)
                  | None => (tail, "")
                  end = (path r ++ query_part q, fragment r)).
  { unfold tail, fragment_part. rewrite <- append_assoc.
    destruct (fragment r) as [|c f] eqn:Ef; simpl nonempty; cbv iota.
    - rewrite append_empty_r, (split_once_absent _ _ Hbody). reflexivity.
    - change ("#" ++ String c f) with (String "#" (String c f)).
      rewrite (split_once_first _ _ _ Hbody). reflexivity. }
  rewrite Hfrag.
  assert (Hqry : match split_once "?" (path r ++ query_part q) with
                 | Some (u, q0) => (u, q0)
                 | None => (path r ++ query_part q, "")
                 end = (path r, q)).
  { pose proof (forallb_chars_excludes _ _ "?" Hp eq_refl) as Hpq.
    unfold query_part. destruct q as [|c q']; simpl nonempty; cbv iota.
    - rewrite append_empty_r, (split_once_absent _ _ Hpq). reflexivity.
    - change ("?" ++ String c q') with (String "?" (String c q')).
      rewrite (split_once_first _ _ _ Hpq). reflexivity. }
  rewrite Hqry.
  rewrite (forallb_chars_excludes _ _ ";" Hp eq_refl), andb_false_r.
  unfold with_query. rewrite Hpar. reflexivity.
Qed.

Lemma doseq_fields_texts (kv : string * value) :
  doseq_fields kv = map (field (fst kv)) (texts (snd kv)).
Proof.
  unfold doseq_fields, texts. destruct (snd kv) as [a|l|items]; [reflexivity| |];
    rewrite map_map; reflexivity.
Qed.

Lemma urlencode_doseq_pairs (d : Dict.t value) : urlencode_doseq d = encoded (pairs d).
Proof.
  unfold urlencode_doseq, encoded, pairs. f_equal.
  induction d as [|kv d IH]; [reflexivity|].
  simpl. rewrite map_app, <- IH, doseq_fields_texts, map_map. reflexivity.
Qed.

Lemma unquote_field (k t rest : string) :
  unquote (field k t ++ rest) = decoded_field (k, t) ++ unquote rest.
Proof.
  unfold field, decoded_field. simpl fst. simpl snd.
  rewrite !append_assoc, unquote_quote_plus.
  rewrite (unquote_skip "=") by reflexivity.
  rewrite unquote_quote_plus. reflexivity.
Qed.

Lemma unquote_encoded (p : list (string * string)) (rest : string) :
  unquote (encoded p ++ rest) = decoded p ++ unquote rest.
Proof.
  unfold encoded, decoded.
  induction p as [|[k t] p IH]; [reflexivity|].
  destruct p as [|kt p].
  - simpl. apply unquote_field.
  - cbn [map] in *. rewrite !join_cons, !append_assoc, unquote_field.
    rewrite (unquote_skip "&") by reflexivity.
    rewrite IH. reflexivity.
Qed.

Lemma nonempty_append_r (a b : string) : nonempty b = true -> nonempty (a ++ b) = true.
Proof. destruct a; simpl; auto. Qed.

Lemma nonempty_append_l (a b : string) : nonempty a = true -> nonempty (a ++ b) = true.
Proof. destruct a; [discriminate|reflexivity]. Qed.

Lemma nonempty_join (x : string) (l : list string) :
  nonempty x = true -> nonempty (join "&" (x :: l)) = true.
Proof. intros Hx. destruct l; simpl; [exact Hx|apply nonempty_append_l, Hx]. Qed.

Lemma nonempty_encoded (p : list (string * string)) :
  nonempty (encoded p) = nonempty (decoded p).
Proof.
  destruct p as [|[k t] p]; [reflexivity|].
  unfold encoded, decoded. cbn [map].
  rewrite !nonempty_join; [reflexivity| |].
  - unfold decoded_field. apply nonempty_append_r. reflexivity.
  - unfold field. apply nonempty_append_r. reflexivity.
Qed.

Lemma forallb_chars_map p f (s : string) :
  forallb_chars p (map_chars f s) = forallb_chars (fun c => p (f c)) s.
Proof. induction s; simpl; congruence. Qed.

Lemma map_chars_map f g (s : string) :
  map_chars g (map_chars f s) = map_chars (fun c => g (f c)) s.
Proof. induction s; simpl; congruence. Qed.

Lemma nonempty_map_chars f (s : string) : nonempty (map_chars f s) = nonempty s.
Proof. destruct s; reflexivity. Qed.

Lemma plain_key_char_text c : plain_key_char c = true -> plain_text_char c = true.
Proof. by_chars c. Qed.

Lemma plain_key_char_no_equals c :
  plain_key_char c = true -> negb (Ascii.eqb (despace_char c) "=") = true.
Proof. by_chars c. Qed.

Lemma plain_text_char_no_amp c :
  plain_text_char c = true -> negb (Ascii.eqb (despace_char c) "&") = true.
Proof. by_chars c. Qed.

Lemma plain_text_char_respace c :
  plain_text_char c = true -> Ascii.eqb (respace_char (despace_char c)) c = true.
Proof. by_chars c. Qed.

Lemma plain_text_char_no_percent c :
  plain_text_char c = true -> negb (Ascii.eqb c "%") = true.
Proof. by_chars c. Qed.

Lemma plain_text_char_query_ok c :
  plain_text_char c = true -> query_ok (despace_char c) = true.
Proof. by_chars c. Qed.

Lemma quote_plus_char_query_ok c : forallb_chars query_ok (quote_plus_char c) = true.
Proof. destruct c as [[] [] [] [] [] [] [] []]; reflexivity. Qed.

Lemma quote_plus_query_ok (s : string) : forallb_chars query_ok (quote_plus s) = true.
Proof.
  induction s as [|c s IH]; [reflexivity|]. simpl.
  rewrite forallb_chars_append, quote_plus_char_query_ok, IH. reflexivity.
Qed.

Lemma excluded_by (c : ascii) (s : string) :
  forallb_chars (fun d => negb (Ascii.eqb d c)) s = true -> contains c s = false.
Proof.
  intros H. apply (forallb_chars_excludes _ _ _ H).
  rewrite Ascii.eqb_refl. reflexivity.
Qed.

Lemma despace_plain_text (t : string) :
  forallb_chars plain_text_char t = true ->
  contains "&" (despace t) = false
  /\ unquote (plus_to_space (despace t)) = t
  /\ forallb_chars query_ok (despace t) = true.
Proof.
  intros Ht. unfold despace, plus_to_space, replace_char. split; [|split].
  - apply excluded_by. rewrite forallb_chars_map.
    exact (forallb_chars_impl _ _ _ plain_text_char_no_amp Ht).
  - rewrite map_chars_map.
    change (unquote (map_chars (fun c => respace_char (despace_char c)) t) = t).
    rewrite (map_chars_id _ t (forallb_chars_impl _ _ _ plain_text_char_respace Ht)).
    apply unquote_plain, excluded_by.
    exact (forallb_chars_impl _ _ _ plain_text_char_no_percent Ht).
  - rewrite forallb_chars_map.
    exact (forallb_chars_impl _ _ _ plain_text_char_query_ok Ht).
Qed.

Lemma despace_plain_key (k : string) :
  forallb_chars plain_key_char k = true -> contains "=" (despace k) = false.
Proof.
  intros Hk. unfold despace, replace_char. apply excluded_by.
  rewrite forallb_chars_map. exact (forallb_chars_impl _ _ _ plain_key_char_no_equals Hk).
Qed.

Lemma parse_field_decoded (kt : string * string) :
  plain_pair kt = true -> parse_field (decoded_field kt) = [kt].
Proof.
  destruct kt as [k t]. unfold plain_pair, plain_text. simpl. intros H.
  apply andb_prop in H. destruct H as [Hk Ht].
  apply andb_prop in Ht. destruct Ht as [Hne Ht].
  pose proof (forallb_chars_impl _ _ _ plain_key_char_text Hk) as Hk'.
  destruct (despace_plain_text k Hk') as (_ & Hku & _).
  destruct (despace_plain_text t Ht) as (_ & Htu & _).
  unfold parse_field, decoded_field. simpl fst. simpl snd.
  rewrite nonempty_append_r by reflexivity.
  change ("=" ++ despace t) with (String "=" (despace t)).
  rewrite (split_once_first _ _ _ (despace_plain_key k Hk)).
  unfold despace at 1, replace_char. rewrite nonempty_map_chars, Hne.
  fold (replace_char " " "+"). fold despace. rewrite Hku, Htu. reflexivity.
Qed.

Lemma decoded_field_no_amp (kt : string * string) :
  plain_pair kt = true -> contains "&" (decoded_field kt) = false.
Proof.
  destruct kt as [k t]. unfold plain_pair, plain_text. simpl. intros H.
  apply andb_prop in H. destruct H as [Hk Ht].
  apply andb_prop in Ht. destruct Ht as [_ Ht].
  pose proof (forallb_chars_impl _ _ _ plain_key_char_text Hk) as Hk'.
  destruct (despace_plain_text k Hk') as (Hka & _ & _).
  destruct (despace_plain_text t Ht) as (Hta & _ & _).
  unfold decoded_field. simpl fst. simpl snd.
  rewrite !contains_append, Hka, Hta. reflexivity.
Qed.

(** [parse_qsl] reads the unquoted query string back into the pairs. *)
Lemma parse_qsl_decoded (p : list (string * string)) :
  forallb plain_pair p = true -> parse_qsl (decoded p) = p.
Proof.
  intros Hp. unfold parse_qsl, decoded.
  destruct p as [|kt p]; [reflexivity|].
  rewrite split_join.
  - rewrite forallb_forall in Hp. clear - Hp.
    induction (kt :: p) as [|x l IH]; [reflexivity|].
    cbn [map flat_map]. rewrite parse_field_decoded by (apply Hp; left; reflexivity).
    simpl. f_equal. apply IH. intros y Hy. apply Hp. right. exact Hy.
  - discriminate.
  - intros f Hf. apply in_map_iff in Hf. destruct Hf as [x [<- Hx]].
    apply decoded_field_no_amp. rewrite forallb_forall in Hp. apply Hp, Hx.
Qed.

Lemma query_ok_join (fs : list string) :
  (forall f, In f fs -> forallb_chars query_ok f = true) ->
  forallb_chars query_ok (join "&" fs) = true.
Proof.
  induction fs as [|x fs IH]; intros H; [reflexivity|].
  destruct fs as [|y fs].
  - simpl. apply H. left. reflexivity.
  - rewrite join_cons, !forallb_chars_append, (H x (or_introl eq_refl)).
    rewrite IH by (intros f Hf; apply H; right; exact Hf). reflexivity.
Qed.

Lemma query_ok_encoded (p : list (string * string)) :
  forallb_chars query_ok (encoded p) = true.
Proof.
  apply query_ok_join. intros f Hf. apply in_map_iff in Hf.
  destruct Hf as [[k t] [<- _]]. unfold field. simpl fst. simpl snd.
  rewrite forallb_chars_append, quote_plus_query_ok.
  change ("=" ++ quote_plus t) with (String "=" (quote_plus t)).
  cbn [forallb_chars]. rewrite quote_plus_query_ok. reflexivity.
Qed.

Lemma query_ok_decoded (p : list (string * string)) :
  forallb plain_pair p = true -> forallb_chars query_ok (decoded p) = true.
Proof.
  intros Hp. apply query_ok_join. intros f Hf. apply in_map_iff in Hf.
  destruct Hf as [[k t] [<- Hkt]]. rewrite forallb_forall in Hp.
  pose proof (Hp _ Hkt) as H. unfold plain_pair, plain_text in H. simpl in H.
  apply andb_prop in H. destruct H as [Hk Ht].
  apply andb_prop in Ht. destruct Ht as [_ Ht].
  pose proof (forallb_chars_impl _ _ _ plain_key_char_text Hk) as Hk'.
  destruct (despace_plain_text k Hk') as (_ & _ & Hkq).
  destruct (despace_plain_text t Ht) as (_ & _ & Htq).
  unfold decoded_field. simpl fst. simpl snd.
  rewrite forallb_chars_append, Hkq.
  change ("=" ++ despace t) with (String "=" (despace t)).
  cbn [forallb_chars]. rewrite Htq. reflexivity.
Qed.

(** ** Query strings read by [parse_qsl] *)

Lemma split_fields c p (s : string) :
  forallb_chars p s = true ->
  forall f, In f (split c s) -> forallb_chars p f = true /\ contains c f = false.
Proof.
  induction s as [|d s IH]; simpl; intros Hs f Hf.
  - destruct Hf as [<-|[]]. split; reflexivity.
  - apply andb_prop in Hs. destruct Hs as [Hd Hs].
    destruct (Ascii.eqb c d) eqn:E.
    + destruct Hf as [<-|Hf]; [split; reflexivity|exact (IH Hs f Hf)].
    + destruct (split c s) as [|g gs] eqn:Eg.
      * destruct Hf as [<-|[]]. simpl. rewrite Hd, E. split; reflexivity.
      * destruct Hf as [<-|Hf].
        -- destruct (IH Hs g (or_introl eq_refl)) as [Hg Hc].
           simpl. rewrite Hd, Hg, E, Hc. split; reflexivity.
        -- apply (IH Hs). right. exact Hf.
Qed.

Lemma split_once_parts c (s a b : string) :
  split_once c s = Some (a, b) -> s = a ++ String c b /\ contains c a = false.
Proof.
  revert a. induction s as [|d s IH]; simpl; intros a H; [discriminate|].
  destruct (Ascii.eqb c d) eqn:E.
  - apply Ascii.eqb_eq in E. subst d. injection H as <- <-. split; reflexivity.
  - destruct (split_once c s) as [[a' b']|]; [|discriminate].
    injection H as <- <-. destruct (IH a' eq_refl) as [-> Ha].
    simpl. rewrite E, Ha. split; reflexivity.
Qed.

Lemma forallb_chars_and p q (s : string) :
  forallb_chars (fun c => p c && q c) s = forallb_chars p s && forallb_chars q s.
Proof.
  induction s as [|c s IH]; simpl; [reflexivity|]. rewrite IH.
  destruct (p c), (q c), (forallb_chars p s), (forallb_chars q s); reflexivity.
Qed.

Lemma not_contained c (s : string) :
  contains c s = false -> forallb_chars (fun d => negb (Ascii.eqb d c)) s = true.
Proof.
  induction s as [|d s IH]; simpl; [reflexivity|]. intros H.
  apply orb_false_iff in H. destruct H as [Hd Hs].
  rewrite Ascii.eqb_sym, Hd, (IH Hs). reflexivity.
Qed.

Lemma query_char_key c :
  plain_query_char c && (negb (Ascii.eqb c "&") && negb (Ascii.eqb c "=")) = true ->
  plain_key_char (respace_char c) = true.
Proof. by_chars c. Qed.

Lemma query_char_text c :
  plain_query_char c && negb (Ascii.eqb c "&") = true ->
  plain_text_char (respace_char c) = true.
Proof. by_chars c. Qed.

Lemma plain_key_char_no_percent c :
  plain_key_char c = true -> negb (Ascii.eqb c "%") = true.
Proof. by_chars c. Qed.

Lemma parse_field_plain (f : string) :
  forallb_chars plain_query_char f = true -> contains "&" f = false ->
  forallb plain_pair (parse_field f) = true.
Proof.
  intros Hf Hamp. unfold parse_field.
  destruct (nonempty f); [|reflexivity].
  destruct (split_once "=" f) as [[n v]|] eqn:E; [|reflexivity].
  destruct (nonempty v) eqn:Hv; [|reflexivity].
  destruct (split_once_parts _ _ _ _ E) as [-> Hn].
  rewrite forallb_chars_append in Hf. apply andb_prop in Hf. destruct Hf as [Hfn Hfv].
  simpl in Hfv.
  rewrite contains_append in Hamp. apply orb_false_iff in Hamp. destruct Hamp as [Han Hav].
  simpl in Hav.
  assert (Hk : forallb_chars plain_key_char (plus_to_space n) = true).
  { unfold plus_to_space, replace_char. rewrite forallb_chars_map.
    apply (forallb_chars_impl _ _ _ query_char_key).
    rewrite !forallb_chars_and, Hfn, (not_contained _ _ Han), (not_contained _ _ Hn).
    reflexivity. }
  assert (Ht : forallb_chars plain_text_char (plus_to_space v) = true).
  { unfold plus_to_space, replace_char. rewrite forallb_chars_map.
    apply (forallb_chars_impl _ _ _ query_char_text).
    rewrite forallb_chars_and, Hfv, (not_contained _ _ Hav). reflexivity. }
  rewrite (unquote_plain (plus_to_space n)), (unquote_plain (plus_to_space v)).
  - simpl. unfold plain_pair, plain_text. simpl.
    rewrite Hk, Ht. unfold plus_to_space, replace_char.
    rewrite nonempty_map_chars, Hv. reflexivity.
  - apply excluded_by, (forallb_chars_impl _ _ _ plain_text_char_no_percent Ht).
  - apply excluded_by, (forallb_chars_impl _ _ _ plain_key_char_no_percent Hk).
Qed.

(** The pairs of a plain query string are plain. *)
Lemma parse_qsl_plain (q : string) :
  forallb_chars plain_query_char q = true -> forallb plain_pair (parse_qsl q) = true.
Proof.
  intros Hq. unfold parse_qsl. apply forallb_forall. intros kt Hkt.
  apply in_flat_map in Hkt. destruct Hkt as [f [Hf Hkt]].
  destruct (split_fields "&" _ q Hq f Hf) as [Hpf Hamp].
  pose proof (parse_field_plain f Hpf Hamp) as H.
  rewrite forallb_forall in H. exact (H kt Hkt).
Qed.

(** ** Dictionaries built from pairs *)

Section DictUpdates.
Context {V : Type}.
Implicit Types (d : Dict.t V) (k : string) (v : V).

Lemma In_set d k v k0 v0 :
  In (k, v) (Dict.set d k0 v0) -> In (k, v) d \/ (k, v) = (k0, v0).
Proof.
  induction d as [|[k1 v1] d IH]; simpl.
  - intros [H|[]]. right. congruence.
  - destruct (String.eqb k1 k0) eqn:E; simpl.
    + apply String.eqb_eq in E. subst k1. intros [H|H]; [right; congruence|tauto].
    + intros [H|H]; [tauto|]. destruct (IH H); tauto.
Qed.

Lemma In_update d (items : list (string * V)) k v :
  In (k, v) (Dict.update d items) -> In (k, v) d \/ In (k, v) items.
Proof.
  unfold Dict.update. revert d.
  induction items as [|[k0 v0] items IH]; intros d; simpl; [tauto|].
  intros H. destruct (IH _ H) as [H'|H']; [|tauto].
  destruct (In_set _ _ _ _ _ H') as [H''|H'']; [tauto|].
  right. left. congruence.
Qed.

Lemma update_app d (a b : list (string * V)) :
  Dict.update d (a ++ b) = Dict.update (Dict.update d a) b.
Proof. unfold Dict.update. apply fold_left_app. Qed.

Lemma get_update_other d (items : list (string * V)) k :
  ~ In k (Dict.keys items) -> Dict.get (Dict.update d items) k = Dict.get d k.
Proof.
  unfold Dict.update. revert d.
  induction items as [|[k0 v0] items IH]; intros d Hk; simpl; [reflexivity|].
  rewrite IH by (intros H; apply Hk; right; exact H).
  rewrite get_set. destruct (String.eqb k0 k) eqn:E; [|reflexivity].
  apply String.eqb_eq in E. subst k0. exfalso. apply Hk. left. reflexivity.
Qed.

Lemma keys_update_grows d (items : list (string * V)) k :
  In k (Dict.keys d) \/ In k (Dict.keys items) -> In k (Dict.keys (Dict.update d items)).
Proof.
  unfold Dict.update. revert d.
  induction items as [|[k0 v0] items IH]; intros d; simpl; [tauto|].
  intros H. apply IH. rewrite keys_set.
  destruct (mem k0 (Dict.keys d)) eqn:E.
  - apply mem_In in E. destruct H as [H|[<-|H]]; tauto.
  - rewrite in_app_iff. simpl. tauto.
Qed.

End DictUpdates.

Lemma keys_pairs (d : Dict.t value) k :
  In k (Dict.keys (map as_value (pairs d))) -> In k (Dict.keys d).
Proof.
  unfold Dict.keys, pairs. rewrite map_map. simpl. intros H.
  apply in_map_iff in H. destruct H as [[k' t] [<- H]].
  apply in_flat_map in H. destruct H as [[k0 v0] [Hd H]].
  apply in_map_iff in H. destruct H as [t' [[= <- <-] _]].
  apply in_map_iff. exists (k0, v0). split; [reflexivity|exact Hd].
Qed.

Lemma pairs_cons kv (d : Dict.t value) :
  pairs (kv :: d) = (map (fun t => (fst kv, t)) (texts (snd kv)) ++ pairs d)%list.
Proof. reflexivity. Qed.

Lemma keys_block k (ts : list string) k' :
  In k' (Dict.keys (map as_value (map (fun t => (k, t)) ts))) -> k' = k.
Proof.
  unfold Dict.keys. rewrite !map_map. simpl. intros H.
  apply in_map_iff in H. destruct H as [t [<- _]]. reflexivity.
Qed.

Lemma get_update_pairs_none (d0 d : Dict.t value) k :
  Dict.get d k = None -> Dict.get (Dict.update d0 (map as_value (pairs d))) k = Dict.get d0 k.
Proof.
  intros H. apply get_update_other. intros Hin.
  apply keys_pairs in Hin. apply get_None in H. exact (H Hin).
Qed.

Lemma get_update_pairs_str (d0 d : Dict.t value) k s :
  NoDup (Dict.keys d) -> Dict.get d k = Some (VAtom (AStr s)) ->
  Dict.get (Dict.update d0 (map as_value (pairs d))) k = Some (VAtom (AStr s)).
Proof.
  revert d0. induction d as [|[k0 v0] d IH]; intros d0 Hnd Hg; [discriminate|].
  inversion Hnd as [|? ? Hk0 Hd]; subst.
  rewrite pairs_cons, map_app, update_app. simpl fst. simpl snd.
  simpl in Hg. destruct (String.eqb k0 k) eqn:E.
  - apply String.eqb_eq in E. subst k0. injection Hg as ->.
    rewrite get_update_pairs_none by (apply get_None; exact Hk0).
    simpl. unfold Dict.update. simpl. rewrite get_set, String.eqb_refl. reflexivity.
  - apply IH; assumption.
Qed.

Lemma keys_update_pairs (d0 d : Dict.t value) :
  NoDup (Dict.keys d) ->
  (forall kv, In kv d -> texts (snd kv) <> []) ->
  (forall k, In k (Dict.keys d) -> ~ In k (Dict.keys d0)) ->
  Dict.keys (Dict.update d0 (map as_value (pairs d))) = (Dict.keys d0 ++ Dict.keys d)%list.
Proof.
  revert d0. induction d as [|[k0 v0] d IH]; intros d0 Hnd Htexts Hnew.
  - simpl. rewrite app_nil_r. reflexivity.
  - inversion Hnd as [|? ? Hk0 Hd]; subst.
    rewrite pairs_cons, map_app, update_app. simpl fst. simpl snd.
    assert (Hblock : Dict.keys (Dict.update d0
                        (map as_value (map (fun t => (k0, t)) (texts v0))))
                     = (Dict.keys d0 ++ [k0])%list).
    { destruct (texts v0) as [|t ts] eqn:Et.
      - exfalso. apply (Htexts (k0, v0)); [left; reflexivity|exact Et].
      - cbn [map]. change (as_value (k0, t) :: ?l) with ([as_value (k0, t)] ++ l)%list.
        rewrite update_app.
        assert (H1 : Dict.keys (Dict.update d0 [as_value (k0, t)])
                     = (Dict.keys d0 ++ [k0])%list).
        { unfold Dict.update. simpl. rewrite keys_set.
          replace (mem k0 (Dict.keys d0)) with false; [reflexivity|].
          symmetry. apply mem_false. apply Hnew. left. reflexivity. }
        rewrite keys_update_known; [exact H1|].
        intros k Hk. apply keys_block in Hk. subst k. rewrite H1.
        apply in_or_app. right. left. reflexivity. }
    rewrite IH.
    + rewrite Hblock, <- app_assoc. reflexivity.
    + exact Hd.
    + intros kv Hkv. apply Htexts. right. exact Hkv.
    + intros k Hk. rewrite Hblock, in_app_iff. intros [H|[<-|[]]].
      * apply (Hnew k); [right; exact Hk|exact H].
      * exact (Hk0 Hk).
Qed.

(** ** Merging twice *)

Section Merge.
Variables (get_args : string) (params : Dict.t value).
Hypothesis plain_get_args : forallb plain_pair (parse_qsl get_args) = true.
Hypothesis params_is_dict : NoDup (Dict.keys params).
Hypothesis params_are_plain : plain_params params = true.

Let parsed := Dict.of_items (map as_value (parse_qsl get_args)).
Let updated := Dict.update parsed params.
Let merged := merged_get_args get_args params.

Lemma merged_unfold : merged = Dict.update updated (json_friendly updated).
Proof. reflexivity. Qed.

Lemma parsed_values k v :
  In (k, v) parsed -> exists s, v = VAtom (AStr s) /\ plain_pair (k, s) = true.
Proof.
  intros H. apply In_update in H. destruct H as [[]|H].
  apply in_map_iff in H. destruct H as [[k' s] [[= <- <-] H]].
  exists s. split; [reflexivity|].
  rewrite forallb_forall in plain_get_args. exact (plain_get_args _ H).
Qed.

Lemma get_updated k :
  Dict.get updated k
  = match Dict.get params k with Some v => Some v | None => Dict.get parsed k end.
Proof. apply get_update, params_is_dict. Qed.

Lemma NoDup_updated : NoDup (Dict.keys updated).
Proof. apply NoDup_keys_update, NoDup_keys_of_items. Qed.

Lemma keys_merged : Dict.keys merged = Dict.keys updated.
Proof. rewrite merged_unfold. apply keys_update_known, keys_json_friendly. Qed.

Lemma NoDup_merged : NoDup (Dict.keys merged).
Proof. rewrite keys_merged. exact NoDup_updated. Qed.

Lemma get_merged k : Dict.get merged k = option_map json_friendly_value (Dict.get updated k).
Proof. rewrite merged_unfold. apply get_update_json_friendly, NoDup_updated. Qed.

Lemma merged_texts k v :
  In (k, v) merged ->
  texts v <> [] /\ forall t, In t (texts v) -> plain_pair (k, t) = true.
Proof.
  intros H. apply (In_get _ _ _ NoDup_merged) in H.
  rewrite get_merged, get_updated in H.
  destruct (Dict.get params k) as [x|] eqn:Ep.
  - injection H as <-. apply get_In in Ep.
    pose proof params_are_plain as Hp. unfold plain_params in Hp.
    rewrite forallb_forall in Hp. specialize (Hp _ Ep). simpl in Hp.
    apply andb_prop in Hp. destruct Hp as [Hk Hv]. unfold plain_value in Hv.
    destruct (texts (json_friendly_value x)) as [|t ts]; [discriminate|].
    split; [discriminate|]. intros t' Ht'. rewrite forallb_forall in Hv.
    unfold plain_pair. simpl. rewrite Hk. exact (Hv t' Ht').
  - destruct (Dict.get parsed k) as [x|] eqn:Eg; [|discriminate].
    injection H as <-. apply get_In in Eg.
    destruct (parsed_values _ _ Eg) as [s [-> Hs]].
    split; [discriminate|]. intros t [<-|[]]. exact Hs.
Qed.

Lemma plain_pairs_merged : forallb plain_pair (pairs merged) = true.
Proof.
  apply forallb_forall. intros [k t] H. unfold pairs in H.
  apply in_flat_map in H. destruct H as [[k0 v0] [Hd H]].
  apply in_map_iff in H. destruct H as [t' [[= <- <-] Ht]].
  exact (proj2 (merged_texts _ _ Hd) _ Ht).
Qed.

(** Read back from the query string it was written to, and updated
    with the same parameters, the dictionary is what it was before its
    booleans and mappings were turned into text. *)
Lemma updated_again :
  Dict.update (Dict.of_items (map as_value (pairs merged))) params = updated.
Proof.
  assert (Hkeys : Dict.keys (Dict.of_items (map as_value (pairs merged)))
                  = Dict.keys updated).
  { unfold Dict.of_items. rewrite keys_update_pairs.
    - exact keys_merged.
    - exact NoDup_merged.
    - intros [k v] H. exact (proj1 (merged_texts _ _ H)).
    - intros k _ []. }
  apply dict_ext.
  - rewrite keys_update_known; [exact Hkeys|].
    intros k Hk. rewrite Hkeys. apply keys_update_grows. right. exact Hk.
  - apply NoDup_keys_update, NoDup_keys_of_items.
  - intros k. rewrite get_update, get_updated by exact params_is_dict.
    destruct (Dict.get params k) as [x|] eqn:Ep; [reflexivity|].
    pose proof (get_merged k) as Hm. rewrite get_updated, Ep in Hm.
    unfold Dict.of_items.
    destruct (Dict.get parsed k) as [x|] eqn:Eg.
    + destruct (parsed_values _ _ (get_In _ _ _ Eg)) as [s [-> _]].
      apply get_update_pairs_str; [exact NoDup_merged|exact Hm].
    + rewrite get_update_pairs_none by exact Hm. reflexivity.
Qed.

Lemma merged_again : merged_get_args (decoded (pairs merged)) params = merged.
Proof.
  unfold merged_get_args at 1.
  rewrite parse_qsl_decoded by exact plain_pairs_merged.
  fold as_value. rewrite updated_again. reflexivity.
Qed.

End Merge.

(** ** Merging into a plain URL *)

Lemma plain_scheme_char_no_percent c :
  plain_scheme_char c = true -> negb (Ascii.eqb c "%") = true.
Proof. by_chars c. Qed.

Lemma plain_char_no_percent c : plain_char c = true -> negb (Ascii.eqb c "%") = true.
Proof. by_chars c. Qed.

Lemma no_percent (p : ascii -> bool) (s : string) :
  (forall c, p c = true -> negb (Ascii.eqb c "%") = true) ->
  forallb_chars p s = true -> contains "%" s = false.
Proof. intros Hp Hs. apply excluded_by, (forallb_chars_impl _ _ _ Hp Hs). Qed.

Lemma unquote_fragment_part (f : string) :
  forallb_chars plain_char f = true -> unquote (fragment_part f) = fragment_part f.
Proof.
  intros Hf. apply unquote_plain. unfold fragment_part.
  destruct (nonempty f); [|reflexivity]. simpl.
  apply (no_percent _ _ plain_char_no_percent Hf).
Qed.

(** [unquote] on a plain URL whose query string [urlencode] wrote
    touches the query string only. *)
Lemma unquote_rendered (r : ParseResult) (p : list (string * string)) :
  plain_parts r -> unquote (rendered r (encoded p)) = rendered r (decoded p).
Proof.
  intros [Hs _ Hn _ Hp _ _ Hf]. unfold rendered.
  rewrite (unquote_skip (scheme r))
    by (apply (no_percent _ _ plain_scheme_char_no_percent), plain_scheme_chars, Hs).
  rewrite (unquote_skip ":"), (unquote_skip "//") by reflexivity.
  rewrite (unquote_skip (netloc r))
    by exact (no_percent _ _ (fun c H => plain_char_no_percent c (plain_netloc_char_plain c H)) Hn).
  rewrite (unquote_skip (path r))
    by exact (no_percent _ _ (fun c H => plain_char_no_percent c (plain_path_char_plain c H)) Hp).
  do 5 f_equal. unfold query_part. rewrite nonempty_encoded.
  destruct (nonempty (decoded p)).
  - rewrite append_assoc, (unquote_skip "?") by reflexivity.
    rewrite unquote_encoded, (unquote_fragment_part _ Hf), append_assoc. reflexivity.
  - apply (unquote_fragment_part _ Hf).
Qed.

Lemma unquote_plain_url (r : ParseResult) : plain_parts r -> unquote (geturl r) = geturl r.
Proof.
  intros Hr. pose proof Hr as [Hs _ Hn _ Hp _ Hq Hf].
  rewrite <- (with_query_same r), (geturl_rendered r (query r) Hr).
  apply unquote_plain. unfold rendered. rewrite !contains_append.
  rewrite (no_percent _ _ plain_scheme_char_no_percent (plain_scheme_chars _ Hs)).
  rewrite (no_percent _ _ (fun c H => plain_char_no_percent c (plain_netloc_char_plain c H)) Hn).
  rewrite (no_percent _ _ (fun c H => plain_char_no_percent c (plain_path_char_plain c H)) Hp).
  unfold query_part, fragment_part.
  pose proof (no_percent _ _ (fun c H => plain_char_no_percent c (plain_query_char_plain c H)) Hq)
    as Hq'.
  pose proof (no_percent _ _ plain_char_no_percent Hf) as Hf'.
  destruct (nonempty (query r)), (nonempty (fragment r)); simpl;
    rewrite ?Hq', ?Hf'; reflexivity.
Qed.

Lemma urlparse_plain_url (r : ParseResult) (q : string) :
  plain_parts r -> forallb_chars query_ok q = true ->
  urlparse (geturl (with_query r q)) = Some (with_query r q).
Proof.
  intros Hr Hq. rewrite (geturl_rendered r q Hr). apply urlparse_rendered; assumption.
Qed.

Lemma get_map_values {A B} (h : A -> B) (d : Dict.t A) k :
  Dict.get (map (fun kv => (fst kv, h (snd kv))) d) k = option_map h (Dict.get d k).
Proof.
  induction d as [|[k0 v0] d IH]; [reflexivity|]. simpl.
  destruct (String.eqb k0 k); [reflexivity|exact IH].
Qed.

Lemma set_map_values {A B} (h : A -> B) (d : Dict.t A) k v :
  Dict.set (map (fun kv => (fst kv, h (snd kv))) d) k (h v)
  = map (fun kv => (fst kv, h (snd kv))) (Dict.set d k v).
Proof.
  induction d as [|[k0 v0] d IH]; [reflexivity|]. simpl.
  destruct (String.eqb k0 k); simpl; [reflexivity|]. rewrite IH. reflexivity.
Qed.

Lemma update_map_values {A B} (h : A -> B) (d : Dict.t A) (items : list (string * A)) :
  Dict.update (map (fun kv => (fst kv, h (snd kv))) d)
    (map (fun kv => (fst kv, h (snd kv))) items)
  = map (fun kv => (fst kv, h (snd kv))) (Dict.update d items).
Proof.
  unfold Dict.update. revert d.
  induction items as [|[k v] items IH]; intros d; [reflexivity|]. simpl.
  rewrite set_map_values. apply IH.
Qed.

Lemma get_parsed_args (q : string) k :
  Dict.get (Dict.of_items (map as_value (parse_qsl q))) k
  = option_map (fun s => VAtom (AStr s)) (Dict.get (Dict.of_items (parse_qsl q)) k).
Proof.
  pose proof (update_map_values (fun s => VAtom (AStr s)) [] (parse_qsl q)) as H.
  cbn [map] in H. unfold Dict.of_items, as_value. rewrite H.
  exact (get_map_values (fun s => VAtom (AStr s)) _ k).
Qed.

(** C8.  For a URL [scheme://netloc/path?query#fragment] of printable
    ASCII holding no percent sign, and a mapping with distinct keys
    whose keys and encoded values hold none of [% # & +] (nor [=] in a
    key) and are not empty: merging yields a URL on which merging again
    with the same mapping changes nothing; both URLs parse to the same
    scheme, network location, path and fragment; and every argument of
    the original query string whose key the mapping does not name is a
    field of the new query string. *)
Theorem merge_into_plain_url (r : ParseResult) (params : Dict.t value) :
  plain_url r = true ->
  NoDup (Dict.keys params) ->
  plain_params params = true ->
  exists fields,
    _update_url_params (geturl r) params = Some (geturl (with_query r (join "&" fields)))
    /\ _update_url_params (geturl (with_query r (join "&" fields))) params
       = Some (geturl (with_query r (join "&" fields)))
    /\ urlparse (geturl r) = Some r
    /\ urlparse (geturl (with_query r (join "&" fields)))
       = Some (with_query r (join "&" fields))
    /\ (forall k v,
          Dict.get (Dict.of_items (parse_qsl (query r))) k = Some v ->
          Dict.get params k = None ->
          In (field k v) fields).
Proof.
  intros Hplain Hnd Hm. pose proof (plain_url_parts r Hplain) as Hr.
  pose proof (parse_qsl_plain _ (plain_query_ok r Hr)) as Hq0.
  exists (flat_map doseq_fields (merged_get_args (query r) params)).
  change (join "&" (flat_map doseq_fields (merged_get_args (query r) params)))
    with (urlencode_doseq (merged_get_args (query r) params)).
  assert (Hparse : urlparse (geturl r) = Some r).
  { pose proof (urlparse_plain_url r (query r) Hr
                  (forallb_chars_impl _ _ _ plain_query_char_ok (plain_query_ok r Hr))) as H.
    rewrite with_query_same in H. exact H. }
  split; [|split; [|split; [exact Hparse|split]]].
  - unfold _update_url_params. rewrite (unquote_plain_url r Hr), Hparse. reflexivity.
  - unfold _update_url_params.
    rewrite (geturl_rendered r _ Hr), urlencode_doseq_pairs, (unquote_rendered r _ Hr).
    rewrite (urlparse_rendered r _ Hr)
      by (apply query_ok_decoded, plain_pairs_merged; assumption).
    cbn [query scheme netloc path UrlLib.params fragment with_query].
    rewrite (merged_again _ _ Hq0 Hnd Hm), <- urlencode_doseq_pairs.
    rewrite <- (geturl_rendered r _ Hr). reflexivity.
  - apply (urlparse_plain_url r _ Hr). rewrite urlencode_doseq_pairs.
    apply query_ok_encoded.
  - intros k v Hk Hnone.
    apply (In_doseq_fields _ k (VAtom (AStr v))); [|left; reflexivity].
    rewrite get_merged_get_args, Hnone by exact Hnd.
    fold as_value. rewrite get_parsed_args, Hk. reflexivity.
Qed.

(** ** The header line editor *)

Lemma update_header_line_length (header_lines : list string) (key value : string) :
  (List.length header_lines <= List.length (_update_header_line header_lines key value)
   <= S (List.length header_lines))%nat.
Proof.
  induction header_lines as [|line rest IH]; simpl; [lia|].
  destruct (startswith (lower line) (key ++ ":")); simpl; lia.
Qed.

(** When no line starts with [key:] once lowered, the new line goes last. *)
Lemma update_header_line_appends (header_lines : list string) (key value : string) :
  (forall line, In line header_lines -> startswith (lower line) (key ++ ":") = false) ->
  _update_header_line header_lines key value = (header_lines ++ [header_line key value])%list.
Proof.
  induction header_lines as [|line rest IH]; intros Hno; simpl; [reflexivity|].
  rewrite (Hno line (or_introl eq_refl)). f_equal. apply IH.
  intros l Hl. apply Hno. right. exact Hl.
Qed.

(** A key written in lower case replaces, in place, the first line whose
    name matches it in any case. *)
Lemma update_header_line_replaces (before after : list string) (line key value : string) :
  (forall l, In l before -> startswith (lower l) (key ++ ":") = false) ->
  startswith (lower line) (key ++ ":") = true ->
  _update_header_line (before ++ line :: after)%list key value
  = (before ++ header_line key value :: after)%list.
Proof.
  induction before as [|b before IH]; intros Hno Hyes; simpl.
  - rewrite Hyes. reflexivity.
  - rewrite (Hno b (or_introl eq_refl)). f_equal. apply IH; [|exact Hyes].
    intros l Hl. apply Hno. right. exact Hl.
Qed.

Lemma lowered_line_misses_upper_key (line key : string) :
  exists_char is_upper key = true -> startswith (lower line) (key ++ ":") = false.
Proof.
  intros Hup.
  destruct (startswith (lower line) (key ++ ":")) eqn:E; [|reflexivity].
  assert (H : exists_char is_upper (lower line) = true).
  { apply (startswith_exists _ _ _ E). rewrite exists_char_append, Hup. reflexivity. }
  rewrite lower_no_upper in H. discriminate.
Qed.

(** The editor as [request] calls it. *)
Lemma content_type_appended (header_lines : list string) (value : string) :
  _update_header_line header_lines "Content-Type" value
  = (header_lines ++ [header_line "Content-Type" value])%list.
Proof.
  apply update_header_line_appends. intros line _.
  apply lowered_line_misses_upper_key. reflexivity.
Qed.

(** C2.  The editor lowers the line but not the key, so a key holding
    an upper-case letter matches no line whatever its name: the line
    [key: value] is appended and every earlier line stays, also one
    whose name is the key itself. *)
Theorem update_header_line_upper_key_appends
    (header_lines : list string) (key value : string) :
  exists_char is_upper key = true ->
  _update_header_line header_lines key value = (header_lines ++ [header_line key value])%list.
Proof.
  intros Hup. induction header_lines as [|line rest IH]; simpl; [reflexivity|].
  rewrite (lowered_line_misses_upper_key line key Hup), IH. reflexivity.
Qed.

Lemma update_header_line_upper_key_witness :
  exists_char is_upper "Content-Type" = true
  /\ _update_header_line ["Content-Type: text/plain"] "Content-Type" "application/json"
     = ["Content-Type: text/plain"; "Content-Type: application/json"].
Proof.
  split; [reflexivity|].
  apply (update_header_line_upper_key_appends ["Content-Type: text/plain"]
           "Content-Type" "application/json").
  reflexivity.
Defined.

(** ** The header stream of a transfer *)

Lemma splitlines_from_line (cur l rest : bytes) :
  is_line l = true ->
  splitlines_from cur (l ++ crlf ++ rest) = (rev cur ++ l) :: splitlines_from "" rest.
Proof.
  revert cur. induction l as [|a l IH]; intros cur Hl.
  - simpl. rewrite append_empty_r. reflexivity.
  - assert (Hal : Ascii.eqb a "010" = false /\ Ascii.eqb a "013" = false /\ is_line l = true).
    { unfold is_line in *. simpl in Hl.
      rewrite (Ascii.eqb_sym a "010"), (Ascii.eqb_sym a "013").
      destruct (Ascii.eqb "010" a); [discriminate|].
      destruct (Ascii.eqb "013" a); [rewrite andb_false_r in Hl; discriminate|].
      auto. }
    destruct Hal as (E1 & E2 & Hl').
    simpl. rewrite E1, E2, IH by exact Hl'.
    rewrite rev_cons, append_assoc. reflexivity.
Qed.

(** Lines written one by one are the lines [splitlines] reads back. *)
Lemma splitlines_header_stream (lines : list bytes) :
  forallb is_line lines = true -> splitlines (header_stream lines) = lines.
Proof.
  induction lines as [|l lines IH]; intros H; [reflexivity|].
  simpl in H. apply andb_prop in H. destruct H as [Hl Hr].
  unfold splitlines.
  change (header_stream (l :: lines)) with (l ++ crlf ++ header_stream lines).
  rewrite splitlines_from_line by exact Hl.
  simpl. f_equal. apply IH, Hr.
Qed.

Lemma read_header_lines_app g reason header_list (l1 l2 : list bytes) :
  read_header_lines g reason header_list (l1 ++ l2)
  = read_header_lines g (fst (read_header_lines g reason header_list l1))
      (snd (read_header_lines g reason header_list l1)) l2.
Proof.
  revert reason header_list.
  induction l1 as [|l l1 IH]; intros reason header_list; simpl; [reflexivity|].
  destruct (negb (nonempty (strip l))); [apply IH|].
  destruct (is_status_line l); apply IH.
Qed.

(** Between two status lines the loop only appends the lines that are
    not blank. *)
Lemma read_header_lines_block g reason header_list (block : list bytes) :
  forallb (fun l => negb (is_status_line l)) block = true ->
  read_header_lines g reason header_list block
  = (reason, (header_list ++ filter (fun l => nonempty (strip l)) block)%list).
Proof.
  revert header_list.
  induction block as [|l block IH]; intros header_list H; simpl.
  - rewrite app_nil_r. reflexivity.
  - simpl in H. apply andb_prop in H. destruct H as [Hl Hb].
    destruct (nonempty (strip l)); simpl.
    + apply negb_true_iff in Hl. rewrite Hl, IH by exact Hb.
      rewrite <- app_assoc. reflexivity.
    + apply IH, Hb.
Qed.

Lemma status_line_not_blank (l : bytes) :
  is_status_line l = true -> nonempty (strip l) = true.
Proof.
  intros H. rewrite strip_nonempty.
  apply (startswith_exists _ _ _ H). reflexivity.
Qed.

Lemma read_header_lines_last_status g reason header_list (earlier later : list bytes) status :
  is_status_line status = true ->
  forallb (fun l => negb (is_status_line l)) later = true ->
  read_header_lines g reason header_list (earlier ++ status :: later)
  = (Some (g status), filter (fun l => nonempty (strip l)) later).
Proof.
  intros Hs Hl. rewrite read_header_lines_app. simpl.
  rewrite (status_line_not_blank _ Hs), Hs. simpl.
  apply (read_header_lines_block g _ [] later Hl).
Qed.

(** C3.  For every captured header stream, however its lines end: when
    the lines [splitlines] reads from it are some earlier lines (any
    number of hops, with their status lines and headers), then a status
    line, then lines none of which is a status line, the response keeps
    the reason phrase of that last status line and, as headers, exactly
    the lines after it that are not blank. *)
Theorem response_headers_of_last_hop `{Collaborators}
    (self : Session.t) (req : Request.t Headers) (t : Transfer)
    (earlier later : list bytes) (status : bytes) :
  splitlines (header_bytes t) = (earlier ++ status :: later)%list ->
  is_status_line status = true ->
  forallb (fun l => negb (is_status_line l)) later = true ->
  Response.reason (fst (read_response self req t)) = Some (get_reason_phrase status)
  /\ Response.headers (fst (read_response self req t))
     = headers_of_lines (filter (fun l => nonempty (strip l)) later).
Proof.
  intros Hb Hs Hl. unfold read_response.
  rewrite Hb, (read_header_lines_last_status _ _ _ _ _ _ Hs Hl).
  simpl. split; reflexivity.
Qed.

(** Two hops, the first with lines ended by a bare line feed, the second
    by carriage return and line feed. *)
Lemma response_headers_of_last_hop_witness :
  let lf := String "010" EmptyString in
  let t :=
    mkTransfer "ok"
      ("HTTP/1.1 302 Found" ++ lf ++ "Location: /next" ++ lf ++ "Set-Cookie: a=1" ++ lf ++ lf
       ++ "HTTP/1.1 200 OK" ++ crlf ++ "Content-Type: text/plain" ++ crlf ++ crlf)
      "http://h/next" 200 PrimFloat.zero 1 "" in
  Response.reason (fst (read_response Stub.session (Request.mk "http://h/" [] "GET") t))
  = Some "OK"
  /\ Response.headers (fst (read_response Stub.session (Request.mk "http://h/" [] "GET") t))
     = [("Content-Type", "text/plain")].
Proof.
  intros lf t.
  apply (response_headers_of_last_hop Stub.session (Request.mk "http://h/" [] "GET") t
           ["HTTP/1.1 302 Found"; "Location: /next"; "Set-Cookie: a=1"; ""]
           ["Content-Type: text/plain"; ""] "HTTP/1.1 200 OK");
    reflexivity.
Defined.

(** ** Calls on the handle *)

Lemma settings_app o (l1 l2 : list curl_call) :
  settings o (l1 ++ l2) = (settings o l1 ++ settings o l2)%list.
Proof.
  induction l1 as [|x l1 IH]; [reflexivity|]. simpl.
  destruct x as [o' v| |]; [|exact IH|exact IH].
  destruct (CurlOpt_eqb o o'); simpl; congruence.
Qed.

Lemma settings_none o (l : list curl_call) :
  existsb (is_setopt o) l = false -> settings o l = [].
Proof.
  induction l as [|x l IH]; [reflexivity|]. simpl. intros E.
  apply orb_false_iff in E. destruct E as [Ex El].
  destruct x as [o' v| |]; simpl in *; try rewrite Ex; auto.
Qed.

Lemma impersonations_none (l : list curl_call) :
  existsb is_impersonate l = false -> impersonations l = [].
Proof.
  induction l as [|x l IH]; [reflexivity|]. simpl. intros E.
  apply orb_false_iff in E. destruct E as [Ex El].
  destruct x; simpl in *; try discriminate; auto.
Qed.

Lemma bind_calls {A B} (m : M A) (k : A -> M B) c :
  fst (bind m k c)
  = (fst (m c) ++ match snd (m c) with
                  | Return a => fst (k a (c ++ fst (m c))%list)
                  | Raise _ => []
                  end)%list.
Proof.
  unfold bind. destruct (m c) as [l1 [a|e]]; simpl.
  - destruct (k a (c ++ l1)%list); reflexivity.
  - rewrite app_nil_r. reflexivity.
Qed.

Lemma bind_result {A B} (m : M A) (k : A -> M B) c :
  snd (bind m k c)
  = match snd (m c) with
    | Return a => snd (k a (c ++ fst (m c))%list)
    | Raise e => Raise e
    end.
Proof.
  unfold bind. destruct (m c) as [l1 [a|e]]; simpl; [|reflexivity].
  destruct (k a (c ++ l1)%list); reflexivity.
Qed.

Section Never.
Context (P : curl_call -> bool).

Lemma never_ret {A} (a : A) : never P (ret a).
Proof. intros c. reflexivity. Qed.

Lemma never_raise {A} e : never P (@raise A e).
Proof. intros c. reflexivity. Qed.

Lemma never_lift {A} (o : outcome A) : never P (lift o).
Proof. intros c. reflexivity. Qed.

Lemma never_call x : P x = false -> never P (call x).
Proof. intros Hx c. simpl. rewrite Hx. reflexivity. Qed.

Lemma never_setopt o v : P (Setopt o v) = false -> never P (setopt o v).
Proof. apply never_call. Qed.

Lemma never_bind {A B} (m : M A) (k : A -> M B) :
  never P m -> (forall a, never P (k a)) -> never P (bind m k).
Proof.
  intros Hm Hk c. rewrite bind_calls, existsb_app, Hm.
  destruct (snd (m c)); [apply Hk|reflexivity].
Qed.

Lemma never_when b (m : M unit) : never P m -> never P (when b m).
Proof. intros Hm. destruct b; [exact Hm|apply never_ret]. Qed.

End Never.

(** Decomposes a goal [never P m] along the structure of [m]. *)
Ltac quiet :=
  repeat first
    [ apply never_ret
    | apply never_raise
    | apply never_lift
    | apply never_setopt; reflexivity
    | apply never_call; reflexivity
    | apply never_when
    | apply never_bind; [|intros]
    | match goal with
      | |- never _ (match ?x with _ => _ end) => destruct x
      | |- never _ (let _ := _ in _) => cbv zeta
      end ].

(** Skipping a step that returns and makes no call of the kind looked at. *)
Lemma bind_skip {A B} P (m : M A) (k : A -> M B) c a :
  never P m -> snd (m c) = Return a ->
  existsb P (fst (bind m k c)) = existsb P (fst (k a (c ++ fst (m c))%list)).
Proof.
  intros Hm Ha. rewrite bind_calls, existsb_app, Hm, Ha. reflexivity.
Qed.

Lemma settings_bind o {A B} (m : M A) (k : A -> M B) c :
  settings o (fst (bind m k c))
  = (settings o (fst (m c))
     ++ match snd (m c) with
        | Return a => settings o (fst (k a (c ++ fst (m c))%list))
        | Raise _ => []
        end)%list.
Proof.
  rewrite bind_calls, settings_app. destruct (snd (m c)); reflexivity.
Qed.

Lemma settings_never o {A} (m : M A) c :
  never (is_setopt o) m -> settings o (fst (m c)) = [].
Proof. intros Hm. apply settings_none, Hm. Qed.

(** ** The blocks of [Session.request] *)

Section Blocks.
Context `{Collaborators}.

Lemma never_do_perform P : P Perform = false -> never P do_perform.
Proof. intros HP c. simpl. rewrite HP. reflexivity. Qed.

Lemma set_auth_result self_auth auth c : snd (set_auth self_auth auth c) = Return tt.
Proof.
  unfold set_auth.
  destruct (or_else (fun _ => true) auth self_auth) as [[u p]|]; reflexivity.
Qed.

Lemma set_verify_result self_verify verify c : snd (set_verify self_verify verify c) = Return tt.
Proof.
  unfold set_verify. destruct verify as [[|]|]; [| |destruct self_verify]; reflexivity.
Qed.

Lemma when_setopts_result b (m : M unit) c :
  (forall c', snd (m c') = Return tt) -> snd (when b m c) = Return tt.
Proof. intros Hm. destruct b; [apply Hm|reflexivity]. Qed.

End Blocks.

(** Decomposes [never P m] for the blocks of [request] as well. *)
Ltac quiet_blocks :=
  unfold set_auth, set_timeout, set_proxies, set_verify, set_impersonate;
  repeat first
    [ apply never_do_perform; reflexivity
    | progress quiet
    | match goal with
      | |- never _ (if ?b then _ else _) => destruct b
      end ].

Lemma settings_skip `{Collaborators} o {A B} (m : M A) (k : A -> M B) c a :
  never (is_setopt o) m -> snd (m c) = Return a ->
  settings o (fst (bind m k c)) = settings o (fst (k a (c ++ fst (m c))%list)).
Proof.
  intros Hm Ha. rewrite settings_bind, (settings_never o m c Hm), Ha. reflexivity.
Qed.

Lemma result_skip `{Collaborators} {A B} (m : M A) (k : A -> M B) c a :
  snd (m c) = Return a -> snd (bind m k c) = snd (k a (c ++ fst (m c))%list).
Proof. intros Ha. rewrite bind_result, Ha. reflexivity. Qed.

Lemma set_timeout_handle `{Collaborators} t c c' : set_timeout t c = set_timeout t c'.
Proof. destruct t; reflexivity. Qed.

Lemma set_proxies_handle `{Collaborators} p url c c' : set_proxies p url c = set_proxies p url c'.
Proof.
  unfold set_proxies. destruct (is_truthy Dict.nonempty p); [|reflexivity].
  destruct (startswith url "http://"); [reflexivity|].
  destruct (startswith url "https://"); [|reflexivity].
  unfold bind, lift. destruct (getitem _ "https") as [v|e]; [|reflexivity].
  destruct (startswith v "https://"); [reflexivity|].
  destruct (negb (startswith v "socks")); reflexivity.
Qed.

(** Shows that a step of [request] returns. *)
Ltac returns :=
  first
    [ reflexivity
    | match goal with H : _ = Return _ |- _ => exact H end
    | apply set_auth_result
    | apply set_verify_result
    | apply when_setopts_result; intros; reflexivity
    | match goal with
      | Hf : ?b = false |- snd (when ?b _ _) = _ => rewrite Hf; reflexivity
      | Ht : snd (set_timeout ?t []) = Return _ |- snd (set_timeout ?t ?c) = _ =>
          rewrite (set_timeout_handle t c []); exact Ht
      | Hp : snd (set_proxies ?p ?u []) = Return _ |- snd (set_proxies ?p ?u ?c) = _ =>
          rewrite (set_proxies_handle p u c []); exact Hp
      | |- snd (match ?x with _ => _ end _) = _ => destruct x; reflexivity
      end ].

(** Steps over the next block of [request] when it returns and, for a
    goal on the calls made, makes none of the kind looked at. *)
Ltac skip :=
  etransitivity;
  [ first [ eapply settings_skip; [quiet_blocks | returns]
          | eapply bind_skip; [quiet_blocks | returns]
          | eapply result_skip; returns ]
  | ];
  cbv beta;
  match goal with
  | |- settings _ (fst (_ ?c')) = _ => let c'' := fresh "c" in generalize c'; intro c''
  | |- existsb _ (fst (_ ?c')) = _ => let c'' := fresh "c" in generalize c'; intro c''
  | |- snd (_ ?c') = _ => let c'' := fresh "c" in generalize c'; intro c''
  end.

(** Closes a goal on an option that the remaining blocks leave alone. *)
Ltac untouched := apply settings_never; quiet_blocks.

Section RequestFacts.
Context `{Collaborators}.

Lemma request_sets_method (self : Session.t) (a : Call.t) (c : Curl) :
  settings CUSTOMREQUEST (fst (request self a c)) = [VBytes (Call.method a)].
Proof.
  unfold request. cbv zeta. rewrite settings_bind. simpl.
  f_equal. apply settings_never. quiet_blocks.
Qed.

(** C9.  The verb is handed to the transport as it was given: the first
    option set is [CUSTOMREQUEST] with the method string itself, and no
    later step sets it again.  Nothing changes its case; the shorthands
    pin a verb that is written in upper case. *)
Theorem request_method_verbatim (self : Session.t) (a : Call.t) (c : Curl) :
  settings CUSTOMREQUEST (fst (request self a c)) = [VBytes (Call.method a)]
  /\ settings CUSTOMREQUEST (fst (Shorthand.head self a c)) = [VBytes "HEAD"]
  /\ settings CUSTOMREQUEST (fst (Shorthand.get self a c)) = [VBytes "GET"]
  /\ settings CUSTOMREQUEST (fst (Shorthand.post self a c)) = [VBytes "POST"]
  /\ settings CUSTOMREQUEST (fst (Shorthand.put self a c)) = [VBytes "PUT"]
  /\ settings CUSTOMREQUEST (fst (Shorthand.patch self a c)) = [VBytes "PATCH"]
  /\ settings CUSTOMREQUEST (fst (Shorthand.delete self a c)) = [VBytes "DELETE"].
Proof.
  split; [apply request_sets_method|].
  unfold Shorthand.head, Shorthand.get, Shorthand.post, Shorthand.put, Shorthand.patch,
    Shorthand.delete.
  repeat split; apply request_sets_method.
Qed.

Lemma set_timeout_scalar t ms c :
  int (times_1000 t) = Return ms ->
  set_timeout (TScalar t) c = ([Setopt TIMEOUT_MS (VInt ms)], Return tt).
Proof. intros E. unfold set_timeout, bind, lift. rewrite E. reflexivity. Qed.

Lemma set_timeout_pair connect_timeout read_timeout all_timeout ms_connect ms_all c :
  num_add connect_timeout read_timeout = Return all_timeout ->
  int (times_1000 connect_timeout) = Return ms_connect ->
  int (times_1000 all_timeout) = Return ms_all ->
  set_timeout (TPair connect_timeout read_timeout) c
  = ([Setopt CONNECTTIMEOUT_MS (VInt ms_connect); Setopt TIMEOUT_MS (VInt ms_all)], Return tt).
Proof.
  intros Ea Ec Et. unfold set_timeout, bind, lift. rewrite Ea, Ec. simpl.
  rewrite Et. reflexivity.
Qed.

(** C6.  For a call that gets as far as the timeout block (its URL and
    body resolve and it uploads no file): a scalar timeout [t] sets
    [TIMEOUT_MS] to [int(t * 1000)] and no connect timeout; a pair sets
    [CONNECTTIMEOUT_MS] to [int(connect * 1000)] and [TIMEOUT_MS] to
    [int((connect + read) * 1000)]; nothing else in the call sets either
    option. *)
Theorem timeout_configuration (self : Session.t) (a : Call.t) (c : Curl) url body :
  resolve_url self a = Return url ->
  resolve_body (Call.data a) (Call.json a) = Return body ->
  is_truthy Dict.nonempty (Call.files a) = false ->
  match or_default timeout_truthy (Call.timeout a) (Session.timeout self) with
  | TScalar t =>
      forall ms, int (times_1000 t) = Return ms ->
      settings TIMEOUT_MS (fst (request self a c)) = [VInt ms]
      /\ settings CONNECTTIMEOUT_MS (fst (request self a c)) = []
  | TPair connect_timeout read_timeout =>
      forall all_timeout ms_connect ms_all,
      num_add connect_timeout read_timeout = Return all_timeout ->
      int (times_1000 connect_timeout) = Return ms_connect ->
      int (times_1000 all_timeout) = Return ms_all ->
      settings CONNECTTIMEOUT_MS (fst (request self a c)) = [VInt ms_connect]
      /\ settings TIMEOUT_MS (fst (request self a c)) = [VInt ms_all]
  end.
Proof.
  intros Hurl Hbody Hfiles.
  destruct (or_default timeout_truthy (Call.timeout a) (Session.timeout self))
    as [t|connect_timeout read_timeout] eqn:Et.
  - intros ms Hms. split; unfold request; cbv zeta; rewrite Et; do 8 skip;
      rewrite settings_bind, (set_timeout_scalar _ _ _ Hms); simpl.
    + f_equal. untouched.
    + untouched.
  - intros all_timeout ms_connect ms_all Ha Hc Hall.
    split; unfold request; cbv zeta; rewrite Et; do 8 skip;
      rewrite settings_bind, (set_timeout_pair _ _ _ _ _ _ Ha Hc Hall); simpl;
      f_equal; untouched.
Qed.


Lemma startswith_prefix (s p : string) :
  startswith s p = true -> exists r, s = p ++ r.
Proof.
  revert s. induction p as [|a p IH]; intros s Hs.
  - exists s. reflexivity.
  - destruct s as [|b s]; [discriminate|]. simpl in Hs.
    apply andb_prop in Hs. destruct Hs as [Hab Hs].
    apply Ascii.eqb_eq in Hab. subst b.
    destruct (IH s Hs) as [r ->]. exists r. reflexivity.
Qed.

Lemma https_is_not_http (url : string) :
  startswith url "https://" = true -> startswith url "http://" = false.
Proof. intros Hs. destruct (startswith_prefix _ _ Hs) as [r ->]. reflexivity. Qed.

Lemma getitem_get (d : Dict.t string) k v : Dict.get d k = Some v -> getitem d k = Return v.
Proof. intros E. unfold getitem. rewrite E. reflexivity. Qed.

Lemma get_nonempty (d : Dict.t string) k v : Dict.get d k = Some v -> Dict.nonempty d = true.
Proof. destruct d; [discriminate|reflexivity]. Qed.

Lemma set_proxies_https (proxies : Dict.t string) url p c :
  startswith url "https://" = true ->
  Dict.get proxies "https" = Some p ->
  set_proxies (Some proxies) url c
  = if startswith p "https://" then ([], Raise ProxyBadScheme)
    else (Setopt PROXY (VBytes p)
            :: (if startswith p "socks" then [] else [Setopt HTTPPROXYTUNNEL (VInt 1)]),
          Return tt).
Proof.
  intros Hurl Hget. unfold set_proxies. simpl.
  rewrite (get_nonempty _ _ _ Hget), (https_is_not_http _ Hurl), Hurl.
  unfold bind, lift. rewrite (getitem_get _ _ _ Hget).
  destruct (startswith p "https://"); [reflexivity|].
  destruct (startswith p "socks"); reflexivity.
Qed.

(** C4.  For a call that gets as far as the proxy block (its URL and
    body resolve, it uploads no file, the timeout arithmetic succeeds)
    and whose URL starts with [https://]: when the [https] entry of the
    effective proxy mapping starts with [https://] the call raises the
    bad-scheme [RequestsError], with no proxy set and no transfer; when
    it does not, the entry is set as [PROXY], and tunnelling is switched
    on exactly when the entry does not start with [socks]. *)
Theorem https_proxy_configuration (self : Session.t) (a : Call.t) (c : Curl)
    url body (proxies : Dict.t string) p :
  resolve_url self a = Return url ->
  resolve_body (Call.data a) (Call.json a) = Return body ->
  is_truthy Dict.nonempty (Call.files a) = false ->
  snd (set_timeout (or_default timeout_truthy (Call.timeout a) (Session.timeout self)) [])
  = Return tt ->
  startswith url "https://" = true ->
  effective_proxies (Session.proxies self) (Call.proxies a) = Some proxies ->
  Dict.get proxies "https" = Some p ->
  if startswith p "https://" then
    snd (request self a c) = Raise ProxyBadScheme
    /\ settings PROXY (fst (request self a c)) = []
    /\ performed (fst (request self a c)) = false
  else
    settings PROXY (fst (request self a c)) = [VBytes p]
    /\ settings HTTPPROXYTUNNEL (fst (request self a c))
       = if startswith p "socks" then [] else [VInt 1].
Proof.
  intros Hurl Hbody Hfiles Htime Hhttps Heff Hget.
  pose proof (fun c' => set_proxies_https proxies url p c' Hhttps Hget) as Hp.
  destruct (startswith p "https://") eqn:Ebad.
  - repeat split; unfold request, performed; cbv zeta; rewrite Heff; do 11 skip.
    + rewrite bind_result, Hp. reflexivity.
    + rewrite settings_bind, Hp. reflexivity.
    + rewrite bind_calls, Hp. reflexivity.
  - split; unfold request; cbv zeta; rewrite Heff; do 11 skip;
      rewrite settings_bind, Hp; destruct (startswith p "socks"); simpl;
      try f_equal; untouched.
Qed.

Lemma set_impersonate_unsupported tag c :
  nonempty tag = true -> BrowserType_has tag = false ->
  set_impersonate (Some tag) c = ([], Raise (UnsupportedImpersonation tag)).
Proof. intros Hn Hh. unfold set_impersonate. rewrite Hn, Hh. reflexivity. Qed.

(** The calls of a step that returns come first, those of the rest
    after them. *)
Lemma calls_step {A B} (m : M A) (k : A -> M B) c a l :
  m c = (l, Return a) -> fst (bind m k c) = (l ++ fst (k a (c ++ l)%list))%list.
Proof. intros E. unfold bind. rewrite E. destruct (k a (c ++ l)%list); reflexivity. Qed.

Lemma calls_raise {A B} (m : M A) (k : A -> M B) c e l :
  m c = (l, Raise e) -> fst (bind m k c) = l.
Proof. intros E. unfold bind. rewrite E. reflexivity. Qed.

Lemma set_auth_run self_auth auth c :
  set_auth self_auth auth c = (fst (set_auth self_auth auth []), Return tt).
Proof.
  unfold set_auth.
  destruct (or_else (fun _ => true) auth self_auth) as [[u p]|]; reflexivity.
Qed.

Lemma set_verify_run self_verify verify c :
  set_verify self_verify verify c = (fst (set_verify self_verify verify []), Return tt).
Proof.
  unfold set_verify. destruct verify as [[|]|]; [| |destruct self_verify]; reflexivity.
Qed.

Lemma set_timeout_run t c :
  snd (set_timeout t []) = Return tt ->
  set_timeout t c = (fst (set_timeout t []), Return tt).
Proof.
  intros Ht. rewrite (set_timeout_handle t c []).
  destruct (set_timeout t []) as [l o]. simpl in *. rewrite Ht. reflexivity.
Qed.

Lemma set_proxies_run p url c :
  snd (set_proxies p url []) = Return tt ->
  set_proxies p url c = (fst (set_proxies p url []), Return tt).
Proof.
  intros Hp. rewrite (set_proxies_handle p url c []).
  destruct (set_proxies p url []) as [l o]. simpl in *. rewrite Hp. reflexivity.
Qed.

(** C5.  For a call that gets as far as the impersonation block (its
    URL and body resolve, it uploads no file, the timeout and proxy
    blocks do not raise) and whose resolved tag is a non-empty string
    outside [BrowserType]: the call raises the unsupported-impersonation
    [RequestsError], and it does so late.  The calls made on the handle
    by then are those of every earlier block, in order: the method, the
    URL, the body with its size, the header lines, the credentials, the
    timeout, the redirect options, the proxy, the certificate checks,
    the referer and the accepted encodings.  No profile is applied, no
    sink is attached and the transfer is not performed. *)
Theorem unsupported_impersonation (self : Session.t) (a : Call.t) (c : Curl)
    url body tag :
  resolve_url self a = Return url ->
  resolve_body (Call.data a) (Call.json a) = Return body ->
  is_truthy Dict.nonempty (Call.files a) = false ->
  snd (set_timeout (or_default timeout_truthy (Call.timeout a) (Session.timeout self)) [])
  = Return tt ->
  snd (set_proxies (effective_proxies (Session.proxies self) (Call.proxies a)) url [])
  = Return tt ->
  or_else nonempty (Call.impersonate a) (Session.impersonate self) = Some tag ->
  nonempty tag = true ->
  BrowserType_has tag = false ->
  snd (request self a c) = Raise (UnsupportedImpersonation tag)
  /\ fst (request self a c)
     = ([Setopt CUSTOMREQUEST (VBytes (Call.method a)); Setopt URL (VBytes url)]
        ++ (if nonempty body
            then [Setopt POSTFIELDS (VBytes body);
                  Setopt POSTFIELDSIZE (VInt (Z.of_nat (String.length body)))]
            else [])
        ++ [Setopt HTTPHEADER
              (VLines (header_lines_for (request_headers self a url)
                         (Call.data a) (Call.json a)))]
        ++ fst (set_auth (Session.auth self) (Call.auth a) [])
        ++ fst (set_timeout
                  (or_default timeout_truthy (Call.timeout a) (Session.timeout self)) [])
        ++ [Setopt FOLLOWLOCATION (VInt (if Call.allow_redirects a then 1 else 0));
            Setopt MAXREDIRS
              (VInt (or_default (fun z => negb (Z.eqb z 0)) (Call.max_redirects a)
                       (Session.max_redirects self)))]
        ++ fst (set_proxies (effective_proxies (Session.proxies self) (Call.proxies a))
                  url [])
        ++ fst (set_verify (Session.verify self) (Call.verify a) [])
        ++ match Call.referer a with
           | Some referer => if nonempty referer then [Setopt REFERER (VBytes referer)] else []
           | None => []
           end
        ++ match Call.accept_encoding a with
           | Some accept_encoding => [Setopt ACCEPT_ENCODING (VBytes accept_encoding)]
           | None => []
           end)%list
  /\ impersonations (fst (request self a c)) = []
  /\ settings WRITEFUNCTION (fst (request self a c)) = []
  /\ settings HEADERFUNCTION (fst (request self a c)) = []
  /\ performed (fst (request self a c)) = false.
Proof.
  intros Hurl Hbody Hfiles Htime Hproxy Htag Hn Hh.
  pose proof (fun c' => set_impersonate_unsupported tag c' Hn Hh) as Hi.
  split; [|split].
  - unfold request; cbv zeta; rewrite Htag; do 15 skip.
    rewrite bind_result, Hi. reflexivity.
  - unfold request. cbv zeta. rewrite Htag, Hfiles.
    destruct (Call.accept_encoding a) as [e|];
      (destruct (Call.referer a) as [r|];
       [cbn [is_truthy or_default]; destruct (nonempty r)|cbn [is_truthy]]);
      (erewrite calls_step by reflexivity);
      (erewrite calls_step by (unfold lift; rewrite Hurl; reflexivity));
      (erewrite calls_step by reflexivity);
      (erewrite calls_step by (unfold lift; rewrite Hbody; reflexivity));
      cbv beta; destruct (nonempty body);
      (erewrite calls_step by reflexivity);
      (erewrite calls_step by reflexivity);
      (erewrite calls_step by reflexivity);
      (erewrite calls_step by apply set_auth_run);
      (erewrite calls_step by (apply set_timeout_run; exact Htime));
      (erewrite calls_step by reflexivity);
      (erewrite calls_step by reflexivity);
      (erewrite calls_step by (apply set_proxies_run; exact Hproxy));
      (erewrite calls_step by apply set_verify_run);
      (erewrite calls_step by reflexivity);
      (erewrite calls_step by reflexivity);
      (erewrite calls_raise by apply Hi);
      rewrite ?app_nil_r; reflexivity.
  - repeat split; try apply impersonations_none;
      unfold request, performed; cbv zeta; rewrite Htag; do 15 skip.
    + rewrite bind_calls, Hi. reflexivity.
    + rewrite settings_bind, Hi. reflexivity.
    + rewrite settings_bind, Hi. reflexivity.
    + rewrite bind_calls, Hi. reflexivity.
Qed.



(** What a call whose URL and body resolve gives the transport as body
    and as header lines. *)
Lemma request_body_and_headers (self : Session.t) (a : Call.t) (c : Curl) url body :
  resolve_url self a = Return url ->
  resolve_body (Call.data a) (Call.json a) = Return body ->
  settings POSTFIELDS (fst (request self a c))
  = (if nonempty body then [VBytes body] else [])
  /\ settings HTTPHEADER (fst (request self a c))
     = [VLines (header_lines_for (request_headers self a url) (Call.data a) (Call.json a))].
Proof.
  intros Hurl Hbody. split; unfold request; cbv zeta.
  - do 4 skip. rewrite settings_bind.
    destruct (nonempty body); simpl; try f_equal; untouched.
  - do 5 skip. rewrite settings_bind. simpl. f_equal. untouched.
Qed.


End RequestFacts.

(** ** Concrete calls *)

Lemma request_method_not_uppercased :
  settings CUSTOMREQUEST
    (fst (Stub.run Stub.session (Call.defaults "get" "http://example.test/")))
  = [VBytes "get"]
  /\ upper "get" = "GET"
  /\ String.eqb "get" (upper "get") = false.
Proof. repeat split. Qed.


Lemma timeout_configuration_witness :
  settings CONNECTTIMEOUT_MS
    (fst (Stub.run Stub.session
            (Call.with_timeout (Some (TPair (PyInt 2) (PyInt 5)))
               (Call.defaults "GET" "https://example.test/"))))
  = [VInt 2000]
  /\ settings TIMEOUT_MS
       (fst (Stub.run Stub.session
               (Call.with_timeout (Some (TPair (PyInt 2) (PyInt 5)))
                  (Call.defaults "GET" "https://example.test/"))))
     = [VInt 7000].
Proof.
  apply (timeout_configuration Stub.session
           (Call.with_timeout (Some (TPair (PyInt 2) (PyInt 5)))
              (Call.defaults "GET" "https://example.test/"))
           [] "https://example.test/" "" eq_refl eq_refl eq_refl
           (PyInt 7) 2000%Z 7000%Z eq_refl eq_refl eq_refl).
Defined.



Lemma https_proxy_configuration_witness :
  snd (Stub.run Stub.session
         (Stub.call_with_options "https://example.test/" None
            (Some [("https", "https://proxy.test:3128")]) None))
  = Raise ProxyBadScheme
  /\ settings PROXY
       (fst (Stub.run Stub.session
               (Stub.call_with_options "https://example.test/" None
                  (Some [("https", "https://proxy.test:3128")]) None)))
     = []
  /\ performed
       (fst (Stub.run Stub.session
               (Stub.call_with_options "https://example.test/" None
                  (Some [("https", "https://proxy.test:3128")]) None)))
     = false.
Proof.
  exact (https_proxy_configuration Stub.session
           (Stub.call_with_options "https://example.test/" None
              (Some [("https", "https://proxy.test:3128")]) None)
           [] "https://example.test/" "" [("https", "https://proxy.test:3128")]
           "https://proxy.test:3128" eq_refl eq_refl eq_refl eq_refl eq_refl eq_refl eq_refl).
Defined.

(** The same proxy mapping on a call that also uploads a file: the file
    check comes first, and the call raises [NotImplementedError]. *)
Lemma file_check_precedes_proxy_check :
  snd (Stub.run Stub.session
         (Stub.call_with_options "https://example.test/" (Some [("f", "x")])
            (Some [("https", "https://proxy.test:3128")]) None))
  = Raise (NotImplementedError "Files has not been implemented.").
Proof. reflexivity. Qed.

Lemma unsupported_impersonation_witness :
  snd (Stub.run Stub.session
         (Stub.call_with_options "https://example.test/" None None (Some "firefox")))
  = Raise (UnsupportedImpersonation "firefox")
  /\ fst (Stub.run Stub.session
            (Stub.call_with_options "https://example.test/" None None (Some "firefox")))
     = [Setopt CUSTOMREQUEST (VBytes "GET");
        Setopt URL (VBytes "https://example.test/");
        Setopt HTTPHEADER (VLines []);
        Setopt TIMEOUT_MS (VInt 30000);
        Setopt FOLLOWLOCATION (VInt 1);
        Setopt MAXREDIRS (VInt (-1));
        Setopt ACCEPT_ENCODING (VBytes "gzip, deflate, br")]
  /\ impersonations
       (fst (Stub.run Stub.session
               (Stub.call_with_options "https://example.test/" None None (Some "firefox"))))
     = []
  /\ settings WRITEFUNCTION
       (fst (Stub.run Stub.session
               (Stub.call_with_options "https://example.test/" None None (Some "firefox"))))
     = []
  /\ settings HEADERFUNCTION
       (fst (Stub.run Stub.session
               (Stub.call_with_options "https://example.test/" None None (Some "firefox"))))
     = []
  /\ performed
       (fst (Stub.run Stub.session
               (Stub.call_with_options "https://example.test/" None None (Some "firefox"))))
     = false.
Proof.
  exact (unsupported_impersonation Stub.session
           (Stub.call_with_options "https://example.test/" None None (Some "firefox"))
           [] "https://example.test/" "" "firefox"
           eq_refl eq_refl eq_refl eq_refl eq_refl eq_refl eq_refl eq_refl).
Defined.

(** Three calls whose tag is outside [BrowserType].  The empty tag is
    taken as no tag: the call is performed and returns.  With a file to
    upload the call raises [NotImplementedError] instead.  And when the
    unsupported-impersonation error is raised, the URL, the timeout and
    the other options of the earlier blocks are already set. *)
Lemma impersonation_check_comes_late :
  returned (snd (Stub.run Stub.session
                   (Stub.call_with_options "https://example.test/" None None (Some ""))))
  = true
  /\ performed
       (fst (Stub.run Stub.session
               (Stub.call_with_options "https://example.test/" None None (Some ""))))
     = true
  /\ snd (Stub.run Stub.session
            (Stub.call_with_options "https://example.test/" (Some [("f", "x")]) None
               (Some "firefox")))
     = Raise (NotImplementedError "Files has not been implemented.")
  /\ fst (Stub.run Stub.session
            (Stub.call_with_options "https://example.test/" None None (Some "firefox")))
     = [Setopt CUSTOMREQUEST (VBytes "GET");
        Setopt URL (VBytes "https://example.test/");
        Setopt HTTPHEADER (VLines []);
        Setopt TIMEOUT_MS (VInt 30000);
        Setopt FOLLOWLOCATION (VInt 1);
        Setopt MAXREDIRS (VInt (-1));
        Setopt ACCEPT_ENCODING (VBytes "gzip, deflate, br")].
Proof. repeat split. Qed.

Lemma json_text_and_repeated_fields_witness :
  exists fields,
    _update_url_params "http://stackoverflow.com/test?answers=true"
      [("answers", VAtom (ABool false)); ("data", VSeq [AStr "some"; AStr "values"])]
    = Some (geturl (mkParseResult "http" "stackoverflow.com" "/test" "" (join "&" fields) ""))
    /\ In "answers=false" fields
    /\ exists before after,
         fields = (before ++ ["data=some"; "data=values"] ++ after)%list.
Proof.
  destruct (json_text_and_repeated_fields "http://stackoverflow.com/test?answers=true"
              [("answers", VAtom (ABool false)); ("data", VSeq [AStr "some"; AStr "values"])]
              (mkParseResult "http" "stackoverflow.com" "/test" "" "answers=true" ""))
    as (fields & Hurl & Hbool & _ & Hseq).
  - repeat constructor; simpl; intuition discriminate.
  - reflexivity.
  - exists fields. split; [exact Hurl|]. split.
    + exact (Hbool "answers" false eq_refl).
    + exact (Hseq "data" [AStr "some"; AStr "values"] eq_refl).
Defined.

Lemma merge_into_plain_url_witness :
  exists fields,
    _update_url_params "http://stackoverflow.com/test?answers=true&page=2#top"
      [("answers", VAtom (ABool false)); ("data", VSeq [AStr "some"; AStr "values"])]
    = Some (geturl (mkParseResult "http" "stackoverflow.com" "/test" "" (join "&" fields) "top"))
    /\ _update_url_params
         (geturl (mkParseResult "http" "stackoverflow.com" "/test" "" (join "&" fields) "top"))
         [("answers", VAtom (ABool false)); ("data", VSeq [AStr "some"; AStr "values"])]
       = Some (geturl (mkParseResult "http" "stackoverflow.com" "/test" ""
                         (join "&" fields) "top"))
    /\ urlparse "http://stackoverflow.com/test?answers=true&page=2#top"
       = Some (mkParseResult "http" "stackoverflow.com" "/test" "" "answers=true&page=2" "top")
    /\ urlparse
         (geturl (mkParseResult "http" "stackoverflow.com" "/test" "" (join "&" fields) "top"))
       = Some (mkParseResult "http" "stackoverflow.com" "/test" "" (join "&" fields) "top")
    /\ In "page=2" fields.
Proof.
  destruct (merge_into_plain_url
              (mkParseResult "http" "stackoverflow.com" "/test" "" "answers=true&page=2" "top")
              [("answers", VAtom (ABool false)); ("data", VSeq [AStr "some"; AStr "values"])])
    as (fields & Hone & Htwo & Hparse & Hparse' & Hkept).
  - reflexivity.
  - repeat constructor; simpl; intuition discriminate.
  - reflexivity.
  - exists fields. repeat split; try assumption.
    exact (Hkept "page" "2" eq_refl eq_refl).
Defined.

(** Three URLs on which merging is not a clean rewrite.  A value
    holding [#] is escaped once and read as a fragment the second time,
    so merging twice differs from merging once.  An argument with a
    blank value is dropped.  And an escaped path comes back unescaped. *)
Lemma merging_rewrites_more_than_the_query :
  _update_url_params "http://h/?x=1" [("a", VAtom (AStr "x#y"))]
  = Some "http://h/?x=1&a=x%23y"
  /\ _update_url_params "http://h/?x=1&a=x%23y" [("a", VAtom (AStr "x#y"))]
     = Some "http://h/?x=1&a=x%23y#y"
  /\ _update_url_params "http://h/?a=1&b=" [("c", VAtom (AStr "2"))]
     = Some "http://h/?a=1&c=2"
  /\ option_map path (urlparse "http://h/a%20b?x=1") = Some "/a%20b"
  /\ _update_url_params "http://h/a%20b?x=1" [("c", VAtom (AStr "2"))]
     = Some "http://h/a b?x=1&c=2"
  /\ option_map path (urlparse "http://h/a b?x=1&c=2") = Some "/a b".
Proof. repeat split. Qed.

(** ** Further properties *)

(** X1.  [_update_header_line] never shortens the list of header lines
    and lengthens it by at most one line. *)
Theorem update_header_line_grows_by_at_most_one
    (header_lines : list string) (key value : string) :
  (List.length header_lines <= List.length (_update_header_line header_lines key value)
   <= S (List.length header_lines))%nat.
Proof.
  induction header_lines as [|line rest IH]; simpl; [lia|].
  destruct (startswith (lower line) (key ++ ":")); simpl; lia.
Qed.

(** X2.  With a key that is written in lower case, the first line whose
    lowered text starts with [key:] is replaced in place by
    [key: value]; the lines before and after it stay as they were. *)
Theorem update_header_line_lower_key_replaces
    (before after : list string) (line key value : string) :
  (forall l, In l before -> startswith (lower l) (key ++ ":") = false) ->
  startswith (lower line) (key ++ ":") = true ->
  _update_header_line (before ++ line :: after)%list key value
  = (before ++ header_line key value :: after)%list.
Proof.
  induction before as [|b before IH]; intros Hno Hyes; simpl.
  - rewrite Hyes. reflexivity.
  - rewrite (Hno b (or_introl eq_refl)). f_equal. apply IH; [|exact Hyes].
    intros l Hl. apply Hno. right. exact Hl.
Qed.

Lemma update_header_line_lower_key_witness :
  _update_header_line ["Accept: */*"; "Content-Type: text/plain"; "X-A: 1"]
    "content-type" "application/json"
  = ["Accept: */*"; "content-type: application/json"; "X-A: 1"].
Proof.
  apply (update_header_line_lower_key_replaces ["Accept: */*"] ["X-A: 1"]
           "Content-Type: text/plain" "content-type" "application/json").
  - intros l [<-|[]]. reflexivity.
  - reflexivity.
Defined.

(** A whole call: [Session(impersonate="chrome101").get("https://example.test/",
    params={"q": "a b"})] over a transport that answers 200 with the
    body [ok] and the header block [HTTP/1.1 200 OK], [Content-Type:
    text/plain]: the verb set is [GET], the URL set carries the
    argument with its blank written as [+], the handle is asked to
    impersonate [chrome101] and performs, and the response has status
    200, is ok, holds the body and names the charset [utf-8]. *)
Theorem get_with_params_end_to_end :
  let self := @Session.mk Stub.collaborators [] tt None None None true (TScalar (PyInt 30))
                true (-1)%Z (Some "chrome101") in
  let a := @Call.mk Stub.collaborators "" "https://example.test/"
             (Some [("q", VAtom (AStr "a b"))]) None None None None None None None true None
             None None None (Some "gzip, deflate, br") None in
  let '(calls, result) := Shorthand.get self a [] in
  settings CUSTOMREQUEST calls = [VBytes "GET"]
  /\ settings URL calls = [VBytes "https://example.test/?q=a+b"]
  /\ impersonations calls = ["chrome101"]
  /\ performed calls = true
  /\ exists r jar,
       result = Return (r, jar)
       /\ Response.status_code r = 200%Z
       /\ Response.ok r = true
       /\ Response.content r = "ok"
       /\ Response.charset r = "utf-8"
       /\ Response.reason r = Some "OK"
       /\ Response.url r = "https://example.test/?q=a+b".
Proof.
  vm_compute. repeat split. eexists. eexists. repeat split.
Qed.

(** ** The enumeration of browsers *)

Lemma BrowserType_has_value (b : BrowserType) : BrowserType_has (BrowserType_value b) = true.
Proof. destruct b; reflexivity. Qed.

Section UrlAndBody.
Context `{Collaborators}.

(** *** The URL *)

Lemma merge_params_falsy url params :
  is_truthy Dict.nonempty params = false -> merge_params url params = Return url.
Proof. intros E. unfold merge_params. rewrite E. reflexivity. Qed.

Lemma request_sets_url (self : Session.t) (a : Call.t) (c : Curl) url :
  resolve_url self a = Return url ->
  settings URL (fst (request self a c)) = [VBytes url].
Proof.
  intros Hurl. unfold request. cbv zeta. do 2 skip.
  rewrite settings_bind. simpl. f_equal. untouched.
Qed.

(** X4.  When neither the session nor the call has parameters ([None]
    or an empty mapping), the URL handed to the transport is the [url]
    argument as it was written: it is not parsed, unquoted or
    normalised, and it is set once. *)
Theorem url_without_params_is_verbatim (self : Session.t) (a : Call.t) (c : Curl) :
  is_truthy Dict.nonempty (Session.params self) = false ->
  is_truthy Dict.nonempty (Call.params a) = false ->
  settings URL (fst (request self a c)) = [VBytes (Call.url a)].
Proof.
  intros Hs Hc. apply request_sets_url. unfold resolve_url.
  rewrite (merge_params_falsy _ _ Hs). apply merge_params_falsy, Hc.
Qed.

(** X5.  When merging the parameters into the URL raises (the
    [ValueError] of [urlparse]), the call raises that error; by then
    only the method has been set on the handle, not the URL, and
    nothing is transferred. *)
Theorem url_error_stops_request (self : Session.t) (a : Call.t) (c : Curl) e :
  resolve_url self a = Raise e ->
  request self a c = ([Setopt CUSTOMREQUEST (VBytes (Call.method a))], Raise e).
Proof.
  intros Hurl. unfold request, bind, setopt, call, lift. cbv zeta.
  rewrite Hurl. reflexivity.
Qed.

(** *** The body *)

(** X7.  With [data] that is neither [None], a [dict], a [BytesIO] nor
    [bytes], the call raises [TypeError], whatever [json] is; by then
    the method and the URL have been set and nothing else. *)
Theorem unsupported_data_raises_type_error (self : Session.t) (a : Call.t) (c : Curl) url :
  resolve_url self a = Return url ->
  Call.data a = Some DataOther ->
  request self a c
  = ([Setopt CUSTOMREQUEST (VBytes (Call.method a)); Setopt URL (VBytes url)],
     Raise (TypeError "data must be dict, BytesIO or bytes")).
Proof.
  intros Hurl Hdata. unfold request, bind, setopt, call, lift, resolve_body. cbv zeta.
  rewrite Hurl, Hdata. reflexivity.
Qed.

(** X8.  [POSTFIELDS] and [POSTFIELDSIZE] are set together: when the
    body is not empty, to the body and to its length in bytes; when it
    is empty (no data, empty bytes, an empty mapping, a stream read to
    its end, and no truthy [json]), neither option is set. *)
Theorem body_size_is_set_with_body (self : Session.t) (a : Call.t) (c : Curl) url body :
  resolve_url self a = Return url ->
  resolve_body (Call.data a) (Call.json a) = Return body ->
  settings POSTFIELDS (fst (request self a c))
  = (if nonempty body then [VBytes body] else [])
  /\ settings POSTFIELDSIZE (fst (request self a c))
     = (if nonempty body then [VInt (Z.of_nat (String.length body))] else []).
Proof.
  intros Hurl Hbody. split; unfold request; cbv zeta; do 4 skip; rewrite settings_bind;
    destruct (nonempty body); simpl; try f_equal; untouched.
Qed.

End UrlAndBody.

(** ** Session parameters and call parameters *)

Lemma get_update_block (d0 : Dict.t value) k (ts : list string) :
  ts <> [] ->
  Dict.get (Dict.update d0 (map as_value (map (fun t => (k, t)) ts))) k
  = Some (VAtom (AStr (last ts ""))).
Proof.
  revert d0. induction ts as [|t ts IH]; intros d0 Hts; [contradiction|].
  destruct ts as [|t' ts].
  - unfold Dict.update. simpl. rewrite get_set, String.eqb_refl. reflexivity.
  - change (last (t :: t' :: ts) "") with (last (t' :: ts) "").
    cbn [map]. unfold Dict.update. cbn [fold_left].
    apply (IH (Dict.set d0 k (VAtom (AStr t)))). discriminate.
Qed.

(** Read back from the query string it was written to, a key holds the
    last of the texts its value was written as. *)
Lemma get_update_pairs_last (d0 d : Dict.t value) k v :
  NoDup (Dict.keys d) -> Dict.get d k = Some v -> texts v <> [] ->
  Dict.get (Dict.update d0 (map as_value (pairs d))) k
  = Some (VAtom (AStr (last (texts v) ""))).
Proof.
  revert d0. induction d as [|[k0 v0] d IH]; intros d0 Hnd Hg Ht; [discriminate|].
  inversion Hnd as [|? ? Hk0 Hd]; subst.
  rewrite pairs_cons, map_app, update_app. simpl fst. simpl snd.
  simpl in Hg. destruct (String.eqb k0 k) eqn:E.
  - apply String.eqb_eq in E. subst k0. injection Hg as ->.
    rewrite get_update_pairs_none by (apply get_None; exact Hk0).
    apply get_update_block, Ht.
  - apply IH; assumption.
Qed.

Lemma update_url_params_plain (r : ParseResult) (params : Dict.t value) :
  plain_parts r ->
  _update_url_params (geturl r) params
  = Some (geturl (with_query r (urlencode_doseq (merged_get_args (query r) params)))).
Proof.
  intros Hr.
  assert (Hparse : urlparse (geturl r) = Some r).
  { pose proof (urlparse_plain_url r (query r) Hr
                  (forallb_chars_impl _ _ _ plain_query_char_ok (plain_query_ok r Hr))) as H.
    rewrite with_query_same in H. exact H. }
  unfold _update_url_params. rewrite (unquote_plain_url r Hr), Hparse. reflexivity.
Qed.

Lemma update_url_params_merged (r : ParseResult) (get_args : string)
    (params params' : Dict.t value) :
  plain_parts r ->
  forallb plain_pair (parse_qsl get_args) = true ->
  NoDup (Dict.keys params) -> plain_params params = true ->
  _update_url_params
    (geturl (with_query r (urlencode_doseq (merged_get_args get_args params)))) params'
  = Some (geturl (with_query r
            (urlencode_doseq
               (merged_get_args (decoded (pairs (merged_get_args get_args params)))
                  params')))).
Proof.
  intros Hr Hq Hnd Hp. unfold _update_url_params.
  rewrite (geturl_rendered r _ Hr), urlencode_doseq_pairs, (unquote_rendered r _ Hr).
  rewrite (urlparse_rendered r _ Hr)
    by (apply query_ok_decoded, plain_pairs_merged; assumption).
  reflexivity.
Qed.

Lemma plain_value_texts (params : Dict.t value) k v :
  plain_params params = true -> Dict.get params k = Some v ->
  texts (json_friendly_value v) <> [].
Proof.
  intros Hp Hg. apply get_In in Hg. unfold plain_params in Hp.
  rewrite forallb_forall in Hp. specialize (Hp _ Hg). simpl in Hp.
  apply andb_prop in Hp. destruct Hp as [_ Hv]. unfold plain_value in Hv.
  destruct (texts (json_friendly_value v)); [discriminate|discriminate].
Qed.

Section Parameters.
Context `{Collaborators}.

(** X6.  For a plain URL and plain, non-empty session and call
    parameters, the URL handed to the transport is the given one with
    its query string rewritten from a mapping with distinct keys in
    which: a key of the call parameters holds the call's value; a key
    of the session parameters only holds the last of the texts its
    value is written as (of a sequence, its last element alone); and
    any other key holds what the URL's own query string gave it. *)
Theorem call_params_are_merged_over_session_params
    (self : Session.t) (a : Call.t) (c : Curl) (r : ParseResult)
    (session_params params : Dict.t value) :
  Call.url a = geturl r ->
  plain_url r = true ->
  Session.params self = Some session_params ->
  Dict.nonempty session_params = true ->
  NoDup (Dict.keys session_params) ->
  plain_params session_params = true ->
  Call.params a = Some params ->
  Dict.nonempty params = true ->
  NoDup (Dict.keys params) ->
  plain_params params = true ->
  exists args,
    settings URL (fst (request self a c))
    = [VBytes (geturl (with_query r (urlencode_doseq args)))]
    /\ NoDup (Dict.keys args)
    /\ (forall k v,
          Dict.get params k = Some v -> Dict.get args k = Some (json_friendly_value v))
    /\ (forall k v,
          Dict.get params k = None -> Dict.get session_params k = Some v ->
          Dict.get args k = Some (VAtom (AStr (last (texts (json_friendly_value v)) ""))))
    /\ (forall k,
          Dict.get params k = None -> Dict.get session_params k = None ->
          Dict.get args k
          = option_map (fun s => VAtom (AStr s))
              (Dict.get (Dict.of_items (parse_qsl (query r))) k)).
Proof.
  intros Hurl Hplain Hsp Hsne Hsnd Hsplain Hcp Hcne Hcnd Hcplain.
  pose proof (plain_url_parts r Hplain) as Hr.
  pose proof (parse_qsl_plain _ (plain_query_ok r Hr)) as Hq0.
  set (m1 := merged_get_args (query r) session_params).
  assert (Hm1 : forallb plain_pair (pairs m1) = true)
    by (apply plain_pairs_merged; assumption).
  assert (Hnd1 : NoDup (Dict.keys m1)) by (apply NoDup_merged).
  exists (merged_get_args (decoded (pairs m1)) params).
  split; [|split; [|split; [|split]]].
  - apply request_sets_url. unfold resolve_url, merge_params.
    rewrite Hurl, Hsp, Hcp. simpl. rewrite Hsne, Hcne.
    rewrite (update_url_params_plain r _ Hr).
    fold m1. unfold m1.
    rewrite (update_url_params_merged r _ _ _ Hr Hq0 Hsnd Hsplain). reflexivity.
  - apply NoDup_merged.
  - intros k v Hk. rewrite get_merged_get_args, Hk by exact Hcnd. reflexivity.
  - intros k v Hk Hs. rewrite get_merged_get_args, Hk by exact Hcnd.
    rewrite parse_qsl_decoded by exact Hm1. fold as_value. unfold Dict.of_items.
    rewrite (get_update_pairs_last [] m1 k (json_friendly_value v) Hnd1).
    + reflexivity.
    + unfold m1. rewrite get_merged_get_args, Hs by exact Hsnd. reflexivity.
    + exact (plain_value_texts _ _ _ Hsplain Hs).
  - intros k Hk Hs. rewrite get_merged_get_args, Hk by exact Hcnd.
    rewrite parse_qsl_decoded by exact Hm1. fold as_value.
    assert (Hg1 : Dict.get m1 k
                  = option_map (fun s => VAtom (AStr s))
                      (Dict.get (Dict.of_items (parse_qsl (query r))) k)).
    { unfold m1. rewrite get_merged_get_args, Hs by exact Hsnd.
      fold as_value. rewrite get_parsed_args.
      destruct (Dict.get (Dict.of_items (parse_qsl (query r))) k); reflexivity. }
    destruct (Dict.get (Dict.of_items (parse_qsl (query r))) k) as [s|];
      unfold Dict.of_items.
    + rewrite (get_update_pairs_str [] m1 k s Hnd1 Hg1). reflexivity.
    + rewrite (get_update_pairs_none [] m1 k Hg1). reflexivity.
Qed.

End Parameters.

Section HeadersFilesAuth.
Context `{Collaborators}.

(** *** The header lines *)

(** X9.  The header lines handed to the transport are the merged
    headers, one [name: value] line each in their order, followed by
    [Content-Type: application/json] when [json] is truthy and then by
    [Content-Type: application/x-www-form-urlencoded] when [data] is a
    mapping: a content type the caller gave is kept, never replaced. *)
Theorem injected_content_types_follow_own_lines
    (self : Session.t) (a : Call.t) (c : Curl) url body :
  resolve_url self a = Return url ->
  resolve_body (Call.data a) (Call.json a) = Return body ->
  settings HTTPHEADER (fst (request self a c))
  = [VLines (serialize_headers (request_headers self a url)
             ++ (if is_truthy Json.truthy (Call.json a)
                 then ["Content-Type: application/json"] else [])
             ++ (if is_dict (Call.data a)
                 then ["Content-Type: application/x-www-form-urlencoded"] else []))%list].
Proof.
  intros Hurl Hbody.
  rewrite (proj2 (request_body_and_headers self a c url body Hurl Hbody)).
  unfold header_lines_for.
  destruct (is_truthy Json.truthy (Call.json a)), (is_dict (Call.data a));
    rewrite ?content_type_appended, ?app_nil_r, <- ?app_assoc; reflexivity.
Qed.

(** *** Files *)

(** X10.  With a non-empty [files] mapping the call raises
    [NotImplementedError]; the handle has by then been given the method,
    the URL, the body with its size when there is one, and the header
    lines, and nothing after them: no credentials, no timeout, no
    transfer. *)
Theorem files_are_not_implemented (self : Session.t) (a : Call.t) (c : Curl) url body :
  resolve_url self a = Return url ->
  resolve_body (Call.data a) (Call.json a) = Return body ->
  is_truthy Dict.nonempty (Call.files a) = true ->
  snd (request self a c) = Raise (NotImplementedError "Files has not been implemented.")
  /\ fst (request self a c)
     = ([Setopt CUSTOMREQUEST (VBytes (Call.method a)); Setopt URL (VBytes url)]
        ++ (if nonempty body
            then [Setopt POSTFIELDS (VBytes body);
                  Setopt POSTFIELDSIZE (VInt (Z.of_nat (String.length body)))]
            else [])
        ++ [Setopt HTTPHEADER
              (VLines (header_lines_for (request_headers self a url)
                         (Call.data a) (Call.json a)))])%list.
Proof.
  intros Hurl Hbody Hfiles.
  unfold request, bind, setopt, call, lift, when. cbv zeta.
  rewrite Hurl, Hbody, Hfiles. destruct (nonempty body); split; reflexivity.
Qed.

(** *** Credentials *)

(** X11.  The credentials of the call take precedence over those of the
    session: [USERNAME] and [PASSWORD] are set from the call's [auth]
    when it is given, else from the session's, and are not set at all
    when neither is given. *)
Theorem auth_configuration (self : Session.t) (a : Call.t) (c : Curl) url body :
  resolve_url self a = Return url ->
  resolve_body (Call.data a) (Call.json a) = Return body ->
  is_truthy Dict.nonempty (Call.files a) = false ->
  match Call.auth a, Session.auth self with
  | Some (username, password), _ | None, Some (username, password) =>
      settings USERNAME (fst (request self a c)) = [VBytes username]
      /\ settings PASSWORD (fst (request self a c)) = [VBytes password]
  | None, None =>
      settings USERNAME (fst (request self a c)) = []
      /\ settings PASSWORD (fst (request self a c)) = []
  end.
Proof.
  intros Hurl Hbody Hfiles.
  destruct (Call.auth a) as [[u p]|] eqn:Ea; [|destruct (Session.auth self) as [[u p]|] eqn:Es];
    split; unfold request; cbv zeta; rewrite Ea, ?Es; do 7 skip;
    rewrite settings_bind; simpl; try f_equal; untouched.
Qed.

(** *** Redirects *)

(** X13.  [FOLLOWLOCATION] is set to 1 when [allow_redirects] is true
    and to 0 when it is false; [MAXREDIRS] is set to the call's
    [max_redirects] when that is given and not 0, else to the
    session's. *)
Theorem redirect_configuration (self : Session.t) (a : Call.t) (c : Curl) url body :
  resolve_url self a = Return url ->
  resolve_body (Call.data a) (Call.json a) = Return body ->
  is_truthy Dict.nonempty (Call.files a) = false ->
  snd (set_timeout (or_default timeout_truthy (Call.timeout a) (Session.timeout self)) [])
  = Return tt ->
  settings FOLLOWLOCATION (fst (request self a c))
  = [VInt (if Call.allow_redirects a then 1 else 0)]
  /\ settings MAXREDIRS (fst (request self a c))
     = [VInt (match Call.max_redirects a with
              | Some n => if Z.eqb n 0 then Session.max_redirects self else n
              | None => Session.max_redirects self
              end)].
Proof.
  intros Hurl Hbody Hfiles Htime. split; unfold request; cbv zeta.
  - do 9 skip. rewrite settings_bind. simpl. f_equal. untouched.
  - do 10 skip. rewrite settings_bind. simpl. f_equal.
    + destruct (Call.max_redirects a) as [n|]; simpl; [destruct (Z.eqb n 0)|]; reflexivity.
    + untouched.
Qed.

End HeadersFilesAuth.

Section NonFiniteTimeouts.
Context `{Collaborators}.

(** *** Timeouts that are not finite *)

Lemma int_not_finite (f : float) :
  is_finite f = false ->
  int (times_1000 (PyFloat f))
  = match Prim2SF f with
    | S754_nan => Raise (ValueError "cannot convert float NaN to integer")
    | _ => Raise (OverflowError "cannot convert float infinity to integer")
    end.
Proof.
  unfold is_finite, int, times_1000. rewrite mul_spec.
  destruct (Prim2SF f) as [s|s| |s m e]; try discriminate; intros _.
  - destruct s; vm_compute; reflexivity.
  - vm_compute; reflexivity.
Qed.

(** X12.  A scalar timeout that is a float and not finite makes the
    call raise from [int(timeout * 1000)]: [OverflowError] for an
    infinity, [ValueError] for a NaN.  No timeout is set and nothing is
    transferred. *)
Theorem timeout_not_finite_raises (self : Session.t) (a : Call.t) (c : Curl) url body f :
  resolve_url self a = Return url ->
  resolve_body (Call.data a) (Call.json a) = Return body ->
  is_truthy Dict.nonempty (Call.files a) = false ->
  or_default timeout_truthy (Call.timeout a) (Session.timeout self) = TScalar (PyFloat f) ->
  is_finite f = false ->
  snd (request self a c)
  = match Prim2SF f with
    | S754_nan => Raise (ValueError "cannot convert float NaN to integer")
    | _ => Raise (OverflowError "cannot convert float infinity to integer")
    end
  /\ settings TIMEOUT_MS (fst (request self a c)) = []
  /\ performed (fst (request self a c)) = false.
Proof.
  intros Hurl Hbody Hfiles Ht Hf.
  assert (Hs : forall c', set_timeout (TScalar (PyFloat f)) c'
                 = ([], match Prim2SF f with
                        | S754_nan => Raise (ValueError "cannot convert float NaN to integer")
                        | _ => Raise (OverflowError "cannot convert float infinity to integer")
                        end)).
  { intros c'. unfold set_timeout, bind, lift. rewrite (int_not_finite f Hf).
    destruct (Prim2SF f); reflexivity. }
  repeat split; unfold request, performed; cbv zeta; rewrite Ht; do 8 skip.
  - rewrite bind_result, Hs. destruct (Prim2SF f); reflexivity.
  - rewrite settings_bind, Hs. destruct (Prim2SF f); reflexivity.
  - rewrite bind_calls, Hs. destruct (Prim2SF f); reflexivity.
Qed.

End NonFiniteTimeouts.

Section Proxies.
Context `{Collaborators}.

(** *** Proxies *)

Lemma set_proxies_http (proxies : Dict.t string) url p c :
  startswith url "http://" = true ->
  Dict.get proxies "http" = Some p ->
  set_proxies (Some proxies) url c = ([Setopt PROXY (VBytes p)], Return tt).
Proof.
  intros Hurl Hget. unfold set_proxies. simpl.
  rewrite (get_nonempty _ _ _ Hget), Hurl.
  unfold bind, lift. rewrite (getitem_get _ _ _ Hget). reflexivity.
Qed.

(** X14.  For a URL that starts with [http://], the [http] entry of the
    effective proxy mapping is set as [PROXY], whatever its own scheme,
    and tunnelling is not switched on. *)
Theorem http_proxy_configuration (self : Session.t) (a : Call.t) (c : Curl)
    url body (proxies : Dict.t string) p :
  resolve_url self a = Return url ->
  resolve_body (Call.data a) (Call.json a) = Return body ->
  is_truthy Dict.nonempty (Call.files a) = false ->
  snd (set_timeout (or_default timeout_truthy (Call.timeout a) (Session.timeout self)) [])
  = Return tt ->
  startswith url "http://" = true ->
  effective_proxies (Session.proxies self) (Call.proxies a) = Some proxies ->
  Dict.get proxies "http" = Some p ->
  settings PROXY (fst (request self a c)) = [VBytes p]
  /\ settings HTTPPROXYTUNNEL (fst (request self a c)) = [].
Proof.
  intros Hurl Hbody Hfiles Htime Hhttp Heff Hget.
  pose proof (fun c' => set_proxies_http proxies url p c' Hhttp Hget) as Hp.
  split; unfold request; cbv zeta; rewrite Heff; do 11 skip;
    rewrite settings_bind, Hp; simpl; try f_equal; untouched.
Qed.

Lemma set_proxies_missing (proxies : Dict.t string) url key c :
  Dict.nonempty proxies = true ->
  (startswith url "http://" = true /\ key = "http"
   \/ startswith url "https://" = true /\ key = "https") ->
  Dict.get proxies key = None ->
  set_proxies (Some proxies) url c = ([], Raise (KeyError key)).
Proof.
  intros Hne Hurl Hget. unfold set_proxies. simpl. rewrite Hne.
  destruct Hurl as [[Hurl ->]|[Hurl ->]].
  - rewrite Hurl. unfold bind, lift, getitem. rewrite Hget. reflexivity.
  - rewrite (https_is_not_http _ Hurl), Hurl. unfold bind, lift, getitem.
    rewrite Hget. reflexivity.
Qed.

(** X15.  When the effective proxy mapping is not empty but has no
    entry for the scheme of the URL ([http] for [http://], [https] for
    [https://]), the call raises [KeyError] for that key; no proxy is
    set and nothing is transferred. *)
Theorem proxy_entry_missing_raises_key_error (self : Session.t) (a : Call.t) (c : Curl)
    url body (proxies : Dict.t string) key :
  resolve_url self a = Return url ->
  resolve_body (Call.data a) (Call.json a) = Return body ->
  is_truthy Dict.nonempty (Call.files a) = false ->
  snd (set_timeout (or_default timeout_truthy (Call.timeout a) (Session.timeout self)) [])
  = Return tt ->
  effective_proxies (Session.proxies self) (Call.proxies a) = Some proxies ->
  Dict.nonempty proxies = true ->
  (startswith url "http://" = true /\ key = "http"
   \/ startswith url "https://" = true /\ key = "https") ->
  Dict.get proxies key = None ->
  snd (request self a c) = Raise (KeyError key)
  /\ settings PROXY (fst (request self a c)) = []
  /\ performed (fst (request self a c)) = false.
Proof.
  intros Hurl Hbody Hfiles Htime Heff Hne Hscheme Hget.
  pose proof (fun c' => set_proxies_missing proxies url key c' Hne Hscheme Hget) as Hp.
  repeat split; unfold request, performed; cbv zeta; rewrite Heff; do 11 skip.
  - rewrite bind_result, Hp. reflexivity.
  - rewrite settings_bind, Hp. reflexivity.
  - rewrite bind_calls, Hp. reflexivity.
Qed.

Lemma set_proxies_other_scheme (proxies : option (Dict.t string)) url c :
  startswith url "http://" = false -> startswith url "https://" = false ->
  set_proxies proxies url c = ([], Return tt).
Proof.
  intros Hhttp Hhttps. unfold set_proxies. rewrite Hhttp, Hhttps.
  destruct (is_truthy Dict.nonempty proxies); reflexivity.
Qed.

Lemma never_set_proxies_other_scheme P (proxies : option (Dict.t string)) url :
  startswith url "http://" = false -> startswith url "https://" = false ->
  never P (set_proxies proxies url).
Proof.
  intros Hhttp Hhttps c. rewrite set_proxies_other_scheme by assumption. reflexivity.
Qed.

(** X16.  For a URL that starts with neither [http://] nor [https://]
    in lower case, no proxy option is set, whatever the proxy mappings
    hold. *)
Theorem no_proxy_for_other_schemes (self : Session.t) (a : Call.t) (c : Curl) url :
  resolve_url self a = Return url ->
  startswith url "http://" = false ->
  startswith url "https://" = false ->
  settings PROXY (fst (request self a c)) = []
  /\ settings HTTPPROXYTUNNEL (fst (request self a c)) = [].
Proof.
  intros Hurl Hhttp Hhttps.
  split; unfold request; cbv zeta; do 2 skip; apply settings_never;
    unfold set_auth, set_timeout, set_verify, set_impersonate;
    repeat first
      [ apply never_set_proxies_other_scheme; assumption
      | apply never_do_perform; reflexivity
      | apply never_ret
      | apply never_raise
      | apply never_lift
      | apply never_setopt; reflexivity
      | apply never_call; reflexivity
      | apply never_bind; [|intros]
      | match goal with
        | |- never _ (when _ _) => apply never_when
        | |- never _ (if ?b then _ else _) => destruct b
        | |- never _ (match ?x with _ => _ end) => destruct x
        end ].
Qed.

(** X17.  When the session has proxies, the mapping the proxy block
    reads is the session's with the call's entries over them: a key
    holds the call's value when the call names it, else the session's. *)
Theorem call_proxies_override_session_proxies
    (session_proxies : Dict.t string) (proxies : option (Dict.t string)) :
  Dict.nonempty session_proxies = true ->
  NoDup (Dict.keys session_proxies) ->
  (forall p, proxies = Some p -> NoDup (Dict.keys p)) ->
  exists merged,
    effective_proxies (Some session_proxies) proxies = Some merged
    /\ forall k,
         Dict.get merged k
         = match match proxies with Some p => Dict.get p k | None => None end with
           | Some v => Some v
           | None => Dict.get session_proxies k
           end.
Proof.
  intros Hne Hnd Hp. unfold effective_proxies. simpl. rewrite Hne.
  eexists. split; [reflexivity|]. intros k.
  assert (Hs : Dict.get (Dict.of_items session_proxies) k = Dict.get session_proxies k).
  { unfold Dict.of_items. rewrite get_update by exact Hnd.
    destruct (Dict.get session_proxies k); reflexivity. }
  destruct proxies as [p|]; simpl.
  - destruct p as [|kv p]; simpl or_default.
    + exact Hs.
    + rewrite get_update by (apply Hp; reflexivity). rewrite Hs. reflexivity.
  - exact Hs.
Qed.

End Proxies.

Section ChecksAndImpersonation.
Context `{Collaborators}.

(** *** Certificate checks, referer, accepted encodings *)

(** X18.  Peer and host verification are switched off (both options
    set to 0) when the call passes [verify=False], or passes no
    [verify] on a session created with [verify=False]; with
    [verify=True] on the call, or no [verify] on a verifying session,
    neither option is set. *)
Theorem verify_configuration (self : Session.t) (a : Call.t) (c : Curl) url body :
  resolve_url self a = Return url ->
  resolve_body (Call.data a) (Call.json a) = Return body ->
  is_truthy Dict.nonempty (Call.files a) = false ->
  snd (set_timeout (or_default timeout_truthy (Call.timeout a) (Session.timeout self)) [])
  = Return tt ->
  snd (set_proxies (effective_proxies (Session.proxies self) (Call.proxies a)) url [])
  = Return tt ->
  match Call.verify a with
  | Some false =>
      settings SSL_VERIFYPEER (fst (request self a c)) = [VInt 0]
      /\ settings SSL_VERIFYHOST (fst (request self a c)) = [VInt 0]
  | Some true =>
      settings SSL_VERIFYPEER (fst (request self a c)) = []
      /\ settings SSL_VERIFYHOST (fst (request self a c)) = []
  | None =>
      settings SSL_VERIFYPEER (fst (request self a c))
      = (if Session.verify self then [] else [VInt 0])
      /\ settings SSL_VERIFYHOST (fst (request self a c))
         = (if Session.verify self then [] else [VInt 0])
  end.
Proof.
  intros Hurl Hbody Hfiles Htime Hproxy.
  destruct (Call.verify a) as [[|]|] eqn:Ev; [| |destruct (Session.verify self) eqn:Es];
    split; unfold request; cbv zeta; rewrite Ev, ?Es; do 12 skip;
    rewrite settings_bind; simpl; try f_equal; untouched.
Qed.

(** X19.  [REFERER] is set only for a referer that is not empty;
    [ACCEPT_ENCODING] is set whenever [accept_encoding] is not [None],
    the empty string included. *)
Theorem referer_and_accept_encoding (self : Session.t) (a : Call.t) (c : Curl) url body :
  resolve_url self a = Return url ->
  resolve_body (Call.data a) (Call.json a) = Return body ->
  is_truthy Dict.nonempty (Call.files a) = false ->
  snd (set_timeout (or_default timeout_truthy (Call.timeout a) (Session.timeout self)) [])
  = Return tt ->
  snd (set_proxies (effective_proxies (Session.proxies self) (Call.proxies a)) url [])
  = Return tt ->
  settings REFERER (fst (request self a c))
  = match Call.referer a with
    | Some referer => if nonempty referer then [VBytes referer] else []
    | None => []
    end
  /\ settings ACCEPT_ENCODING (fst (request self a c))
     = match Call.accept_encoding a with
       | Some accept_encoding => [VBytes accept_encoding]
       | None => []
       end.
Proof.
  intros Hurl Hbody Hfiles Htime Hproxy. split; unfold request; cbv zeta.
  - do 13 skip. rewrite settings_bind.
    destruct (Call.referer a) as [r|]; simpl; [destruct (nonempty r); simpl|];
      try f_equal; untouched.
  - do 14 skip. rewrite settings_bind.
    destruct (Call.accept_encoding a) as [e|]; simpl; try f_equal; untouched.
Qed.

(** *** Impersonation *)

Lemma set_impersonate_supported tag c :
  nonempty tag = true -> BrowserType_has tag = true ->
  set_impersonate (Some tag) c = ([Impersonate tag], Return tt).
Proof. intros Hn Hh. unfold set_impersonate. rewrite Hn, Hh. reflexivity. Qed.

Lemma impersonations_app (l1 l2 : list curl_call) :
  impersonations (l1 ++ l2) = (impersonations l1 ++ impersonations l2)%list.
Proof.
  induction l1 as [|x l1 IH]; [reflexivity|]. destruct x; simpl; congruence.
Qed.

Lemma impersonations_skip {A B} (m : M A) (k : A -> M B) c a :
  never is_impersonate m -> snd (m c) = Return a ->
  impersonations (fst (bind m k c)) = impersonations (fst (k a (c ++ fst (m c))%list)).
Proof.
  intros Hm Ha. rewrite bind_calls, impersonations_app, Ha.
  rewrite (impersonations_none _ (Hm c)). reflexivity.
Qed.

(** X20.  When the tag resolved from the call and the session (the
    call's when it is not empty, else the session's) is the value of a
    [BrowserType] member, the handle is asked to impersonate exactly
    that tag, once, and the transfer is performed. *)
Theorem supported_impersonation (self : Session.t) (a : Call.t) (c : Curl) url body b :
  resolve_url self a = Return url ->
  resolve_body (Call.data a) (Call.json a) = Return body ->
  is_truthy Dict.nonempty (Call.files a) = false ->
  snd (set_timeout (or_default timeout_truthy (Call.timeout a) (Session.timeout self)) [])
  = Return tt ->
  snd (set_proxies (effective_proxies (Session.proxies self) (Call.proxies a)) url [])
  = Return tt ->
  or_else nonempty (Call.impersonate a) (Session.impersonate self)
  = Some (BrowserType_value b) ->
  impersonations (fst (request self a c)) = [BrowserType_value b]
  /\ performed (fst (request self a c)) = true.
Proof.
  intros Hurl Hbody Hfiles Htime Hproxy Htag.
  assert (Hi : forall c', set_impersonate (Some (BrowserType_value b)) c'
                 = ([Impersonate (BrowserType_value b)], Return tt)).
  { intros c'. apply set_impersonate_supported; [destruct b; reflexivity|].
    apply BrowserType_has_value. }
  split; unfold request, performed; cbv zeta; rewrite Htag.
  - do 15 (etransitivity;
           [eapply impersonations_skip; [quiet_blocks | returns]|]; cbv beta;
           match goal with
           | |- impersonations (fst (_ ?c')) = _ =>
               let c'' := fresh "c" in generalize c'; intro c''
           end).
    rewrite bind_calls, impersonations_app, Hi. simpl. f_equal.
    apply impersonations_none. quiet_blocks.
  - do 15 skip. rewrite bind_calls, Hi. simpl.
    rewrite !bind_calls. simpl. reflexivity.
Qed.

End ChecksAndImpersonation.

(** ** The transfer within a request *)


Lemma returned_step {A B} (m : M A) (k : A -> M B) :
  (forall a c, returned (snd (k a c)) = true -> performed (fst (k a c)) = true) ->
  forall c, returned (snd (bind m k c)) = true -> performed (fst (bind m k c)) = true.
Proof.
  intros Hk c. rewrite bind_result, bind_calls. unfold performed in *.
  destruct (snd (m c)) as [a|e]; [|discriminate].
  intros Hr. rewrite existsb_app, (Hk a _ Hr). apply orb_true_r.
Qed.

Section Transfer.
Context `{Collaborators}.

(** X21.  A call that returns a response has performed the transfer:
    no response is made up without running the handle. *)
Theorem response_only_after_transfer (self : Session.t) (a : Call.t) (c : Curl) :
  returned (snd (request self a c)) = true -> performed (fst (request self a c)) = true.
Proof.
  revert c. unfold request. cbv zeta.
  do 18 (apply returned_step; intros ?).
  intros c _. unfold bind, do_perform. destruct (perform c); reflexivity.
Qed.


End Transfer.

(** ** The response *)

Lemma take_word_rest wide inside (s : string) :
  exists rest,
    s = take_word wide inside s ++ rest
    /\ match rest with String c _ => word_char c = false | EmptyString => True end.
Proof.
  revert inside. induction s as [|c s IH]; intros inside.
  - exists "". split; [reflexivity|exact I].
  - cbn [take_word]. destruct inside as [|n].
    + destruct (word_char c) eqn:Ec.
      * destruct (IH 0%nat) as [rest [Hs Hrest]]. exists rest.
        split; [cbn [append]; f_equal; exact Hs|exact Hrest].
      * destruct (is_ascii c).
        -- exists (String c s). split; [reflexivity|exact Ec].
        -- destruct (wide (String c s)) as [|n].
           ++ exists (String c s). split; [reflexivity|exact Ec].
           ++ destruct (IH n) as [rest [Hs Hrest]]. exists rest.
              split; [cbn [append]; f_equal; exact Hs|exact Hrest].
    + destruct (IH n) as [rest [Hs Hrest]]. exists rest.
      split; [cbn [append]; f_equal; exact Hs|exact Hrest].
Qed.

(** In ASCII text the table is not read: the run is made of the ASCII
    word characters. *)
Lemma take_word_ascii wide (s : string) :
  forallb_chars is_ascii s = true ->
  forallb_chars word_char (take_word wide 0 s) = true.
Proof.
  induction s as [|c s IH]; [reflexivity|]. cbn [forallb_chars take_word].
  intros Hs. apply andb_prop in Hs. destruct Hs as [Hc Hs].
  destruct (word_char c) eqn:Ec.
  - cbn [forallb_chars]. rewrite Ec. exact (IH Hs).
  - rewrite Hc. reflexivity.
Qed.

Lemma forallb_chars_drop p n (s : string) :
  forallb_chars p s = true -> forallb_chars p (drop n s) = true.
Proof.
  revert s. induction n as [|n IH]; intros s Hs; [destruct s; exact Hs|].
  destruct s as [|c s]; [reflexivity|]. cbn [drop].
  cbn [forallb_chars] in Hs. apply andb_prop in Hs. apply IH, Hs.
Qed.

Lemma search_charset_cons wide c (s : string) :
  search_charset wide (String c s)
  = if startswith (String c s) "charset="
       && nonempty (take_word wide 0 (drop 8 (String c s)))
    then Some (take_word wide 0 (drop 8 (String c s)))
    else search_charset wide s.
Proof. reflexivity. Qed.

Lemma search_charset_word wide (content_type g : string) :
  search_charset wide content_type = Some g ->
  nonempty g = true
  /\ (forallb_chars is_ascii content_type = true -> forallb_chars word_char g = true).
Proof.
  induction content_type as [|c s IH]; [discriminate|].
  rewrite search_charset_cons.
  destruct (startswith (String c s) "charset="
            && nonempty (take_word wide 0 (drop 8 (String c s)))) eqn:E.
  - intros Hg.
    assert (Eg : g = take_word wide 0 (drop 8 (String c s))) by congruence.
    subst g. apply andb_prop in E. destruct E as [_ Hn].
    split; [exact Hn|]. intros Ha. apply take_word_ascii, forallb_chars_drop, Ha.
  - intros Hg. destruct (IH Hg) as [Hn Hw]. split; [exact Hn|].
    intros Ha. apply Hw. cbn [forallb_chars] in Ha. apply andb_prop in Ha. apply Ha.
Qed.

(** X23.  The charset found in a content type is not empty and stands in
    the content type right after [charset=]; what follows it does not
    start with an ASCII letter, digit, underscore or hyphen; and when
    the content type is ASCII text, the charset is made of such
    characters only. *)
Theorem charset_match_is_sound wide (content_type g : string) :
  search_charset wide content_type = Some g ->
  nonempty g = true
  /\ (forallb_chars is_ascii content_type = true -> forallb_chars word_char g = true)
  /\ exists before rest,
       content_type = before ++ "charset=" ++ g ++ rest
       /\ match rest with String c _ => word_char c = false | EmptyString => True end.
Proof.
  intros Hg. destruct (search_charset_word wide _ _ Hg) as [Hn Hw].
  split; [exact Hn|]. split; [exact Hw|]. clear Hn Hw. revert Hg.
  induction content_type as [|c s IH]; [discriminate|].
  cbn [search_charset].
  destruct (startswith (String c s) "charset="
            && nonempty (take_word wide 0 (drop 8 (String c s)))) eqn:E.
  - intros [= <-]. apply andb_prop in E. destruct E as [Hs _].
    destruct (startswith_prefix _ _ Hs) as [r Hr]. cbn in Hr. injection Hr as -> ->.
    cbn [drop append].
    destruct (take_word_rest wide 0 r) as [rest [Hsplit Hrest]].
    exists "", rest. split; [|exact Hrest].
    cbn [append]. rewrite <- Hsplit. reflexivity.
  - intros Hg. destruct (IH Hg) as (before & rest & -> & Hrest).
    exists (String c before), rest. split; [reflexivity|exact Hrest].
Qed.

(** X24.  Wherever a content type holds [charset=] followed by a
    letter, digit, underscore or hyphen, a charset is found. *)
Theorem charset_is_found_when_present wide (before rest : string) (c : ascii) :
  word_char c = true ->
  exists g, search_charset wide (before ++ "charset=" ++ String c rest) = Some g.
Proof.
  intros Hc. induction before as [|d before [g IH]].
  - eexists. cbn. rewrite Hc. reflexivity.
  - change (String d before ++ "charset=" ++ String c rest)
      with (String d (before ++ "charset=" ++ String c rest)).
    cbn [search_charset].
    destruct (startswith _ "charset=" && nonempty _).
    + eexists. reflexivity.
    + exists g. exact IH.
Qed.

Lemma read_header_lines_kept g reason header_list (lines : list bytes) :
  forallb (fun l => nonempty (strip l) && negb (is_status_line l)) header_list = true ->
  forallb (fun l => nonempty (strip l) && negb (is_status_line l))
    (snd (read_header_lines g reason header_list lines)) = true.
Proof.
  revert reason header_list.
  induction lines as [|l lines IH]; intros reason header_list Hh; [exact Hh|].
  simpl. destruct (nonempty (strip l)) eqn:En; simpl; [|apply IH, Hh].
  destruct (is_status_line l) eqn:Es; apply IH; [reflexivity|].
  rewrite forallb_app, Hh. simpl. rewrite En, Es. reflexivity.
Qed.

Lemma read_header_lines_from g reason header_list (lines : list bytes) :
  incl (snd (read_header_lines g reason header_list lines)) (header_list ++ lines).
Proof.
  revert reason header_list.
  induction lines as [|l lines IH]; intros reason header_list; simpl.
  - rewrite app_nil_r. apply incl_refl.
  - destruct (nonempty (strip l)); simpl.
    + destruct (is_status_line l).
      * intros x Hx. apply (IH _ []) in Hx. apply in_or_app. right. right. exact Hx.
      * intros x Hx. apply IH in Hx. rewrite <- app_assoc in Hx. exact Hx.
    + intros x Hx. apply IH in Hx. apply in_app_or in Hx.
      apply in_or_app. destruct Hx; [left|right; right]; assumption.
Qed.

Section ResponseFacts.
Context `{Collaborators}.

(** X25.  Whatever the transfer returned, the response's [encoding]
    equals its [charset] and the charset is not empty: it is the one
    found in the [Content-Type] header, or [utf-8].  When the value of
    that header is ASCII text, the charset is made of ASCII letters,
    digits, underscores and hyphens only. *)
Theorem response_charset_is_a_word
    (self : Session.t) (req : Request.t Headers) (t : Transfer) :
  Response.encoding (fst (read_response self req t))
  = Response.charset (fst (read_response self req t))
  /\ nonempty (Response.charset (fst (read_response self req t))) = true
  /\ (forallb_chars is_ascii
        (headers_get (Response.headers (fst (read_response self req t)))
           "Content-Type" EmptyString) = true ->
      forallb_chars word_char (Response.charset (fst (read_response self req t))) = true).
Proof.
  unfold read_response.
  destruct (read_header_lines _ _ _ _) as [reason header_list]. simpl.
  destruct (search_charset _ _) as [g|] eqn:E.
  - destruct (search_charset_word _ _ _ E) as [Hn Hw]. auto.
  - repeat split.
Qed.

(** X26.  Whatever the transfer wrote to the header sink, the
    response's headers are built from lines of that stream, none of
    which is blank or a status line. *)
Theorem response_headers_are_header_lines
    (self : Session.t) (req : Request.t Headers) (t : Transfer) :
  exists header_list,
    Response.headers (fst (read_response self req t)) = headers_of_lines header_list
    /\ incl header_list (splitlines (header_bytes t))
    /\ forallb (fun l => nonempty (strip l) && negb (is_status_line l)) header_list = true.
Proof.
  unfold read_response.
  pose proof (read_header_lines_kept get_reason_phrase None []
                (splitlines (header_bytes t)) eq_refl) as Hk.
  pose proof (read_header_lines_from get_reason_phrase None []
                (splitlines (header_bytes t))) as Hi.
  destruct (read_header_lines _ _ _ _) as [reason header_list]. simpl in *.
  exists header_list. repeat split; assumption.
Qed.

End ResponseFacts.

(** *** Concrete calls for the properties above *)

Lemma url_without_params_is_verbatim_witness :
  let a := @Call.mk Stub.collaborators "GET" "HTTP://Example.test/a%20b?x=&y" (Some [])
             None None None None None None None true None None None None None None in
  settings URL (fst (Stub.run Stub.session a)) = [VBytes "HTTP://Example.test/a%20b?x=&y"].
Proof.
  intros a. exact (url_without_params_is_verbatim Stub.session a [] eq_refl eq_refl).
Defined.

Lemma url_error_stops_request_witness :
  let a := @Call.mk Stub.collaborators "GET" "http://[::1/x" (Some [("a", VAtom (AStr "1"))])
             None None None None None None None true None None None None None None in
  Stub.run Stub.session a
  = ([Setopt CUSTOMREQUEST (VBytes "GET")], Raise (ValueError "Invalid IPv6 URL")).
Proof.
  intros a.
  exact (url_error_stops_request Stub.session a [] (ValueError "Invalid IPv6 URL") eq_refl).
Defined.

Lemma unsupported_data_raises_type_error_witness :
  Stub.run Stub.session
    (Stub.call_with_body "POST" "http://example.test/" (Some DataOther)
       (Some (JObj [("b", JInt 2)])))
  = ([Setopt CUSTOMREQUEST (VBytes "POST"); Setopt URL (VBytes "http://example.test/")],
     Raise (TypeError "data must be dict, BytesIO or bytes")).
Proof.
  exact (unsupported_data_raises_type_error Stub.session
           (Stub.call_with_body "POST" "http://example.test/" (Some DataOther)
              (Some (JObj [("b", JInt 2)])))
           [] "http://example.test/" eq_refl eq_refl).
Defined.

Lemma body_size_is_set_with_body_witness :
  (settings POSTFIELDS
     (fst (Stub.run Stub.session
             (Stub.call_with_body "POST" "http://example.test/"
                (Some (DataBytesIO "skipped:sent" 8)) None)))
   = [VBytes "sent"]
   /\ settings POSTFIELDSIZE
        (fst (Stub.run Stub.session
                (Stub.call_with_body "POST" "http://example.test/"
                   (Some (DataBytesIO "skipped:sent" 8)) None)))
      = [VInt 4])
  /\ (settings POSTFIELDS
        (fst (Stub.run Stub.session
                (Stub.call_with_body "POST" "http://example.test/" (Some (DataDict [])) None)))
      = []
      /\ settings POSTFIELDSIZE
           (fst (Stub.run Stub.session
                   (Stub.call_with_body "POST" "http://example.test/"
                      (Some (DataDict [])) None)))
         = []).
Proof.
  split.
  - exact (body_size_is_set_with_body Stub.session
             (Stub.call_with_body "POST" "http://example.test/"
                (Some (DataBytesIO "skipped:sent" 8)) None)
             [] "http://example.test/" "sent" eq_refl eq_refl).
  - exact (body_size_is_set_with_body Stub.session
             (Stub.call_with_body "POST" "http://example.test/" (Some (DataDict [])) None)
             [] "http://example.test/" "" eq_refl eq_refl).
Defined.

Lemma injected_content_types_follow_own_lines_witness :
  let a := @Call.mk Stub.collaborators "POST" "http://example.test/" None
             (Some (DataDict [("a", AStr "1")])) (Some (JObj [("b", JInt 2)]))
             (Some [("content-type", "text/plain"); ("X-A", "1")])
             None None None None true None None None None None None in
  settings HTTPHEADER (fst (Stub.run Stub.session a))
  = [VLines ["content-type: text/plain"; "X-A: 1";
             "Content-Type: application/json";
             "Content-Type: application/x-www-form-urlencoded"]].
Proof.
  intros a.
  exact (injected_content_types_follow_own_lines Stub.session a [] "http://example.test/"
           (dumps (JObj [("b", JInt 2)])) eq_refl eq_refl).
Defined.

Lemma files_are_not_implemented_witness :
  let a := @Call.mk Stub.collaborators "POST" "http://example.test/" None
             (Some (DataBytes "x")) None None None (Some [("f", "content")])
             (Some ("user", "secret")) None true None None None None None None in
  snd (Stub.run Stub.session a) = Raise (NotImplementedError "Files has not been implemented.")
  /\ fst (Stub.run Stub.session a)
     = [Setopt CUSTOMREQUEST (VBytes "POST"); Setopt URL (VBytes "http://example.test/");
        Setopt POSTFIELDS (VBytes "x"); Setopt POSTFIELDSIZE (VInt 1);
        Setopt HTTPHEADER (VLines [])].
Proof.
  intros a.
  exact (files_are_not_implemented Stub.session a [] "http://example.test/" "x"
           eq_refl eq_refl eq_refl).
Defined.

Lemma auth_configuration_witness :
  let self := @Session.mk Stub.collaborators [] tt (Some ("session", "s3")) None None true
                (TScalar (PyInt 30)) true (-1)%Z None in
  let a := @Call.mk Stub.collaborators "GET" "http://example.test/" None None None None None
             None (Some ("call", "c4")) None true None None None None None None in
  settings USERNAME (fst (Stub.run self a)) = [VBytes "call"]
  /\ settings PASSWORD (fst (Stub.run self a)) = [VBytes "c4"].
Proof.
  intros self a.
  exact (auth_configuration self a [] "http://example.test/" "" eq_refl eq_refl eq_refl).
Defined.

Lemma timeout_not_finite_raises_witness :
  let a := Call.with_timeout (Some (TScalar (PyFloat infinity)))
             (Call.defaults "GET" "http://example.test/") in
  snd (Stub.run Stub.session a)
  = Raise (OverflowError "cannot convert float infinity to integer")
  /\ settings TIMEOUT_MS (fst (Stub.run Stub.session a)) = []
  /\ performed (fst (Stub.run Stub.session a)) = false.
Proof.
  intros a.
  exact (timeout_not_finite_raises Stub.session a [] "http://example.test/" "" infinity
           eq_refl eq_refl eq_refl eq_refl eq_refl).
Defined.

Lemma redirect_configuration_witness :
  let self := @Session.mk Stub.collaborators [] tt None None None true
                (TScalar (PyInt 30)) true 5%Z None in
  let a := @Call.mk Stub.collaborators "GET" "http://example.test/" None None None None None
             None None None false (Some 0%Z) None None None None None in
  settings FOLLOWLOCATION (fst (Stub.run self a)) = [VInt 0]
  /\ settings MAXREDIRS (fst (Stub.run self a)) = [VInt 5].
Proof.
  intros self a.
  exact (redirect_configuration self a [] "http://example.test/" ""
           eq_refl eq_refl eq_refl eq_refl).
Defined.

Lemma http_proxy_configuration_witness :
  let a := Stub.call_with_options "http://example.test/" None
             (Some [("http", "https://proxy.test:3128"); ("https", "https://bad.test")])
             None in
  settings PROXY (fst (Stub.run Stub.session a)) = [VBytes "https://proxy.test:3128"]
  /\ settings HTTPPROXYTUNNEL (fst (Stub.run Stub.session a)) = [].
Proof.
  intros a.
  exact (http_proxy_configuration Stub.session a [] "http://example.test/" ""
           [("http", "https://proxy.test:3128"); ("https", "https://bad.test")]
           "https://proxy.test:3128" eq_refl eq_refl eq_refl eq_refl eq_refl eq_refl eq_refl).
Defined.

Lemma proxy_entry_missing_raises_key_error_witness :
  let a := Stub.call_with_options "http://example.test/" None
             (Some [("https", "http://proxy.test:3128")]) None in
  snd (Stub.run Stub.session a) = Raise (KeyError "http")
  /\ settings PROXY (fst (Stub.run Stub.session a)) = []
  /\ performed (fst (Stub.run Stub.session a)) = false.
Proof.
  intros a.
  exact (proxy_entry_missing_raises_key_error Stub.session a [] "http://example.test/" ""
           [("https", "http://proxy.test:3128")] "http"
           eq_refl eq_refl eq_refl eq_refl eq_refl eq_refl
           (or_introl (conj eq_refl eq_refl)) eq_refl).
Defined.

Lemma no_proxy_for_other_schemes_witness :
  let a := Stub.call_with_options "HTTP://example.test/" None
             (Some [("http", "http://proxy.test:3128")]) None in
  settings PROXY (fst (Stub.run Stub.session a)) = []
  /\ settings HTTPPROXYTUNNEL (fst (Stub.run Stub.session a)) = [].
Proof.
  intros a.
  exact (no_proxy_for_other_schemes Stub.session a [] "HTTP://example.test/"
           eq_refl eq_refl eq_refl).
Defined.

Lemma call_proxies_override_session_proxies_witness :
  exists merged,
    effective_proxies (Some [("http", "http://a.test"); ("https", "http://b.test")])
      (Some [("https", "socks5://c.test")])
    = Some merged
    /\ forall k,
         Dict.get merged k
         = match Dict.get [("https", "socks5://c.test")] k with
           | Some v => Some v
           | None => Dict.get [("http", "http://a.test"); ("https", "http://b.test")] k
           end.
Proof.
  apply (call_proxies_override_session_proxies
           [("http", "http://a.test"); ("https", "http://b.test")]
           (Some [("https", "socks5://c.test")])).
  - reflexivity.
  - repeat constructor; simpl; intuition discriminate.
  - intros p [= <-]. repeat constructor; simpl; intuition discriminate.
Defined.

Lemma verify_configuration_witness :
  let self := @Session.mk Stub.collaborators [] tt None None None false
                (TScalar (PyInt 30)) true (-1)%Z None in
  let a := @Call.mk Stub.collaborators "GET" "https://example.test/" None None None None None
             None None None true None None (Some true) None None None in
  settings SSL_VERIFYPEER (fst (Stub.run self a)) = []
  /\ settings SSL_VERIFYHOST (fst (Stub.run self a)) = [].
Proof.
  intros self a.
  exact (verify_configuration self a [] "https://example.test/" ""
           eq_refl eq_refl eq_refl eq_refl eq_refl).
Defined.

Lemma referer_and_accept_encoding_witness :
  let a := @Call.mk Stub.collaborators "GET" "https://example.test/" None None None None None
             None None None true None None None (Some "") (Some "") None in
  settings REFERER (fst (Stub.run Stub.session a)) = []
  /\ settings ACCEPT_ENCODING (fst (Stub.run Stub.session a)) = [VBytes ""].
Proof.
  intros a.
  exact (referer_and_accept_encoding Stub.session a [] "https://example.test/" ""
           eq_refl eq_refl eq_refl eq_refl eq_refl).
Defined.

Lemma supported_impersonation_witness :
  let self := @Session.mk Stub.collaborators [] tt None None None true
                (TScalar (PyInt 30)) true (-1)%Z (Some "chrome101") in
  let a := Stub.call_with_options "https://example.test/" None None (Some "safari15_5") in
  impersonations (fst (Stub.run self a)) = ["safari15_5"]
  /\ performed (fst (Stub.run self a)) = true.
Proof.
  intros self a.
  exact (supported_impersonation self a [] "https://example.test/" "" safari15_5
           eq_refl eq_refl eq_refl eq_refl eq_refl eq_refl).
Defined.

Lemma response_only_after_transfer_witness :
  performed (fst (Stub.run Stub.session (Call.defaults "GET" "http://example.test/"))) = true.
Proof.
  exact (response_only_after_transfer Stub.session
           (Call.defaults "GET" "http://example.test/") [] eq_refl).
Defined.


Lemma charset_match_is_sound_witness :
  nonempty "utf-16le" = true
  /\ forallb_chars word_char "utf-16le" = true
  /\ exists before rest,
       "text/html; charset=; charset=utf-16le;x" = before ++ "charset=" ++ "utf-16le" ++ rest
       /\ match rest with String c _ => word_char c = false | EmptyString => True end.
Proof.
  destruct (charset_match_is_sound (fun _ => 0%nat)
              "text/html; charset=; charset=utf-16le;x" "utf-16le" eq_refl)
    as (Hn & Hw & Hsplit).
  split; [exact Hn|]. split; [exact (Hw eq_refl)|exact Hsplit].
Defined.

Lemma charset_is_found_when_present_witness :
  exists g,
    search_charset (fun _ => 0%nat) ("text/html; " ++ "charset=" ++ String "u" "tf-8")
    = Some g.
Proof.
  exact (charset_is_found_when_present (fun _ => 0%nat) "text/html; " "tf-8" "u" eq_refl).
Defined.

Lemma call_params_are_merged_over_session_params_witness :
  let r := mkParseResult "http" "example.test" "/p" "" "x=1&tag=z" "" in
  let self := @Session.mk Stub.collaborators [] tt None None
                (Some [("tag", VSeq [AStr "a"; AStr "b"]); ("on", VAtom (ABool true))])
                true (TScalar (PyInt 30)) true (-1)%Z None in
  let a := @Call.mk Stub.collaborators "GET" "http://example.test/p?x=1&tag=z"
             (Some [("q", VAtom (AStr "1")); ("on", VAtom (ABool false))])
             None None None None None None None true None None None None None None in
  exists args,
    settings URL (fst (Stub.run self a))
    = [VBytes (geturl (with_query r (urlencode_doseq args)))]
    /\ NoDup (Dict.keys args)
    /\ Dict.get args "on" = Some (VAtom (AStr "false"))
    /\ Dict.get args "tag" = Some (VAtom (AStr "b"))
    /\ Dict.get args "x" = Some (VAtom (AStr "1")).
Proof.
  intros r self a.
  destruct (call_params_are_merged_over_session_params self a [] r
              [("tag", VSeq [AStr "a"; AStr "b"]); ("on", VAtom (ABool true))]
              [("q", VAtom (AStr "1")); ("on", VAtom (ABool false))])
    as (args & Hurl & Hnd & Hcall & Hsession & Hquery).
  - reflexivity.
  - reflexivity.
  - reflexivity.
  - reflexivity.
  - repeat constructor; simpl; intuition discriminate.
  - reflexivity.
  - reflexivity.
  - reflexivity.
  - repeat constructor; simpl; intuition discriminate.
  - reflexivity.
  - exists args. split; [exact Hurl|]. split; [exact Hnd|]. split; [|split].
    + exact (Hcall "on" (VAtom (ABool false)) eq_refl).
    + exact (Hsession "tag" (VSeq [AStr "a"; AStr "b"]) eq_refl eq_refl).
    + exact (Hquery "x" eq_refl eq_refl).
Defined.
